(** * doc-rag-feature: the retrieval-and-generation layer of [app/api/qa.py]

    A shallow embedding of the orchestration code of the service
    ([app/api/qa.py], [app/services/groq_llm.py], [app/db/supabase_client.py],
    [app/schemas.py]) and of the upload path ([app/api/files.py],
    [app/services/guardrails.py], [app/utils/extractor.py],
    [app/services/ingest.py]), together with the properties stated about it.

    Python values are modelled as follows.
    - [str] is a sequence of Unicode code points ([list N]); lengths and
      slices count code points, as Python does.
    - [int] is [Z]; slices follow Python's convention for negative and
      out-of-range bounds.
    - a [dict] whose iteration order matters ([docs_by_source],
      [by_source]) is an association list in insertion order; message rows
      are finite maps from column names to text.
    - exceptions and the calls to the external services are threaded
      through a state-and-error monad that also records every call. *)

From Stdlib Require Import ZArith NArith String Ascii QArith DecimalString.
From stdpp Require Import base list gmap strings.

Set Warnings "-register-all".

Local Open Scope Z_scope.
Local Open Scope list_scope.

(** ** Python strings *)

Module PyStr.

Abbreviation char := N.
Abbreviation str := (list N).

(** A literal of the source, written with ASCII characters. *)
Definition py (s : string) : str :=
  (fun a => N_of_ascii a) <$> list_ascii_of_string s.

Definition NL : str := [10%N].
Definition TAB : str := [9%N].
Definition BULLET : str := [8226%N].

Definition char_eqb (a b : char) : bool := N.eqb a b.

Fixpoint str_eqb (a b : str) : bool :=
  match a, b with
  | [], [] => true
  | x :: a', y :: b' => char_eqb x y && str_eqb a' b'
  | _, _ => false
  end.

Definition mem_char (c : char) (cs : str) : bool := existsb (char_eqb c) cs.

(** [str.isspace] on one code point: the characters [str.strip()] removes. *)
Definition isspace (c : char) : bool :=
  (((9 <=? c) && (c <=? 13)) || ((28 <=? c) && (c <=? 32))
   || (c =? 133) || (c =? 160) || (c =? 5760)
   || ((8192 <=? c) && (c <=? 8202))
   || (c =? 8232) || (c =? 8233) || (c =? 8239) || (c =? 8287)
   || (c =? 12288))%N.

(** The line boundaries of [str.splitlines()] other than the pair CR LF. *)
Definition is_linebreak (c : char) : bool :=
  (((10 <=? c) && (c <=? 13)) || ((28 <=? c) && (c <=? 30))
   || (c =? 133) || (c =? 8232) || (c =? 8233))%N.

Fixpoint drop_while (p : char -> bool) (s : str) : str :=
  match s with
  | [] => []
  | c :: t => if p c then drop_while p t else s
  end.

(** [s.lstrip(chars)] *)
Definition lstrip_chars (chars s : str) : str :=
  drop_while (fun c => mem_char c chars) s.

Definition lstrip (s : str) : str := drop_while isspace s.
Definition rstrip (s : str) : str := rev (drop_while isspace (rev s)).
(** [s.strip()] *)
Definition strip (s : str) : str := rstrip (lstrip s).

(** [s.splitlines()]; [cur] holds the current line, reversed. *)
Fixpoint splitlines_from (cur : str) (s : str) : list str :=
  match s with
  | [] => match cur with [] => [] | _ => [rev cur] end
  | c :: t =>
      if (c =? 13)%N then
        match t with
        | d :: t' =>
            if (d =? 10)%N then rev cur :: splitlines_from [] t'
            else rev cur :: splitlines_from [] t
        | [] => rev cur :: splitlines_from [] t
        end
      else if is_linebreak c then rev cur :: splitlines_from [] t
      else splitlines_from (c :: cur) t
  end.

Definition splitlines (s : str) : list str := splitlines_from [] s.

(** [s.split(sep)] for a one-character separator. *)
Fixpoint split_from (sep : char) (cur : str) (s : str) : list str :=
  match s with
  | [] => [rev cur]
  | c :: t =>
      if char_eqb c sep then rev cur :: split_from sep [] t
      else split_from sep (c :: cur) t
  end.

Definition split (sep : char) (s : str) : list str := split_from sep [] s.

(** [sep.join(parts)] *)
Fixpoint join (sep : str) (parts : list str) : str :=
  match parts with
  | [] => []
  | [p] => p
  | p :: rest => p ++ sep ++ join sep rest
  end.

Fixpoint startswith (prefix s : str) : bool :=
  match prefix, s with
  | [], _ => true
  | p :: prefix', c :: s' => char_eqb p c && startswith prefix' s'
  | _ :: _, [] => false
  end.

Definition endswith (suffix s : str) : bool := startswith (rev suffix) (rev s).

(** Index of the first occurrence of [sub], if any. *)
Fixpoint find_sub (sub s : str) : option nat :=
  if startswith sub s then Some 0%nat
  else match s with
       | [] => None
       | _ :: t => S <$> find_sub sub t
       end.

(** Index of the last occurrence of [sub], if any. *)
Fixpoint rfind_sub (sub s : str) : option nat :=
  match s with
  | [] => if startswith sub [] then Some 0%nat else None
  | _ :: t =>
      match rfind_sub sub t with
      | Some i => Some (S i)
      | None => if startswith sub s then Some 0%nat else None
      end
  end.

(** [s.find(sub)] and [s.rfind(sub)]: [-1] when [sub] does not occur. *)
Definition find (sub s : str) : Z :=
  match find_sub sub s with Some i => Z.of_nat i | None => -1 end.

Definition rfind (sub s : str) : Z :=
  match rfind_sub sub s with Some i => Z.of_nat i | None => -1 end.

(** [s.rsplit(sep, 1)[0]] *)
Definition rsplit1_head (sep s : str) : str :=
  match rfind_sub sep s with
  | Some i => take i s
  | None => s
  end.

End PyStr.

Export PyStr.

(** ** Python slices *)

Section Slice.
Context {A : Type}.

(** A slice bound brought into [0 .. len]. *)
Definition norm_index (len i : Z) : Z :=
  if i <? 0 then Z.max 0 (i + len) else Z.min i len.

(** [l[lo:hi]], a missing bound being [None]. *)
Definition slice (lo hi : option Z) (l : list A) : list A :=
  let n := Z.of_nat (length l) in
  let a := match lo with None => 0 | Some i => norm_index n i end in
  let b := match hi with None => n | Some i => norm_index n i end in
  take (Z.to_nat (b - a)) (drop (Z.to_nat a) l).
End Slice.

(** ** Parsing the suggestion response ([generate_suggestions_from_retriever],
    the loop over [resp.splitlines()]) *)

Definition enumeration_markers : str := py "0123456789.-" ++ BULLET ++ py ") " ++ TAB.

(** The body of the [for line in resp.splitlines()] loop, [suggestions]
    being the list built so far. *)
Fixpoint collect_suggestions (lines : list str) (suggestions : list str) : list str :=
  match lines with
  | [] => suggestions
  | line :: rest =>
      let line := strip line in
      match line with
      | [] => collect_suggestions rest suggestions
      | _ =>
          let cleaned := lstrip_chars enumeration_markers line in
          match cleaned with
          | [] => collect_suggestions rest suggestions
          | _ => collect_suggestions rest (suggestions ++ [cleaned])
          end
      end
  end.

Definition parse_suggestions (resp : str) : list str :=
  slice None (Some 3) (collect_suggestions (splitlines resp) []).

(** ** The response repair of [generate_mcq] *)

Definition FENCE : str := py "```".

Definition repair (resp : str) : str :=
  let resp := strip resp in
  let resp :=
    if startswith FENCE resp
    then join NL (slice (Some 1) None (split 10%N resp))
    else resp in
  let resp :=
    if endswith FENCE resp then rsplit1_head FENCE resp else resp in
  let resp := strip resp in
  let json_start := find (py "[") resp in
  let json_end := rfind (py "]") resp + 1 in
  if negb (json_start =? -1) && (json_end >? json_start)
  then slice (Some json_start) (Some json_end) resp
  else resp.

(** ** Data model *)

(** JSON values, as [json.loads] and [resp.json()] produce them.  A number
    is kept as an opaque literal: the code never computes with one. *)
Inductive json :=
| JNull
| JBool (b : bool)
| JNum (n : Z)
| JStr (s : str)
| JArr (items : list json)
| JObj (fields : list (str * json)).

(** [d.get(k)] on a dictionary kept as an association list. *)
Fixpoint assoc_get {V : Type} (k : str) (d : list (str * V)) : option V :=
  match d with
  | [] => None
  | (k', v) :: d' => if str_eqb k k' then Some v else assoc_get k d'
  end.

(** A dictionary of text fields (a message, a row of [chat_messages], the
    metadata of a document); a field holding [None] is an absent key. *)
Abbreviation pydict := (gmap string str).

(** [a or b] where [a] is [None] or a string and [b] is a string. *)
Definition or_str (a : option str) (b : str) : str :=
  match a with
  | Some (c :: s) => c :: s
  | _ => b
  end.

Definition opt_eqb (a : option str) (b : str) : bool :=
  match a with Some x => str_eqb x b | None => false end.

(** [langchain_core.documents.Document] *)
Record Document := { page_content : str; metadata : pydict }.

(** [qdrant_client.http.models]: [FieldCondition], [Filter] *)
Record FieldCondition := { key : str; match_value : str }.
Record Filter := {
  must : option (list FieldCondition);
  should : option (list FieldCondition)
}.

(** What [vect.as_retriever(search_kwargs=...)] is built from. *)
Record Retriever := {
  collection_name : str;
  search_filter : option Filter;
  search_k : Z
}.

(** A chat message of a prompt: [{"role": ..., "content": ...}]. *)
Record ChatMessage := { role : str; content : str }.

(** The body [chat_get_text] posts. *)
Record Payload := {
  model : str;
  messages : list ChatMessage;
  max_tokens : Z;
  temperature : Q
}.

(** The row [save_chat_message] inserts; [extra] is [{}] or
    [{"sources": [...]}]. *)
Record NewRow := {
  row_session_id : str;
  row_role : str;
  row_message : str;
  row_extra : list (str * list str)
}.

(** [app/schemas.py] *)
Record QueryRequest := {
  q_session_id : str;
  q_query : str;
  q_files : option (list str)
}.

Record QueryResponse := {
  r_session_id : str;
  r_query : str;
  r_answer : str;
  r_source_docs : list str;
  r_suggestions : list str
}.

Record MCQRequest := {
  m_session_id : str;
  m_num_questions : Z;
  m_files : option (list str)
}.

Record MCQItem := {
  question : str;
  choices : list (str * str);
  correct_answer : str
}.

Record MCQListResponse := {
  l_session_id : str;
  l_query : str;
  l_mcqs : list MCQItem
}.

(** [app/config.py] *)
Definition TOP_K : Z := 15.
Definition GROQ_RAG_MODEL : str := py "llama-3.3-70b-versatile".

(** ** Exceptions and outcomes *)

(** The exceptions the modelled code raises or lets through.  The text of
    [f"...{str(e)}"] is kept as the prefix together with the exception. *)
Inductive exn :=
| RequestException (msg : str)
| TypeError
| AttributeError
| KeyError
| IndexError
| ValueError (msg : str)
| JSONDecodeError
| ValidationError
| StopIteration
| ServiceError (msg : str)
| HTTPException (status_code : Z) (detail : http_detail)
with http_detail :=
| Detail (text : str)
| DetailOf (prefix : str) (cause : exn).

(** How a call ends: with a value, with an exception, or not at all within
    the steps granted to a loop. *)
Inductive outcome (A : Type) :=
| Ok (a : A)
| Raise (e : exn)
| OutOfFuel.
Arguments Ok {A} a.
Arguments Raise {A} e.
Arguments OutOfFuel {A}.

(** The outcome of a call that returned ([inr]) or raised ([inl]). *)
Definition outcome_of {A} (r : exn + A) : outcome A :=
  match r with inr a => Ok a | inl e => Raise e end.

(** What [requests.post(...)], [raise_for_status()] and [resp.json()]
    give: a [RequestException], or the decoded body. *)
Inductive post_outcome :=
| PostFails (e : str)
| PostJson (data : json).

(** The calls made to the external services, in order. *)
Inductive event :=
| EvVectorStore (collection : str)
| EvInvoke (r : Retriever) (query : str)
| EvInsert (row : NewRow)
| EvSelect (session_id : str) (limit : Z)
| EvPost (p : Payload).

(** ** The external services and the monad of the request handlers *)

Section Handlers.

(** The state of the world outside the process (the vector index, the
    tables of the store, the generation backend); nothing is assumed
    about it. *)
Context {W : Type}.

(** The external services.  Each call may change the world, and each
    call but [post] either returns ([inr]) or raises ([inl]).
    - [open_vectorstore]: the calls of [get_qdrant_vectorstore];
    - [invoke]: [retriever.invoke(query)];
    - [insert_message]: the [insert(...).execute()] of [save_chat_message];
    - [select_messages]: the rows of [chat_messages] of a session, in the
      order they were created;
    - [post]: the HTTP exchange of [chat_get_text];
    - [json_loads]: [json.loads], [None] standing for [JSONDecodeError]. *)
Record Services := {
  open_vectorstore : str -> W -> (exn + ()) * W;
  invoke : Retriever -> str -> W -> (exn + list Document) * W;
  insert_message : NewRow -> W -> (exn + ()) * W;
  select_messages : str -> W -> (exn + list pydict) * W;
  post : Payload -> W -> post_outcome * W;
  json_loads : str -> option json
}.

Variable svc : Services.

(** A handler runs on the world and the log of the calls made so far. *)
Definition M (A : Type) : Type := W * list event -> outcome A * (W * list event).

Definition ret {A} (a : A) : M A := fun st => (Ok a, st).

Definition raise {A} (e : exn) : M A := fun st => (Raise e, st).

Definition diverge {A} : M A := fun st => (OutOfFuel, st).

Definition bind {A B} (m : M A) (f : A -> M B) : M B :=
  fun st =>
    match m st with
    | (Ok a, st') => f a st'
    | (Raise e, st') => (Raise e, st')
    | (OutOfFuel, st') => (OutOfFuel, st')
    end.

(** [try: m  except Exception as e: h e] *)
Definition try_except {A} (m : M A) (h : exn -> M A) : M A :=
  fun st =>
    match m st with
    | (Raise e, st') => h e st'
    | r => r
    end.

(** A call to a service: logged, then performed. *)
Definition call {A} (ev : event) (f : W -> (exn + A) * W) : M A :=
  fun '(w, log) =>
    let '(r, w') := f w in (outcome_of r, (w', log ++ [ev])).

End Handlers.

Arguments Services W : clear implicits.
Arguments M W A : clear implicits.

Declare Scope handler_scope.
Delimit Scope handler_scope with handler.
Notation "x <- m ;; k" := (bind m (fun x => k))
  (at level 100, m at next level, right associativity) : handler_scope.
Notation "m ;;; k" := (bind m (fun _ => k))
  (at level 100, right associativity) : handler_scope.

Local Open Scope handler_scope.

(** [str(n)] for an [int], as the f-strings print it. *)
Definition str_of_int (n : Z) : str := py (NilZero.string_of_int (Z.to_int n)).

(** ** [app/services/groq_llm.py] *)

(** [data.get("choices", [{}])[0].get("message", {}).get("content", "")]
    followed by [.strip()]: the text, or the exception the chain raises. *)
Definition extract_content (data : json) : exn + str :=
  match data with
  | JObj fields =>
      let choices := default (JArr [JObj []]) (assoc_get (py "choices") fields) in
      let first : exn + json :=
        match choices with
        | JArr (x :: _) => inr x
        | JArr [] => inl IndexError
        | JObj _ => inl KeyError
        | JStr (c :: _) => inr (JStr [c])
        | JStr [] => inl IndexError
        | JNull | JBool _ | JNum _ => inl TypeError
        end in
      match first with
      | inl e => inl e
      | inr (JObj choice) =>
          match default (JObj []) (assoc_get (py "message") choice) with
          | JObj message =>
              match default (JStr []) (assoc_get (py "content") message) with
              | JStr text => inr (strip text)
              | _ => inl AttributeError
              end
          | _ => inl AttributeError
          end
      | inr _ => inl AttributeError
      end
  | _ => inl AttributeError
  end.

Section Llm.
Context {W : Type} (svc : Services W).

(** [GroqChatService.chat_get_text] *)
Definition chat_get_text (model : str) (messages : list ChatMessage)
    (max_tokens : Z) (temperature : Q) : M W str :=
  let payload := {| model := model; messages := messages;
                    max_tokens := max_tokens; temperature := temperature |} in
  fun '(w, log) =>
    let '(r, w') := post svc payload w in
    let st' := (w', log ++ [EvPost payload]) in
    match r with
    | PostFails e =>
        (Ok (py "Error: Could not get response from Groq. " ++ e), st')
    | PostJson data =>
        match extract_content data with
        | inr text => (Ok text, st')
        | inl KeyError | inl IndexError | inl AttributeError =>
            (Ok (py "Error: Invalid response structure from Groq."), st')
        | inl e => (Raise e, st')
        end
    end.
End Llm.

Definition strict_system_message : str :=
  py "You are a helpful assistant. Answer the user's question ONLY using the information "
  ++ py "present in the provided CONTEXT. Do NOT use any knowledge outside this context. "
  ++ py "If the exact answer is not present, respond honestly: 'I don't know from the provided documents.' "
  ++ py "Otherwise, use all relevant information in the context to provide the best possible answer "
  ++ py "without guessing or hallucinating." ++ NL ++ NL
  ++ py "CONTEXT:" ++ NL.

(** [build_strict_context_prompt] *)
Definition build_strict_context_prompt (query : str) (context_docs : list str)
    : list ChatMessage :=
  let context := join (NL ++ py "---DOCUMENT---" ++ NL) context_docs in
  let user_message := py "QUESTION: " ++ query in
  [ {| role := py "system"; content := strict_system_message ++ context |};
    {| role := py "user"; content := user_message |} ].

Definition initial_system_message : str :=
  py "You are an intelligent recommended questions generator. Your task is to provide 3 concise, "
  ++ py "relevant, and thought-provoking questions. "
  ++ py "These questions MUST be based **EXCLUSIVELY** on the provided CONTEXT. "
  ++ py "IMPORTANT: You MUST ensure the 3 questions cover the most important and **distinct topics** present across **ALL documents** mentioned in the CONTEXT. "
  ++ py "Each question must be a single, short sentence. "
  ++ py "Format: Return ONLY a numbered list (1. 2. 3.) with one question per line. "
  ++ py "Do NOT include any introductory text, explanations, or concluding remarks.".

Definition followup_system_message : str :=
  py "You are an intelligent follow-up questions generator. "
  ++ py "Your task is to provide 3 NEW questions that explore DIFFERENT topics or aspects from the documents. "
  ++ py "These questions MUST be based on the provided CONTEXT. "
  ++ NL ++ py "**CRITICAL INSTRUCTIONS:**" ++ NL
  ++ py "1. Review the FULL CONVERSATION HISTORY (all user queries and assistant answers)" ++ NL
  ++ py "2. Identify what topics and information have ALREADY been covered" ++ NL
  ++ py "3. Generate questions about COMPLETELY DIFFERENT topics or unexplored aspects" ++ NL
  ++ py "4. DO NOT ask about information already provided in previous answers" ++ NL
  ++ py "5. Help the user discover NEW information from the documents" ++ NL
  ++ py "6. Each question must be a single, short sentence" ++ NL
  ++ NL ++ py "Format: Return ONLY a numbered list (1. 2. 3.) with one question per line. "
  ++ py "Do NOT include any introductory text, explanations, or concluding remarks.".

Definition followup_task : str :=
  NL ++ py "**YOUR TASK:** Based on the conversation history above, generate 3 NEW questions about "
  ++ py "topics and information NOT YET covered. Explore different aspects of the documents that "
  ++ py "haven't been discussed yet.".

(** [not history or len(history) < 2] *)
Definition is_initial (history : option (list pydict)) : bool :=
  match history with
  | None | Some [] => true
  | Some h => Z.of_nat (length h) <? 2
  end.

(** [msg.get('message') or msg.get('content', '')] *)
Definition message_text (msg : pydict) : str :=
  or_str (msg !! "message"%string) (default [] (msg !! "content"%string)).

(** The [while i < len(history) - 1] loop of [build_suggestion_prompt]:
    the argument is [history[i:]]; a pair found consumes two messages
    ([i += 2]), otherwise one ([i += 1]).  Each pair is (user, assistant). *)
Fixpoint conversation_pairs (history : list pydict) : list (str * str) :=
  match history with
  | msg :: ((next_msg :: rest) as tl) =>
      if opt_eqb (msg !! "role"%string) (py "user")
         && opt_eqb (next_msg !! "role"%string) (py "assistant")
      then (message_text msg, message_text next_msg) :: conversation_pairs rest
      else conversation_pairs tl
  | _ => []
  end.

(** [pair['assistant'][:500] + ("..." if len(pair['assistant']) > 500 else "")] *)
Definition shown_answer (assistant_a : str) : str :=
  slice None (Some 500) assistant_a
  ++ (if Z.of_nat (length assistant_a) >? 500 then py "..." else []).

(** The text one [for idx, pair in enumerate(conversation_pairs, 1)] round
    appends to [user_content]. *)
Definition render_turn (idx : Z) (turn : str * str) : str :=
  NL ++ py "--- Turn " ++ str_of_int idx ++ py " ---" ++ NL
  ++ py "User: " ++ turn.1 ++ NL
  ++ py "Assistant: " ++ shown_answer turn.2 ++ NL.

Fixpoint render_turns (idx : Z) (pairs : list (str * str)) : str :=
  match pairs with
  | [] => []
  | turn :: rest => render_turn idx turn ++ render_turns (idx + 1) rest
  end.

(** [build_suggestion_prompt]; [all_previous_queries] is never read. *)
Definition build_suggestion_prompt (context : str) (history : option (list pydict))
    : list ChatMessage :=
  let system_message :=
    if is_initial history then initial_system_message else followup_system_message in
  let user_content := py "CONTEXT:" ++ NL ++ context in
  let user_content :=
    match history with
    | Some ((_ :: _) as h) =>
        if is_initial history then user_content
        else user_content
             ++ NL ++ NL ++ py "**FULL CONVERSATION HISTORY:**" ++ NL
             ++ render_turns 1 (conversation_pairs h)
             ++ followup_task
    | _ => user_content
    end in
  [ {| role := py "system"; content := system_message |};
    {| role := py "user"; content := user_content |} ].

(** [build_mcq_generation_prompt] *)
Definition build_mcq_generation_prompt (context_docs : list str) (num_questions : Z)
    : list ChatMessage :=
  let context := join (NL ++ py "---" ++ NL) context_docs in
  let system_message :=
    py "You are an expert quiz generator. Your **SOLE** task is to create multiple-choice questions (MCQs) "
    ++ py "BASED **STRICTLY AND EXCLUSIVELY** ON THE PROVIDED CONTEXT. "
    ++ py "**EVERY** question, **EVERY** option (A, B, C, D), and the **CORRECT ANSWER** "
    ++ py "**MUST** be verifiable and directly supported by the text in the CONTEXT. "
    ++ py "Do NOT use external knowledge or invent information. "
    ++ py "If the context does not contain enough information, create fewer questions or state you cannot complete the request."
    ++ NL ++ NL
    ++ py "Generate " ++ str_of_int num_questions
    ++ py " MCQs. The response **MUST** be a single, valid JSON array containing objects for each question. "
    ++ py "Each question object must strictly include the following keys: 'question', 'choices' (an object with keys A, B, C, D), and 'correct_answer' (the letter A, B, C, or D). "
    ++ py "Do not include any text before or after the JSON array." in
  let user_message := py "CONTEXT:" ++ NL ++ context in
  [ {| role := py "system"; content := system_message |};
    {| role := py "user"; content := user_message |} ].

(** ** Dictionaries in insertion order *)

Section Dict.
Context {V : Type}.

(** [d[k] = v]: in place when [k] is present, at the end otherwise. *)
Fixpoint dict_set (k : str) (v : V) (d : list (str * V)) : list (str * V) :=
  match d with
  | [] => [(k, v)]
  | (k', v') :: d' =>
      if str_eqb k k' then (k, v) :: d' else (k', v') :: dict_set k v d'
  end.

(** [del d[k]] *)
Fixpoint dict_del (k : str) (d : list (str * V)) : list (str * V) :=
  match d with
  | [] => []
  | (k', v') :: d' =>
      if str_eqb k k' then d' else (k', v') :: dict_del k d'
  end.
End Dict.

(** [d[k].append(v)] on a [defaultdict(list)] *)
Definition dict_append (k : str) (v : str) (d : list (str * list str))
    : list (str * list str) :=
  dict_set k (default [] (assoc_get k d) ++ [v]) d.

(** [next(cycle(keys))] at the [pos]-th call. *)
Definition cycle_next (keys : list str) (pos : nat) : option str :=
  keys !! (pos mod length keys)%nat.

(** The passages still queued. *)
Definition remaining (d : list (str * list str)) : nat :=
  sum_list (length <$> d.*2).

(** ** [app/db/supabase_client.py] *)

Section Store.
Context {W : Type} (svc : Services W).

(** [save_chat_message] *)
Definition save_chat_message (session_id role message : str)
    (extra : option (list (str * list str))) : M W () :=
  let data := {| row_session_id := session_id; row_role := role;
                 row_message := message; row_extra := default [] extra |} in
  call (EvInsert data) (insert_message svc data).

(** [get_session_messages]: the rows of the session, newest first
    ([order("created_at", desc=True)]), at most [limit] of them. *)
Definition get_session_messages (session_id : str) (limit : Z) : M W (list pydict) :=
  rows <- call (EvSelect session_id limit) (select_messages svc session_id) ;;
  ret (take (Z.to_nat limit) (reverse rows)).
End Store.

(** ** [app/api/qa.py]: the filter of [get_retriever_for_session] *)

(** The [if files:] part: the filter handed to [as_retriever], if any. *)
Definition scope_filter (files : option (list str)) : option Filter :=
  match files with
  | Some ((_ :: _) as files) =>
      let conditions :=
        (fun f => {| key := py "metadata.source"; match_value := f |}) <$> files in
      if Z.of_nat (length files) =? 1
      then Some {| must := Some conditions; should := None |}
      else Some {| must := None; should := Some conditions |}
  | _ => None
  end.

(** ** [app/api/qa.py]: balancing the contexts of the initial suggestions *)

Definition max_chunks_per_file : Z := 10.
Definition max_total_chunks : Z := 30.

(** [d.metadata.get('source', dflt)] *)
Definition source_of (dflt : str) (d : Document) : str :=
  default dflt (metadata d !! "source"%string).

(** The [for d in top_docs] loop filling [docs_by_source]. *)
Definition group_by_source (dflt : str) (text : Document -> str)
    (top_docs : list Document) : list (str * list str) :=
  foldl (fun acc d => dict_append (source_of dflt d) (text d) acc) [] top_docs.

(** [for source in docs_by_source: docs_by_source[source] = ...[:max_chunks_per_file]] *)
Definition cap_per_source (d : list (str * list str)) : list (str * list str) :=
  (fun kv => (kv.1, slice None (Some max_chunks_per_file) kv.2)) <$> d.

(** The state of the balancing loop. *)
Record balance_state := {
  b_pos : nat;
  b_queues : list (str * list str);
  b_balanced : list str;
  b_added : bool
}.

(** [for _ in range(n)]: one sweep over the sources; the sweep stops early
    ([break]) once [max_total_chunks] passages are selected. *)
Fixpoint sweep (n : nat) (keys : list str) (st : balance_state) : outcome balance_state :=
  match n with
  | O => Ok st
  | S n' =>
      match cycle_next keys (b_pos st) with
      | None => Raise StopIteration
      | Some src =>
          match default [] (assoc_get src (b_queues st)) with
          | x :: q =>
              let balanced := b_balanced st ++ [x] in
              let st' := {| b_pos := S (b_pos st);
                            b_queues := dict_set src q (b_queues st);
                            b_balanced := balanced; b_added := true |} in
              if Z.of_nat (length balanced) >=? max_total_chunks then Ok st'
              else sweep n' keys st'
          | [] =>
              sweep n' keys {| b_pos := S (b_pos st); b_queues := b_queues st;
                               b_balanced := b_balanced st; b_added := b_added st |}
          end
      end
  end.

(** [while added and len(balanced_contexts) < max_total_chunks] *)
Fixpoint balance_loop (fuel : nat) (keys : list str) (st : balance_state)
    : outcome (list str) :=
  match fuel with
  | O => OutOfFuel
  | S fuel' =>
      if b_added st && (Z.of_nat (length (b_balanced st)) <? max_total_chunks)
      then
        match sweep (length (b_queues st)) keys
                {| b_pos := b_pos st; b_queues := b_queues st;
                   b_balanced := b_balanced st; b_added := false |} with
        | Ok st' => balance_loop fuel' keys st'
        | Raise e => Raise e
        | OutOfFuel => OutOfFuel
        end
      else Ok (b_balanced st)
  end.

(** The round-robin selection over the capped queues. *)
Definition round_robin (queues : list (str * list str)) : outcome (list str) :=
  balance_loop (S (S (remaining queues))) queues.*1
    {| b_pos := O; b_queues := queues; b_balanced := []; b_added := true |}.

(** The [if is_initial_suggestion:] block: [balanced_contexts]. *)
Definition balanced_contexts (top_docs : list Document) : outcome (list str) :=
  round_robin (cap_per_source (group_by_source (py "Unknown File") page_content top_docs)).

(** ** [app/api/qa.py]: [get_retriever_for_session],
    [generate_suggestions_from_retriever], [query_docs] *)

Definition BROAD_PROBE : str :=
  py "find the main topics, key concepts, and important entities from all uploaded files".

Definition FALLBACK_ANSWER : str :=
  py "I couldn't find relevant information in the specified documents. Please try a different query or check if the files are uploaded correctly.".

(** [list(set(filenames))]: the distinct names.  Python fixes no order for
    them; [remove_dups] lists each name at its last occurrence, and no
    statement below depends on the order. *)
Definition list_of_set (names : list str) : list str := remove_dups names.

(** The query of the follow-up mode: the last three user messages. *)
Definition followup_query (history : list pydict) : str :=
  let all_user_queries :=
    message_text <$> filter (fun msg => opt_eqb (msg !! "role"%string) (py "user") = true) history in
  let recent_queries :=
    match all_user_queries with
    | [] => []
    | _ => slice (Some (-3)) None all_user_queries
    end in
  match recent_queries with
  | [] => BROAD_PROBE
  | _ => join (py " ") recent_queries
  end.

(** The [content] that [query_docs] reads from a stored row. *)
Definition normalize_message (message : pydict) : pydict :=
  let content :=
    or_str (message !! "content"%string)
      (or_str (message !! "text"%string)
         (or_str (message !! "message"%string) [])) in
  let d : pydict := {[ "content"%string := content ]} in
  match message !! "role"%string with
  | Some r => <[ "role"%string := r ]> d
  | None => d
  end.

Section Qa.
Context {W : Type} (svc : Services W).

(** An outcome computed without the services, as a handler. *)
Definition lift {A} (o : outcome A) : M W A := fun st => (o, st).

(** [get_retriever_for_session] *)
Definition get_retriever_for_session (session_id : str)
    (files : option (list str)) (k : Z) : M W Retriever :=
  call (EvVectorStore session_id) (open_vectorstore svc session_id) ;;;
  ret {| collection_name := session_id;
         search_filter := scope_filter files;
         search_k := k |}.

(** [retriever.invoke(query)] *)
Definition retriever_invoke (r : Retriever) (query : str) : M W (list Document) :=
  call (EvInvoke r query) (invoke svc r query).

(** [generate_suggestions_from_retriever] *)
Definition generate_suggestions_from_retriever (session_id : str)
    (history : option (list pydict)) (files : option (list str)) : M W (list str) :=
  let is_initial_suggestion := is_initial history in
  let retrieval_k := if is_initial_suggestion then 20 else TOP_K in
  retriever <- get_retriever_for_session session_id files retrieval_k ;;
  let search_query :=
    if is_initial_suggestion then BROAD_PROBE
    else followup_query (default [] history) in
  top_docs <- retriever_invoke retriever search_query ;;
  match top_docs with
  | [] => ret []
  | _ =>
      contexts <- (if is_initial_suggestion
                   then lift (balanced_contexts top_docs)
                   else ret (page_content <$> top_docs)) ;;
      let context_text := join (NL ++ py "-----DOCUMENT-----" ++ NL) contexts in
      let suggestion_prompt := build_suggestion_prompt context_text history in
      resp <- chat_get_text svc GROQ_RAG_MODEL suggestion_prompt 200 (7 # 10) ;;
      ret (parse_suggestions resp)
  end.

(** [query_docs] *)
Definition query_docs (body : QueryRequest) : M W QueryResponse :=
  retriever <- get_retriever_for_session (q_session_id body) (q_files body) TOP_K ;;
  top_docs <- retriever_invoke retriever (q_query body) ;;
  save_chat_message svc (q_session_id body) (py "user") (q_query body) None ;;;
  match top_docs with
  | [] =>
      suggestions <-
        try_except
          (generate_suggestions_from_retriever (q_session_id body) (Some []) (q_files body))
          (fun _ => ret []) ;;
      ret {| r_session_id := q_session_id body;
             r_query := q_query body;
             r_answer := FALLBACK_ANSWER;
             r_source_docs := [];
             r_suggestions := suggestions |}
  | _ =>
      let contexts := page_content <$> top_docs in
      let filenames := source_of (py "Unknown File") <$> top_docs in
      let rag_prompt := build_strict_context_prompt (q_query body) contexts in
      answer <- chat_get_text svc GROQ_RAG_MODEL rag_prompt 2048 (1 # 10) ;;
      save_chat_message svc (q_session_id body) (py "assistant") answer
        (Some [(py "sources", list_of_set filenames)]) ;;;
      suggestions <-
        try_except
          (history <- get_session_messages svc (q_session_id body) 6 ;;
           let normalized_history := normalize_message <$> history in
           generate_suggestions_from_retriever (q_session_id body)
             (Some normalized_history) (q_files body))
          (fun _ => ret []) ;;
      ret {| r_session_id := q_session_id body;
             r_query := q_query body;
             r_answer := answer;
             r_source_docs := list_of_set filenames;
             r_suggestions := suggestions |}
  end.

(** [generate_suggestions_api] *)
Definition generate_suggestions_api (body : QueryRequest) : M W (list str) :=
  generate_suggestions_from_retriever (q_session_id body) (Some []) (q_files body).

End Qa.

(** ** [app/api/qa.py]: [generate_mcq] *)

Definition MCQ_PROBE : str := py "comprehensive overview topics concepts".
Definition MAX_CONTEXT : Z := 5000.

(** [body.num_questions or 5] *)
Definition mcq_count (num_questions : Z) : Z :=
  if num_questions =? 0 then 5 else num_questions.

(** [doc.page_content[:600]] *)
Definition excerpt (d : Document) : str := slice None (Some 600) (page_content d).

(** The [while len(selected_content) < max_excerpts and by_source] loop.
    [keys] are the names held by [sources_cycle]; reading a deleted name
    from the [defaultdict] gives an empty list, and the name is deleted
    again. *)
Fixpoint select_loop (fuel : nat) (keys : list str) (max_excerpts : Z) (pos : nat)
    (by_source : list (str * list str)) (selected_content : list str)
    : outcome (list str) :=
  match fuel with
  | O => OutOfFuel
  | S fuel' =>
      if (Z.of_nat (length selected_content) <? max_excerpts)
         && negb (bool_decide (by_source = []))
      then
        match cycle_next keys pos with
        | None => Raise StopIteration
        | Some source =>
            match default [] (assoc_get source by_source) with
            | x :: q =>
                select_loop fuel' keys max_excerpts (S pos)
                  (dict_set source q by_source) (selected_content ++ [x])
            | [] =>
                let by_source := dict_del source by_source in
                match by_source with
                | [] => Ok selected_content
                | _ => select_loop fuel' keys max_excerpts (S pos) by_source selected_content
                end
            end
        end
      else Ok selected_content
  end.

(** The steps granted to [select_loop]: every round over the names pops an
    excerpt or deletes a name. *)
Definition select_fuel (by_source : list (str * list str)) : nat :=
  S (S (length by_source) * S (remaining by_source + length by_source)).

Definition select_excerpts (max_excerpts : Z) (by_source : list (str * list str))
    : outcome (list str) :=
  select_loop (select_fuel by_source) by_source.*1 max_excerpts O by_source [].

(** What [MCQItem(...)] accepts for a [str] field. *)
Definition as_str (v : json) : option str :=
  match v with JStr s => Some s | _ => None end.

(** What [MCQItem(...)] accepts for [choices : Dict[str, str]]. *)
Fixpoint as_str_dict (fields : list (str * json)) : option (list (str * str)) :=
  match fields with
  | [] => Some []
  | (k, v) :: rest =>
      match as_str v, as_str_dict rest with
      | Some s, Some d => Some ((k, s) :: d)
      | _, _ => None
      end
  end.

Definition as_choices (v : json) : option (list (str * str)) :=
  match v with JObj fields => as_str_dict fields | _ => None end.

(** One round of [for idx, item in enumerate(mcqs_json[:count], 1)]: the
    [print] slices the question, then [MCQItem] validates the fields.  A
    dictionary sliced raises [TypeError] ([KeyError] from Python 3.12 on). *)
Definition read_item (item : json) : exn + MCQItem :=
  match item with
  | JObj fields =>
      match default (JStr (py "N/A")) (assoc_get (py "question") fields) with
      | JNull | JBool _ | JNum _ | JObj _ => inl TypeError
      | JStr _ | JArr _ =>
          match as_str (default (JStr []) (assoc_get (py "question") fields)),
                as_choices (default (JObj []) (assoc_get (py "choices") fields)),
                as_str (default (JStr []) (assoc_get (py "correct_answer") fields)) with
          | Some q, Some c, Some a =>
              inr {| question := q; choices := c; correct_answer := a |}
          | _, _, _ => inl ValidationError
          end
      end
  | _ => inl AttributeError
  end.

Fixpoint read_items (items : list json) : exn + list MCQItem :=
  match items with
  | [] => inr []
  | item :: rest =>
      match read_item item with
      | inl e => inl e
      | inr mcq =>
          match read_items rest with
          | inl e => inl e
          | inr mcqs => inr (mcq :: mcqs)
          end
      end
  end.

(** The body of the [try]: what [json.loads] gave, then the items. *)
Definition parse_mcqs (parsed : option json) (count : Z) : exn + list MCQItem :=
  match parsed with
  | None => inl JSONDecodeError
  | Some (JArr mcqs_json) => read_items (slice None (Some count) mcqs_json)
  | Some _ => inl (ValueError (py "MCQ response is not a list"))
  end.

(** The two [except] clauses. *)
Definition mcq_failure (e : exn) : exn :=
  match e with
  | JSONDecodeError =>
      HTTPException 500 (DetailOf (py "Failed to parse MCQ response: ") e)
  | _ => HTTPException 500 (DetailOf (py "Error generating MCQs: ") e)
  end.

(** From the cleaned response to the result of the handler. *)
Definition mcq_result (session_id : str) (count : Z) (parsed : option json)
    : outcome MCQListResponse :=
  match parse_mcqs parsed count with
  | inr mcqs =>
      Ok {| l_session_id := session_id;
            l_query := py "Generate " ++ str_of_int count ++ py " MCQs";
            l_mcqs := mcqs |}
  | inl e => Raise (mcq_failure e)
  end.

(** [combined_content], after the [MAX_CONTEXT] cut. *)
Definition combine_excerpts (selected_content : list str) : str :=
  let combined_content := join (NL ++ NL) selected_content in
  if Z.of_nat (length combined_content) >? MAX_CONTEXT
  then slice None (Some MAX_CONTEXT) combined_content
  else combined_content.

Section Mcq.
Context {W : Type} (svc : Services W).

(** [generate_mcq] *)
Definition generate_mcq (body : MCQRequest) : M W MCQListResponse :=
  let session_id := m_session_id body in
  let count := mcq_count (m_num_questions body) in
  retriever <- get_retriever_for_session svc session_id (m_files body) TOP_K ;;
  docs <- retriever_invoke svc retriever MCQ_PROBE ;;
  match docs with
  | [] =>
      raise (HTTPException 404 (Detail (py "No documents found for MCQ generation")))
  | _ =>
      let by_source := group_by_source (py "unknown") excerpt docs in
      let max_excerpts := count * 2 in
      selected_content <- lift (select_excerpts max_excerpts by_source) ;;
      let combined_content := combine_excerpts selected_content in
      let contexts := [combined_content] in
      let mcq_prompt := build_mcq_generation_prompt contexts count in
      resp <- chat_get_text svc GROQ_RAG_MODEL mcq_prompt 4096 (5 # 10) ;;
      let resp := repair resp in
      lift (mcq_result session_id count (json_loads svc resp))
  end.
End Mcq.

(** The enumeration markers removed at the start of a suggestion line, by
    code point: the digits, the period, the dash, the bullet U+2022, the
    closing parenthesis, the space and the tab. *)
Definition is_marker (c : char) : bool :=
  (((48 <=? c) && (c <=? 57)) || (c =? 46) || (c =? 45) || (c =? 8226)
   || (c =? 41) || (c =? 32) || (c =? 9))%N.

(** [s] begins with a character that [p] rejects, or is empty. *)
Definition stops (p : char -> bool) (s : str) : Prop :=
  match s with
  | c :: _ => p c = false
  | [] => True
  end.

(** [t] is [line] without the white space at its two ends. *)
Definition trimmed_of (line t : str) : Prop :=
  exists before after,
    line = before ++ t ++ after
    /\ Forall (fun c => isspace c = true) before
    /\ Forall (fun c => isspace c = true) after
    /\ stops isspace t /\ stops isspace (rev t).

(** [s] is what is left of [line] once trimmed and then relieved of the
    markers it begins with. *)
Definition cleaned_of (line s : str) : Prop :=
  exists t markers,
    trimmed_of line t /\ t = markers ++ s
    /\ Forall (fun c => is_marker c = true) markers
    /\ stops is_marker s.

Definition example_response : str :=
  py "Here you go:" ++ NL ++ py "```json" ++ NL ++ py "[{...}]" ++ NL
  ++ py "```" ++ NL ++ py "Thanks".

(** ** Conditions, passages and services used in the statements *)


(** A retrieved passage of a file. *)
Definition passage (source text : string) : Document :=
  {| page_content := py text; metadata := {[ "source"%string := py source ]} |}.

(** Eighteen ranked passages, fifteen of [a.pdf] and three of [b.pdf]. *)
Definition ranked_15_3 : list Document :=
  [ passage "a.pdf" "A1"; passage "a.pdf" "A2"; passage "b.pdf" "B1";
    passage "a.pdf" "A3"; passage "a.pdf" "A4"; passage "a.pdf" "A5";
    passage "b.pdf" "B2"; passage "a.pdf" "A6"; passage "a.pdf" "A7";
    passage "a.pdf" "A8"; passage "a.pdf" "A9"; passage "a.pdf" "A10";
    passage "b.pdf" "B3"; passage "a.pdf" "A11"; passage "a.pdf" "A12";
    passage "a.pdf" "A13"; passage "a.pdf" "A14"; passage "a.pdf" "A15" ].

(** A session store and services around it: the world is the table
    [chat_messages], an insertion appends a row, the index answers by
    [index], the backend by [backend], and [json.loads] is [loads]. *)
Definition row_of (row : NewRow) : pydict :=
  {[ "session_id"%string := row_session_id row;
     "role"%string := row_role row;
     "message"%string := row_message row ]}.

Definition table_services (index : Retriever -> str -> list Document)
    (backend : Payload -> post_outcome) (loads : str -> option json)
    : Services (list pydict) :=
  {| open_vectorstore := fun _ w => (inr (), w);
     invoke := fun r q w => (inr (index r q), w);
     insert_message := fun row w => (inr (), w ++ [row_of row]);
     select_messages := fun sid w =>
       (inr (filter (fun m => opt_eqb (m !! "session_id"%string) sid = true) w), w);
     post := fun p w => (backend p, w);
     json_loads := loads |}.

(** The same services with a store that refuses every insertion. *)
Definition read_only_services (index : Retriever -> str -> list Document)
    (backend : Payload -> post_outcome) (loads : str -> option json)
    : Services (list pydict) :=
  {| open_vectorstore := fun _ w => (inr (), w);
     invoke := fun r q w => (inr (index r q), w);
     insert_message := fun _ w => (inl (ServiceError (py "insert failed")), w);
     select_messages := fun sid w =>
       (inr (filter (fun m => opt_eqb (m !! "session_id"%string) sid = true) w), w);
     post := fun p w => (backend p, w);
     json_loads := loads |}.

(** A backend reply carrying [text] as the content of its first choice. *)
Definition reply (text : str) : post_outcome :=
  PostJson (JObj [(py "choices",
    JArr [JObj [(py "message", JObj [(py "content", JStr text)])]])]).

(** A call that ended, with a value or with an exception. *)
Definition terminates {A} (o : outcome A) : Prop :=
  match o with OutOfFuel => False | _ => True end.

(** Closed comparisons of lengths, which [cbn] leaves alone. *)
Ltac eval_int_tests :=
  repeat match goal with
  | |- context [Z.ltb (Z.of_nat ?a) ?b] =>
      let v := eval vm_compute in (Z.ltb (Z.of_nat a) b) in
      change (Z.ltb (Z.of_nat a) b) with v
  | |- context [Z.geb (Z.of_nat ?a) ?b] =>
      let v := eval vm_compute in (Z.geb (Z.of_nat a) b) in
      change (Z.geb (Z.of_nat a) b) with v
  end.


(** The retriever, the rows and the calls of [query_docs]. *)
Definition retriever_for (session_id : str) (files : option (list str)) (k : Z)
    : Retriever :=
  {| collection_name := session_id; search_filter := scope_filter files;
     search_k := k |}.

Definition user_row (body : QueryRequest) : NewRow :=
  {| row_session_id := q_session_id body; row_role := py "user";
     row_message := q_query body; row_extra := [] |}.

Definition assistant_row (body : QueryRequest) (answer : str)
    (top_docs : list Document) : NewRow :=
  {| row_session_id := q_session_id body; row_role := py "assistant";
     row_message := answer;
     row_extra :=
       [(py "sources", list_of_set (source_of (py "Unknown File") <$> top_docs))] |}.

(** The three calls every run of [query_docs] starts with. *)
Definition query_calls (body : QueryRequest) : list event :=
  [ EvVectorStore (q_session_id body);
    EvInvoke (retriever_for (q_session_id body) (q_files body) TOP_K) (q_query body);
    EvInsert (user_row body) ].

(** The suggestions kept from the best-effort step: those it returned, or
    none when it raised. *)
Definition kept_suggestions (o : outcome (list str)) : list str :=
  match o with Ok s => s | _ => [] end.

(** The [try] block that ends the non-empty branch of [query_docs]. *)
Definition followup_suggestions {W} (svc : Services W) (body : QueryRequest)
    : M W (list str) :=
  bind (get_session_messages svc (q_session_id body) 6)
    (fun history =>
       generate_suggestions_from_retriever svc (q_session_id body)
         (Some (normalize_message <$> history)) (q_files body)).

(** A posted request is a suggestion request. *)
Definition suggestion_post (ev : event) : Prop :=
  match ev with
  | EvPost p => max_tokens p = 200 /\ temperature p = (7 # 10)%Q
  | _ => True
  end.

(** [logs P m]: from every state [m] ends, with a value or an exception,
    and every call it logs satisfies [P]. *)
Definition logs {W A} (P : event -> Prop) (m : M W A) : Prop :=
  forall w log, exists o w' evs,
    m (w, log) = (o, (w', log ++ evs)) /\ terminates o /\ Forall P evs.

(** The primary part of [query_docs] once the question is stored: nothing
    more for an empty retrieval, otherwise the completion of the answer
    and its insertion in the store. *)
Definition answer_step {W} (svc : Services W) (body : QueryRequest)
    (top_docs : list Document) : M W str :=
  match top_docs with
  | [] => ret FALLBACK_ANSWER
  | _ =>
      bind (chat_get_text svc GROQ_RAG_MODEL
              (build_strict_context_prompt (q_query body) (page_content <$> top_docs))
              2048 (1 # 10))
        (fun answer =>
           bind (call (EvInsert (assistant_row body answer top_docs))
                   (insert_message svc (assistant_row body answer top_docs)))
             (fun _ => ret answer))
  end.

(** The best-effort part of [query_docs]: the body of its [try]. *)
Definition suggestion_step {W} (svc : Services W) (body : QueryRequest)
    (top_docs : list Document) : M W (list str) :=
  match top_docs with
  | [] =>
      generate_suggestions_from_retriever svc (q_session_id body) (Some [])
        (q_files body)
  | _ => followup_suggestions svc body
  end.

(** The response of [query_docs] for an answer and the outcome of the
    best-effort part. *)
Definition response_of (body : QueryRequest) (top_docs : list Document)
    (answer : str) (o : outcome (list str)) : QueryResponse :=
  {| r_session_id := q_session_id body;
     r_query := q_query body;
     r_answer := answer;
     r_source_docs := list_of_set (source_of (py "Unknown File") <$> top_docs);
     r_suggestions := kept_suggestions o |}.

(** An index with no passage for the question of a request but two for
    the broad probe, and a backend whose reply has no list of choices. *)
Definition probe_only_index (r : Retriever) (query : str) : list Document :=
  if str_eqb query BROAD_PROBE
  then [passage "a.pdf" "cats are mammals"; passage "b.pdf" "dogs are mammals"]
  else [].

Definition null_choices_backend (p : Payload) : post_outcome :=
  PostJson (JObj [(py "choices", JNull)]).

Definition no_json (s : str) : option json := None.

Definition example_request : QueryRequest :=
  {| q_session_id := py "s1"; q_query := py "what are mammals"; q_files := None |}.

(** An index holding one passage, and a backend that answers [reply]. *)
Definition one_passage_index (r : Retriever) (query : str) : list Document :=
  [passage "a.pdf" "cats are mammals"].

Definition fixed_backend (text : string) (p : Payload) : post_outcome :=
  reply (py text).

Definition example_mcq_request : MCQRequest :=
  {| m_session_id := py "s1"; m_num_questions := 3; m_files := None |}.

Definition empty_index (r : Retriever) (query : str) : list Document := [].

(** Services whose index holds one passage and whose backend always
    answers the same sentence. *)
Definition answering_services : Services (list pydict) :=
  table_services one_passage_index (fixed_backend "Cats are mammals.") no_json.

(** The items [MCQItem] accepts: an object whose [question] and
    [correct_answer], when present, are strings and whose [choices], when
    present, is an object of strings. *)
Definition is_str (v : json) : bool :=
  match v with JStr _ => true | _ => false end.

Definition is_str_dict (v : json) : bool :=
  match v with
  | JObj fields => forallb (fun kv => is_str kv.2) fields
  | _ => false
  end.

Definition field_ok (ok : json -> bool) (k : str) (fields : list (str * json)) : bool :=
  match assoc_get k fields with Some v => ok v | None => true end.

Definition well_typed_item (item : json) : bool :=
  match item with
  | JObj fields =>
      field_ok is_str (py "question") fields
      && field_ok is_str_dict (py "choices") fields
      && field_ok is_str (py "correct_answer") fields
  | _ => false
  end.

(** The fields of such an item, an absent one being empty. *)
Definition text_field (k : str) (fields : list (str * json)) : str :=
  match assoc_get k fields with Some (JStr s) => s | _ => [] end.

Definition choices_field (fields : list (str * json)) : list (str * str) :=
  match assoc_get (py "choices") fields with
  | Some (JObj kv) =>
      omap (fun kv => match kv.2 with JStr s => Some (kv.1, s) | _ => None end) kv
  | _ => []
  end.

Definition item_with_defaults (item : json) : MCQItem :=
  match item with
  | JObj fields =>
      {| question := text_field (py "question") fields;
         choices := choices_field fields;
         correct_answer := text_field (py "correct_answer") fields |}
  | _ => {| question := []; choices := []; correct_answer := [] |}
  end.

Definition is_array (v : json) : bool :=
  match v with JArr _ => true | _ => false end.

(** A store of two exchanges in the order they were written, and the
    rows of a session holding them. *)
Definition stored (session_id role_ message : str) : pydict :=
  {[ "session_id"%string := session_id;
     "role"%string := role_;
     "message"%string := message ]}.

Definition two_exchanges (session_id q1 a1 q2 a2 : str) : list pydict :=
  [ stored session_id (py "user") q1; stored session_id (py "assistant") a1;
    stored session_id (py "user") q2; stored session_id (py "assistant") a2 ].

(** The text after the first newline, empty when there is none. *)
Fixpoint after_newline (s : str) : str :=
  match s with
  | [] => []
  | c :: t => if char_eqb c 10%N then t else after_newline t
  end.

(** A character that does not occur in a literal. *)
Ltac not_in_literal :=
  let H := fresh in
  intros H; vm_compute in H;
  repeat (apply elem_of_cons in H; destruct H as [H|H]; [discriminate|]);
  inversion H.

(** A normalized message, and the history of a list of turns written
    oldest first: each question followed by its answer. *)
Definition chat_entry (role_ text : str) : pydict :=
  {[ "role"%string := role_; "content"%string := text ]}.

Definition turns_history (turns : list (str * str)) : list pydict :=
  flat_map (fun turn => [chat_entry (py "user") turn.1;
                         chat_entry (py "assistant") turn.2]) turns.

(** [msg.get('role') == r] *)
Definition has_role (r : str) (msg : pydict) : bool :=
  opt_eqb (msg !! "role"%string) r.

(** The passages held by the queues, in the order of the dictionary. *)
Definition queued (d : list (str * list str)) : list str := concat d.*2.

(** The queues the balancing loop starts from: the passages of each
    source, at most [max_chunks_per_file] of them. *)
Definition capped_queues (top_docs : list Document) : list (str * list str) :=
  cap_per_source (group_by_source (py "Unknown File") page_content top_docs).

(** Whether the decoded body is an object whose [choices] is [None], a
    boolean or a number: what [choices[0]] cannot subscript. *)
Definition choices_not_subscriptable (data : json) : bool :=
  match data with
  | JObj fields =>
      match assoc_get (py "choices") fields with
      | Some JNull | Some (JBool _) | Some (JNum _) => true
      | _ => false
      end
  | _ => false
  end.

Definition transport_error_text (e : str) : str :=
  py "Error: Could not get response from Groq. " ++ e.




(** The two calls every run of [generate_mcq] starts with. *)
Definition quiz_calls (body : MCQRequest) : list event :=
  [ EvVectorStore (m_session_id body);
    EvInvoke (retriever_for (m_session_id body) (m_files body) TOP_K) MCQ_PROBE ].

(** Services whose index cannot be queried, and a backend that cannot be
    reached. *)
Definition unreachable_index_services : Services (list pydict) :=
  {| open_vectorstore := fun _ w => (inr (), w);
     invoke := fun _ _ w => (inl (ServiceError (py "index unreachable")), w);
     insert_message := fun row w => (inr (), w ++ [row_of row]);
     select_messages := fun sid w => (inr w, w);
     post := fun p w => (PostFails (py "timed out"), w);
     json_loads := no_json |}.

Definition unreachable_backend (p : Payload) : post_outcome :=
  PostFails (py "timed out").

(** The request [query_docs] posts for the answer. *)
Definition answer_payload (body : QueryRequest) (top_docs : list Document) : Payload :=
  {| model := GROQ_RAG_MODEL;
     messages := build_strict_context_prompt (q_query body) (page_content <$> top_docs);
     max_tokens := 2048; temperature := (1 # 10)%Q |}.

(** [a] occurs in [b] as a run of consecutive characters. *)
Definition occurs_in (a b : str) : Prop := exists pre suf, b = pre ++ a ++ suf.

(** ** [app/services/guardrails.py] and [app/utils/extractor.py] *)

(** [s.rsplit(sep, 1)[-1]] *)
Definition rsplit1_last (sep s : str) : str :=
  match rfind_sub sep s with
  | Some i => drop (i + length sep) s
  | None => s
  end.

Definition ALLOWED_EXT : list str := [py ".pdf"; py ".docx"; py ".txt"].
Definition MAX_FILE_SIZE_MB : Z := 20.

Section Files.

(** [str.lower], and the text of [f"{size_mb:.2f}"] for a file of the
    given number of bytes; nothing is assumed about them. *)
Context (lower : str -> str) (format_mb : nat -> str).

(** [validate_file].  [len(file_bytes) / (1024 * 1024)] is compared with
    the limit on the integers: the division by a power of two is exact. *)
Definition validate_file (filename : str) (file_bytes : list Byte.byte) : bool * str :=
  let ext := py "." ++ rsplit1_last (py ".") (lower filename) in
  if negb (existsb (str_eqb ext) ALLOWED_EXT)
  then (false, py "File type not allowed.")
  else
    if Z.of_nat (length file_bytes) >? MAX_FILE_SIZE_MB * (1024 * 1024)
    then (false, py "File too large (" ++ format_mb (length file_bytes) ++ py " MB).")
    else (true, []).

(** [extract_txt], [extract_pdf], [extract_docx]: the decoding of a text
    file and the libraries that read the two other formats. *)
Context (extract_txt extract_pdf extract_docx : list Byte.byte -> exn + str).

(** [extract_text_by_extension] *)
Definition extract_text_by_extension (filename : str) (file_bytes : list Byte.byte)
    : exn + str :=
  let ext := rsplit1_last (py ".") (lower filename) in
  if str_eqb ext (py "txt") then extract_txt file_bytes
  else if str_eqb ext (py "pdf") then extract_pdf file_bytes
  else if str_eqb ext (py "docx") then extract_docx file_bytes
  else inl (ValueError (py "Unsupported file type: " ++ ext)).

End Files.

(** ** [app/services/ingest.py] *)

(** An entry of [ingestion_summary]: [{"chunks": n, "status": "success"}],
    [{"chunks": 0, "status": "skipped"}] or
    [{"chunks": 0, "status": "failed", "error": str(e)}]. *)
Inductive ingest_entry :=
| Ingested (chunks : nat)
| IngestSkipped
| IngestFailed (error : exn).

Section Ingest.
Context {W : Type}.

(** What [ingest_documents] calls outside the process:
    - [open_ingest_store]: the embedding service and
      [get_qdrant_vectorstore], before the first [try];
    - [ensure_source_index]: the body of the first [try] (the payload
      index and its check);
    - [split_text]: the splitter of [chunk_text];
    - [add_texts]: [vect.add_texts(texts, metadatas)];
    - [verify_ingestion]: the body of the last [try]. *)
Record IngestServices := {
  open_ingest_store : str -> W -> (exn + ()) * W;
  ensure_source_index : str -> W -> (exn + ()) * W;
  split_text : str -> exn + list str;
  add_texts : str -> list str -> list pydict -> W -> (exn + ()) * W;
  verify_ingestion : str -> W -> (exn + ()) * W
}.

Context (isvc : IngestServices).

(** A call to a service that the log of the question answering calls
    does not record. *)
Definition perform {A} (f : W -> (exn + A) * W) : M W A :=
  fun '(w, log) => let '(r, w') := f w in (outcome_of r, (w', log)).

(** The body of [for filename, text in docs.items()], with its [try]. *)
Definition ingest_file (session_id filename text : str) : M W ingest_entry :=
  try_except
    (chunks <- lift (outcome_of (split_text isvc text)) ;;
     let num_chunks := length chunks in
     if Z.of_nat num_chunks =? 0 then ret IngestSkipped
     else
       let metadatas := replicate num_chunks ({[ "source"%string := filename ]} : pydict) in
       perform (add_texts isvc session_id chunks metadatas) ;;;
       ret (Ingested num_chunks))
    (fun e => ret (IngestFailed e)).

Fixpoint ingest_files (session_id : str) (docs : list (str * str))
    (ingestion_summary : list (str * ingest_entry))
    : M W (list (str * ingest_entry)) :=
  match docs with
  | [] => ret ingestion_summary
  | (filename, text) :: rest =>
      entry <- ingest_file session_id filename text ;;
      ingest_files session_id rest (dict_set filename entry ingestion_summary)
  end.

(** [ingest_documents] *)
Definition ingest_documents (session_id : str) (docs : list (str * str))
    : M W (list (str * ingest_entry)) :=
  perform (open_ingest_store isvc session_id) ;;;
  try_except (perform (ensure_source_index isvc session_id)) (fun _ => ret ()) ;;;
  ingestion_summary <- ingest_files session_id docs [] ;;
  try_except (perform (verify_ingestion isvc session_id)) (fun _ => ret ()) ;;;
  ret ingestion_summary.

End Ingest.

Arguments IngestServices W : clear implicits.

(** ** [app/api/files.py] *)

(** An uploaded file: [f.filename] and the bytes [await f.read()] gives. *)
Record UploadFile := { uf_filename : str; uf_content : list Byte.byte }.

Record UploadResponse := { u_filename : str; u_status : str; u_message : str }.

Record FileUploadResult := {
  f_session_id : str;
  f_results : list UploadResponse;
  f_suggestions : list str
}.

Section Upload.
Context {W : Type}.

(** What the handlers of [files.py] use:
    - the services of the question answering handlers and of the ingestion;
    - [session_by_id]: [get_session_by_id], whose query asks for a single
      row ([.single().execute()]) and so raises when the session has none;
      otherwise the row it returns;
    - [insert_note]: the insertion of [save_chat_message] for a session,
      a role, a message and an [extra] dictionary of strings;
    - [insert_session_file]: the insertion of [add_session_file];
    - [delete_vectors]: [delete_documents_by_source];
    - [delete_session_file]: the deletion of [remove_session_file];
    - [lower], [format_mb] and the extractors, as above;
    - [describe]: the text of [f"{type(e).__name__}: {str(e)}"]. *)
Record UploadServices := {
  qa_services : Services W;
  ingest_services : IngestServices W;
  session_by_id : str -> W -> (exn + pydict) * W;
  insert_note : str -> str -> str -> list (str * str) -> W -> (exn + ()) * W;
  insert_session_file : str -> str -> W -> (exn + ()) * W;
  delete_vectors : str -> str -> W -> (exn + ()) * W;
  delete_session_file : str -> str -> W -> (exn + ()) * W;
  lower : str -> str;
  format_mb : nat -> str;
  extract_txt : list Byte.byte -> exn + str;
  extract_pdf : list Byte.byte -> exn + str;
  extract_docx : list Byte.byte -> exn + str;
  describe : exn -> str
}.

Context (usvc : UploadServices).

(** [not session] *)
Definition no_session (session : pydict) : bool := bool_decide (session = ∅).

Definition session_not_found (session_id : str) : exn :=
  HTTPException 404 (Detail (py "Session " ++ session_id ++ py " not found.")).

(** The body of [for f in files]. *)
Definition upload_file (session_id : str) (f : UploadFile)
    (results : list UploadResponse) (to_ingest : list (str * str))
    : M W (list UploadResponse * list (str * str)) :=
  let content := uf_content f in
  let '(ok, msg) :=
    validate_file (lower usvc) (format_mb usvc) (uf_filename f) content in
  if negb ok
  then ret (results ++ [{| u_filename := uf_filename f; u_status := py "rejected";
                           u_message := msg |}], to_ingest)
  else
    match extract_text_by_extension (lower usvc) (extract_txt usvc)
            (extract_pdf usvc) (extract_docx usvc) (uf_filename f) content with
    | inl e =>
        let err := py "Extraction failed: " ++ describe usvc e in
        ret (results ++ [{| u_filename := uf_filename f; u_status := py "rejected";
                            u_message := err |}], to_ingest)
    | inr text =>
        let to_ingest := dict_set (uf_filename f) text to_ingest in
        let results :=
          results ++ [{| u_filename := uf_filename f; u_status := py "accepted";
                         u_message := py "OK" |}] in
        perform (insert_note usvc session_id (py "system")
                   (py "Uploaded " ++ uf_filename f) [(py "status", py "accepted")]) ;;;
        perform (insert_session_file usvc session_id (uf_filename f)) ;;;
        ret (results, to_ingest)
    end.

Fixpoint upload_loop (session_id : str) (files : list UploadFile)
    (results : list UploadResponse) (to_ingest : list (str * str))
    : M W (list UploadResponse * list (str * str)) :=
  match files with
  | [] => ret (results, to_ingest)
  | f :: rest =>
      state <- upload_file session_id f results to_ingest ;;
      upload_loop session_id rest state.1 state.2
  end.

(** [upload_files] *)
Definition upload_files (session_id : str) (files : list UploadFile)
    : M W FileUploadResult :=
  session <- perform (session_by_id usvc session_id) ;;
  if no_session session then raise (session_not_found session_id)
  else
    state <- upload_loop session_id files [] [] ;;
    let results := state.1 in
    let to_ingest := state.2 in
    initial_suggestions <-
      match to_ingest with
      | [] => ret []
      | _ =>
          try_except
            (ingest_documents (ingest_services usvc) session_id to_ingest ;;;
             generate_suggestions_from_retriever (qa_services usvc) session_id
               None None)
            (fun _ => ret [])
      end ;;
    ret {| f_session_id := session_id; f_results := results;
           f_suggestions := initial_suggestions |}.

(** [delete_file]; the dictionary it returns is the pair of the session
    and the file name with the status ["deleted"]. *)
Definition delete_file (session_id filename : str) : M W (str * str * str) :=
  session <- perform (session_by_id usvc session_id) ;;
  if no_session session then raise (session_not_found session_id)
  else
    perform (delete_vectors usvc session_id filename) ;;;
    perform (delete_session_file usvc session_id filename) ;;;
    perform (insert_note usvc session_id (py "system")
               (py "Deleted " ++ filename) [(py "status", py "deleted")]) ;;;
    ret (session_id, filename, py "deleted").

End Upload.

Arguments UploadServices W : clear implicits.

(** Whether [upload_files] accepts a file: it passes [validate_file] and
    its text is extracted. *)
Definition accepted {W} (usvc : UploadServices W) (f : UploadFile) : bool :=
  (validate_file (lower usvc) (format_mb usvc) (uf_filename f) (uf_content f)).1
  && match extract_text_by_extension (lower usvc) (extract_txt usvc)
             (extract_pdf usvc) (extract_docx usvc) (uf_filename f) (uf_content f) with
     | inr _ => true
     | inl _ => false
     end.

(** How an entry of the summary fits what the splitter gave for the text:
    a failure of the splitter, no chunk, or chunks whose insertion may
    fail. *)
Definition entry_fits (chunks : exn + list str) (entry : ingest_entry) : Prop :=
  match chunks with
  | inl e => entry = IngestFailed e
  | inr [] => entry = IngestSkipped
  | inr chunks => entry = Ingested (length chunks) \/ exists e, entry = IngestFailed e
  end.

(** Upper-case ASCII letters to lower case, standing for [str.lower] on
    the names of the examples. *)
Definition ascii_lower (s : str) : str :=
  (fun c => if (65 <=? c)%N && (c <=? 90)%N then (c + 32)%N else c) <$> s.


(** Upload services over a world without state, with a single session
    ["s1"] and extractors that fail on every file. *)
Definition failing_extractor (file_bytes : list Byte.byte) : exn + str :=
  inl (ValueError (py "not readable")).

Definition example_upload_services : UploadServices () :=
  {| qa_services :=
       {| open_vectorstore := fun _ w => (inr (), w);
          invoke := fun _ _ w => (inr [], w);
          insert_message := fun _ w => (inr (), w);
          select_messages := fun _ w => (inr [], w);
          post := fun _ w => (PostFails (py "timed out"), w);
          json_loads := no_json |};
     ingest_services :=
       {| open_ingest_store := fun _ w => (inr (), w);
          ensure_source_index := fun _ w => (inr (), w);
          split_text := fun text => inr [text];
          add_texts := fun _ _ _ w => (inr (), w);
          verify_ingestion := fun _ w => (inr (), w) |};
     session_by_id := fun sid w =>
       (if str_eqb sid (py "s1")
        then inr ({[ "id"%string := sid ]} : pydict)
        else inl (ServiceError (py "no row for the session")), w);
     insert_note := fun _ _ _ _ w => (inr (), w);
     insert_session_file := fun _ _ w => (inr (), w);
     delete_vectors := fun _ _ w => (inr (), w);
     delete_session_file := fun _ _ w => (inr (), w);
     lower := ascii_lower;
     format_mb := fun _ => py "0.00";
     extract_txt := fun file_bytes => inr (py "text");
     extract_pdf := failing_extractor;
     extract_docx := failing_extractor;
     describe := fun _ => py "ValueError: not readable" |}.

Definition example_upload : list UploadFile :=
  [ {| uf_filename := py "Notes.TXT"; uf_content := [] |};
    {| uf_filename := py "scan.pdf"; uf_content := [] |};
    {| uf_filename := py "movie.mp4"; uf_content := [] |} ].

(** The result [upload_files] records for a file. *)
Definition recorded {W} (usvc : UploadServices W) (f : UploadFile)
    (res : UploadResponse) : Prop :=
  u_filename res = uf_filename f
  /\ u_status res = if accepted usvc f then py "accepted" else py "rejected".

(** For turns listed from the newest to the oldest: each question with the
    answer of the turn before it. *)
Fixpoint shifted_pairs (turns : list (str * str)) : list (str * str) :=
  match turns with
  | turn :: rest =>
      match rest with
      | before :: _ => (turn.1, before.2) :: shifted_pairs rest
      | [] => []
      end
  | [] => []
  end.

(** * Properties *)

(** ** Strings, slices and dictionaries *)

Lemma char_eqb_eq (a b : char) : char_eqb a b = true <-> a = b.
Proof. unfold char_eqb. apply N.eqb_eq. Qed.

Lemma str_eqb_eq (a b : str) : str_eqb a b = true <-> a = b.
Proof.
  revert b. induction a as [|x a IH]; intros [|y b]; simpl; try (split; congruence).
  rewrite andb_true_iff, char_eqb_eq, IH. split.
  - intros [-> ->]. reflexivity.
  - intros [= -> ->]. split; reflexivity.
Qed.

Lemma str_eqb_refl (a : str) : str_eqb a a = true.
Proof. apply str_eqb_eq. reflexivity. Qed.

Lemma str_eqb_neq (a b : str) : a <> b -> str_eqb a b = false.
Proof.
  intros Hne. destruct (str_eqb a b) eqn:E; [|reflexivity].
  apply str_eqb_eq in E. contradiction.
Qed.

Lemma slice_prefix {A} (n : Z) (l : list A) :
  0 <= n -> slice None (Some n) l = take (Z.to_nat n) l.
Proof.
  intros Hn. unfold slice, norm_index.
  destruct (n <? 0) eqn:E; [apply Z.ltb_lt in E; lia|].
  rewrite Z.sub_0_r, drop_0.
  destruct (Z.le_gt_cases n (Z.of_nat (length l))) as [Hle|Hgt].
  - rewrite Z.min_l by lia. reflexivity.
  - rewrite Z.min_r by lia. rewrite Nat2Z.id.
    rewrite !take_ge by lia. reflexivity.
Qed.

Lemma length_slice_prefix {A} (n : Z) (l : list A) :
  0 <= n -> Z.of_nat (length (slice None (Some n) l)) <= n.
Proof.
  intros Hn. rewrite slice_prefix by lia. rewrite length_take. lia.
Qed.

(** ** The suggestion response *)

Lemma collect_suggestions_spec (lines acc : list str) :
  collect_suggestions lines acc
  = acc ++ filter (fun l => l <> [])
             ((fun line => lstrip_chars enumeration_markers (strip line)) <$> lines).
Proof.
  revert acc. induction lines as [|line rest IH]; intros acc; simpl.
  - rewrite app_nil_r. reflexivity.
  - destruct (strip line) as [|c l] eqn:Es.
    + rewrite IH. rewrite filter_cons_False by (intros H; apply H; reflexivity).
      reflexivity.
    + destruct (lstrip_chars enumeration_markers (c :: l)) as [|d m] eqn:Ec.
      * rewrite IH. rewrite filter_cons_False by (intros H; apply H; reflexivity).
        reflexivity.
      * rewrite IH. rewrite filter_cons_True by discriminate.
        rewrite <- app_assoc. reflexivity.
Qed.

(** What [drop_while] leaves: the text after its longest prefix of
    characters that [p] accepts. *)
Lemma drop_while_stops (p : char -> bool) (s : str) :
  exists pre,
    s = pre ++ drop_while p s
    /\ Forall (fun c => p c = true) pre
    /\ stops p (drop_while p s).
Proof.
  induction s as [|c s (pre & E & Hp & Hs)]; simpl.
  - exists []. split; [reflexivity|]. split; [constructor|exact I].
  - destruct (p c) eqn:Hc.
    + exists (c :: pre). split; [simpl; rewrite <- E; reflexivity|].
      split; [constructor; assumption|exact Hs].
    + exists []. split; [reflexivity|]. split; [constructor|exact Hc].
Qed.

(** A text is cut in one way only into a prefix that [p] accepts and a
    rest that [p] stops. *)
Lemma span_unique (p : char -> bool) (a b a' b' : str) :
  a ++ b = a' ++ b' ->
  Forall (fun c => p c = true) a -> Forall (fun c => p c = true) a' ->
  stops p b -> stops p b' ->
  a = a' /\ b = b'.
Proof.
  revert a'. induction a as [|x a IH]; intros [|y a'] E Ha Ha' Hb Hb'; simpl in E.
  - split; [reflexivity|exact E].
  - subst b. apply Forall_cons in Ha'. destruct Ha' as [Hy _].
    simpl in Hb. congruence.
  - subst b'. apply Forall_cons in Ha. destruct Ha as [Hx _].
    simpl in Hb'. congruence.
  - injection E as -> E. apply Forall_cons in Ha. apply Forall_cons in Ha'.
    destruct Ha as [_ Ha]. destruct Ha' as [_ Ha'].
    destruct (IH a' E Ha Ha' Hb Hb') as [-> ->]. split; reflexivity.
Qed.

Lemma strip_trimmed (line : str) : trimmed_of line (strip line).
Proof.
  unfold strip, rstrip, lstrip.
  destruct (drop_while_stops isspace line) as (before & E1 & Hb & Hx).
  set (x := drop_while isspace line) in *.
  destruct (drop_while_stops isspace (rev x)) as (pre & E2 & Hp & Hy).
  set (y := drop_while isspace (rev x)) in *.
  assert (Ex : x = rev y ++ rev pre).
  { rewrite <- rev_app_distr, <- E2, rev_involutive. reflexivity. }
  exists before, (rev pre). split; [rewrite <- Ex; exact E1|].
  split; [exact Hb|]. split.
  { apply Forall_forall. intros c Hc. rewrite Forall_forall in Hp. apply Hp.
    apply list_elem_of_In. apply list_elem_of_In, in_rev in Hc. exact Hc. }
  split; [|rewrite rev_involutive; exact Hy].
  destruct (rev y) as [|c t] eqn:Er; [exact I|].
  rewrite Ex in Hx. exact Hx.
Qed.

Lemma trimmed_of_unique (line t t' : str) :
  trimmed_of line t -> trimmed_of line t' -> t = t'.
Proof.
  intros (b & a & E & Hb & Ha & Hh & Hl) (b' & a' & E' & Hb' & Ha' & Hh' & Hl').
  assert (Hspace : forall u v : str,
    Forall (fun c => isspace c = true) u -> Forall (fun c => isspace c = true) v ->
    forall c r pre post, u ++ v = pre ++ (c :: r) ++ post -> isspace c = true).
  { intros u v Hu Hv c r pre post Ec.
    assert (Hin : c ∈ u ++ v).
    { rewrite Ec. apply elem_of_app. right. apply elem_of_app. left.
      apply elem_of_cons. left. reflexivity. }
    apply elem_of_app in Hin. rewrite Forall_forall in Hu, Hv.
    destruct Hin as [Hin|Hin]; [apply Hu|apply Hv]; exact Hin. }
  destruct t as [|c r], t' as [|c' r']; [reflexivity| | |].
  - exfalso. simpl in Hh'. rewrite E in E'. simpl in E'.
    rewrite (Hspace b a Hb Ha c' r' b' a' E') in Hh'. discriminate.
  - exfalso. simpl in Hh. rewrite E' in E. simpl in E.
    rewrite (Hspace b' a' Hb' Ha' c r b a E) in Hh. discriminate.
  - rewrite E in E'.
    destruct (span_unique isspace b ((c :: r) ++ a) b' ((c' :: r') ++ a') E'
                Hb Hb' Hh Hh') as [_ E2].
    apply (f_equal (@rev _)) in E2. rewrite !rev_app_distr in E2.
    assert (Hra : Forall (fun c => isspace c = true) (rev a)).
    { apply Forall_forall. intros d Hd. rewrite Forall_forall in Ha. apply Ha.
      apply list_elem_of_In. apply list_elem_of_In, in_rev in Hd. exact Hd. }
    assert (Hra' : Forall (fun c => isspace c = true) (rev a')).
    { apply Forall_forall. intros d Hd. rewrite Forall_forall in Ha'. apply Ha'.
      apply list_elem_of_In. apply list_elem_of_In, in_rev in Hd. exact Hd. }
    destruct (span_unique isspace (rev a) (rev (c :: r)) (rev a') (rev (c' :: r'))
                E2 Hra Hra' Hl Hl') as [_ E3].
    apply (f_equal (@rev _)) in E3. rewrite !rev_involutive in E3. exact E3.
Qed.

Lemma cleaned_of_unique (line s s' : str) :
  cleaned_of line s -> cleaned_of line s' -> s = s'.
Proof.
  intros (t & m & Ht & E & Hm & Hs) (t' & m' & Ht' & E' & Hm' & Hs').
  rewrite (trimmed_of_unique line t t' Ht Ht') in E. rewrite E' in E.
  symmetry in E.
  destruct (span_unique is_marker m s m' s' E Hm Hm' Hs Hs') as [_ Es]. exact Es.
Qed.

Lemma cleaned_lines_unique (lines cleaned cleaned' : list str) :
  Forall2 cleaned_of lines cleaned -> Forall2 cleaned_of lines cleaned' ->
  cleaned' = cleaned.
Proof.
  revert cleaned cleaned'.
  induction lines as [|line lines IH]; intros cleaned cleaned' Hl H'.
  - inversion Hl. inversion H'. reflexivity.
  - inversion Hl as [|? x ? xs Hx Hxs]. inversion H' as [|? y ? ys Hy Hys].
    subst. rewrite (cleaned_of_unique line y x Hy Hx), (IH xs ys Hxs Hys).
    reflexivity.
Qed.

(** The characters of the literal ["0123456789.-•) \t"] are the markers. *)
Lemma mem_enumeration_markers (c : char) :
  mem_char c enumeration_markers = is_marker c.
Proof.
  unfold mem_char, is_marker. change enumeration_markers
    with [48; 49; 50; 51; 52; 53; 54; 55; 56; 57; 46; 45; 8226; 41; 32; 9]%N.
  cbn [existsb]. unfold char_eqb.
  apply eq_true_iff_eq.
  rewrite !orb_true_iff, !andb_true_iff, !N.eqb_eq, !N.leb_le.
  split; intros H; lia.
Qed.

Lemma clean_cleaned (line : str) :
  cleaned_of line (lstrip_chars enumeration_markers (strip line)).
Proof.
  unfold lstrip_chars.
  destruct (drop_while_stops (fun c => mem_char c enumeration_markers) (strip line))
    as (markers & E & Hm & Hs).
  exists (strip line), markers. split; [apply strip_trimmed|]. split; [exact E|].
  split.
  - apply Forall_forall. intros c Hc. rewrite Forall_forall in Hm.
    rewrite <- mem_enumeration_markers. apply Hm. exact Hc.
  - destruct (drop_while _ (strip line)) as [|c r]; [exact I|].
    simpl in Hs |- *. rewrite <- mem_enumeration_markers. exact Hs.
Qed.

(** An opening parenthesis is no marker, and a no-break space is white
    space but no marker: both stop the cleaning and are kept. *)
Example parse_suggestions_open_parenthesis :
  parse_suggestions (py "(1) What is A?") = [py "(1) What is A?"].
Proof. vm_compute. reflexivity. Qed.

Example parse_suggestions_no_break_space :
  parse_suggestions (py "1." ++ [160%N] ++ py "What is A?")
  = [[160%N] ++ py "What is A?"].
Proof. vm_compute. reflexivity. Qed.

(** C9, as stated: the markers stripped would include the parentheses and
    the white space.  They do not: a suggestion may begin with an opening
    parenthesis (or with a white-space character other than the space and
    the tab), which the cleaning leaves in place. *)
Lemma parse_suggestions_keeps_parenthesis :
  ~ (forall resp : str,
       Forall (fun s => forall c rest, s = c :: rest ->
                 c <> 40%N /\ c <> 41%N /\ isspace c = false)
         (parse_suggestions resp)).
Proof.
  intros H. specialize (H (py "(1) What is A?")).
  rewrite parse_suggestions_open_parenthesis in H.
  apply Forall_cons in H. destruct H as [H _].
  destruct (H 40%N (py "1) What is A?") eq_refl) as [Hc _].
  apply Hc. reflexivity.
Qed.

(** C9, amended. The suggestions returned for a response text are the
    first three (or fewer) non-empty cleaned lines of the text, in order.
    A line is cleaned by removing the white space at its two ends and
    then, at its start only, the markers: the digits, the period, the
    dash, the bullet, the closing parenthesis, the space and the tab
    (the characters of ["0123456789.-•) \t"]); any other character, an
    opening parenthesis for one, stops the removal and is kept.  A line
    that is empty before or after the cleaning is skipped, at most three
    suggestions are returned, and each begins with a character that is
    no marker. *)
Theorem parse_suggestions_first_three (resp : str) :
  exists cleaned,
    Forall2 cleaned_of (splitlines resp) cleaned
    /\ (forall cleaned', Forall2 cleaned_of (splitlines resp) cleaned' ->
          cleaned' = cleaned)
    /\ parse_suggestions resp = take 3 (filter (fun l => l <> []) cleaned)
    /\ (length (parse_suggestions resp) <= 3)%nat
    /\ Forall (fun s => s <> [] /\ stops is_marker s) (parse_suggestions resp).
Proof.
  set (clean := fun line => lstrip_chars enumeration_markers (strip line)).
  assert (Hc : Forall2 cleaned_of (splitlines resp) (clean <$> splitlines resp)).
  { induction (splitlines resp) as [|line lines IH]; constructor;
      [apply clean_cleaned|exact IH]. }
  assert (E : parse_suggestions resp
              = take 3 (filter (fun l => l <> []) (clean <$> splitlines resp))).
  { unfold parse_suggestions. rewrite collect_suggestions_spec. simpl.
    rewrite slice_prefix by lia. reflexivity. }
  exists (clean <$> splitlines resp). split; [exact Hc|]. split; [|split; [exact E|]].
  - intros cleaned' H'. exact (cleaned_lines_unique _ _ _ Hc H').
  - rewrite E. split.
    + rewrite length_take. lia.
    + apply Forall_take. apply Forall_forall. intros x Hx.
      apply list_elem_of_filter in Hx. destruct Hx as [Hne Hin].
      split; [exact Hne|].
      apply list_elem_of_fmap in Hin. destruct Hin as (line & -> & _).
      destruct (clean_cleaned line) as (t & m & _ & _ & _ & Hs). exact Hs.
Qed.

Example repair_example : repair example_response = py "[{...}]".
Proof. vm_compute. reflexivity. Qed.

Example parse_suggestions_example :
  parse_suggestions (py "1. What is A?" ++ NL ++ NL ++ py "2) Why B?" ++ NL
                     ++ py " - " ++ NL ++ BULLET ++ py " How C?" ++ NL ++ py "4. D?")
  = [py "What is A?"; py "Why B?"; py "How C?"].
Proof. vm_compute. reflexivity. Qed.

(** ** The retrieval scope *)


(** The retriever built for a session carries exactly that filter. *)
Lemma get_retriever_for_session_filter {W} (svc : Services W)
    session_id files k st r st' :
  get_retriever_for_session svc session_id files k st = (Ok r, st') ->
  r = {| collection_name := session_id; search_filter := scope_filter files;
         search_k := k |}.
Proof.
  unfold get_retriever_for_session, bind, call, ret. destruct st as [w log].
  destruct (open_vectorstore svc session_id w) as [[e|[]] w']; intros [= <- <-];
    reflexivity.
Qed.

(** ** The balanced contexts *)

Lemma cycle_next_two (A B : str) (pos : nat) :
  cycle_next [A; B] pos = Some (if Nat.even pos then A else B).
Proof.
  unfold cycle_next. simpl length.
  destruct (Nat.even pos) eqn:E.
  - apply Nat.even_spec in E. destruct E as [k ->].
    replace (2 * k)%nat with (k * 2)%nat by lia.
    rewrite Nat.Div0.mod_mul. reflexivity.
  - assert (Ho : Nat.odd pos = true) by (rewrite <- Nat.negb_even, E; reflexivity).
    apply Nat.odd_spec in Ho. destruct Ho as [k ->].
    replace (2 * k + 1)%nat with (1 + k * 2)%nat by lia.
    rewrite Nat.Div0.mod_add. reflexivity.
Qed.

(** C2. Fifteen passages of a source [A] and three of a source [B], grouped
    in this order, give the thirteen contexts
    [a1 b1 a2 b2 a3 b3 a4 ... a10]: each source is first cut to ten
    passages, then the sources are swept in turn, one passage each, until
    thirty passages are taken or no passage is left. *)
Theorem balanced_contexts_15_3
    (top_docs : list Document) (A B : str)
    (a1 a2 a3 a4 a5 a6 a7 a8 a9 a10 a11 a12 a13 a14 a15 b1 b2 b3 : str) :
  A <> B ->
  group_by_source (py "Unknown File") page_content top_docs
  = [ (A, [a1; a2; a3; a4; a5; a6; a7; a8; a9; a10; a11; a12; a13; a14; a15]);
      (B, [b1; b2; b3]) ] ->
  balanced_contexts top_docs
  = Ok [a1; b1; a2; b2; a3; b3; a4; a5; a6; a7; a8; a9; a10].
Proof.
  intros Hne Hgroup. unfold balanced_contexts. rewrite Hgroup.
  assert (Hab : str_eqb A B = false) by (apply str_eqb_neq; exact Hne).
  assert (Hba : str_eqb B A = false) by (apply str_eqb_neq; congruence).
  assert (Haa := str_eqb_refl A). assert (Hbb := str_eqb_refl B).
  replace (cap_per_source _) with
    [ (A, [a1; a2; a3; a4; a5; a6; a7; a8; a9; a10]); (B, [b1; b2; b3]) ]
    by (vm_compute; reflexivity).
  unfold round_robin.
  repeat (cbn; unfold max_total_chunks; rewrite ?Haa, ?Hab, ?Hba, ?Hbb;
          eval_int_tests).
  reflexivity.
Qed.

Lemma balanced_contexts_15_3_witness :
  balanced_contexts ranked_15_3
  = Ok [ py "A1"; py "B1"; py "A2"; py "B2"; py "A3"; py "B3"; py "A4";
         py "A5"; py "A6"; py "A7"; py "A8"; py "A9"; py "A10" ].
Proof.
  apply (balanced_contexts_15_3 ranked_15_3 (py "a.pdf") (py "b.pdf")
           (py "A1") (py "A2") (py "A3") (py "A4") (py "A5") (py "A6")
           (py "A7") (py "A8") (py "A9") (py "A10") (py "A11") (py "A12")
           (py "A13") (py "A14") (py "A15") (py "B1") (py "B2") (py "B3")).
  - vm_compute. discriminate.
  - vm_compute. reflexivity.
Defined.
(** ** Termination of the balancing loop *)

Lemma remaining_cons (k : str) (v : list str) (d : list (str * list str)) :
  remaining ((k, v) :: d) = (length v + remaining d)%nat.
Proof. reflexivity. Qed.

Lemma remaining_dict_set (d : list (str * list str)) (k : str) (x : str) (q : list str) :
  assoc_get k d = Some (x :: q) ->
  remaining d = S (remaining (dict_set k q d)).
Proof.
  induction d as [|[k' v'] d IH]; simpl; [discriminate|].
  destruct (str_eqb k k') eqn:E.
  - intros [= ->]. rewrite !remaining_cons. simpl. reflexivity.
  - intros H. rewrite !remaining_cons, (IH H). lia.
Qed.

Lemma default_assoc_get_cons (d : list (str * list str)) (k x : str) (q : list str) :
  default [] (assoc_get k d) = x :: q -> assoc_get k d = Some (x :: q).
Proof. destruct (assoc_get k d); simpl; congruence. Qed.

Lemma sweep_progress (n : nat) (keys : list str) (st : balance_state) :
  match sweep n keys st with
  | Ok st' =>
      (remaining (b_queues st') <= remaining (b_queues st))%nat
      /\ (b_added st' = true ->
          b_added st = true
          \/ (remaining (b_queues st') < remaining (b_queues st))%nat)
  | Raise _ => True
  | OutOfFuel => False
  end.
Proof.
  revert st. induction n as [|n IH]; intros st; simpl.
  - split; [lia|tauto].
  - destruct (cycle_next keys (b_pos st)) as [src|]; [|exact I].
    destruct (default [] (assoc_get src (b_queues st))) as [|x q] eqn:E.
    + specialize (IH {| b_pos := S (b_pos st); b_queues := b_queues st;
                        b_balanced := b_balanced st; b_added := b_added st |}).
      exact IH.
    + apply default_assoc_get_cons in E. apply remaining_dict_set in E.
      destruct (Z.of_nat (length (b_balanced st ++ [x])) >=? max_total_chunks).
      * simpl. split; [lia|]. intros _. right. lia.
      * specialize (IH {| b_pos := S (b_pos st);
                          b_queues := dict_set src q (b_queues st);
                          b_balanced := b_balanced st ++ [x]; b_added := true |}).
        destruct (sweep n keys _) as [st'| |]; [|exact I|exact IH].
        simpl in IH. destruct IH as [Hle _]. split; [lia|].
        intros _. right. lia.
Qed.

Lemma balance_loop_terminates (fuel : nat) (keys : list str) (st : balance_state) :
  ((if b_added st then remaining (b_queues st) + 2 else 1) <= fuel)%nat ->
  terminates (balance_loop fuel keys st).
Proof.
  revert st. induction fuel as [|fuel IH]; intros st Hfuel.
  - destruct (b_added st); lia.
  - simpl. destruct (b_added st && _) eqn:Hc; [|exact I].
    apply andb_true_iff in Hc. destruct Hc as [Ha _]. rewrite Ha in Hfuel.
    pose proof (sweep_progress (length (b_queues st)) keys
                  {| b_pos := b_pos st; b_queues := b_queues st;
                     b_balanced := b_balanced st; b_added := false |}) as Hs.
    destruct (sweep _ keys _) as [st'| |]; [|exact I|contradiction].
    simpl in Hs. destruct Hs as [Hle Hadd]. apply IH.
    destruct (b_added st') eqn:Ha'; [|lia].
    destruct (Hadd eq_refl) as [Hf|Hlt]; [discriminate|lia].
Qed.

Lemma balanced_contexts_terminates (top_docs : list Document) :
  terminates (balanced_contexts top_docs).
Proof.
  unfold balanced_contexts, round_robin. apply balance_loop_terminates.
  simpl. lia.
Qed.
(** ** The handlers *)

Section HandlerFacts.
Context {W : Type} (svc : Services W).

Lemma bind_ok {A B} (m : M W A) (f : A -> M W B) st a st' :
  m st = (Ok a, st') -> bind m f st = f a st'.
Proof. unfold bind. intros ->. reflexivity. Qed.

Lemma bind_raise {A B} (m : M W A) (f : A -> M W B) st e st' :
  m st = (Raise e, st') -> bind m f st = (Raise e, st').
Proof. unfold bind. intros ->. reflexivity. Qed.

Lemma get_retriever_ok session_id files k w log w1 :
  open_vectorstore svc session_id w = (inr (), w1) ->
  get_retriever_for_session svc session_id files k (w, log)
  = (Ok (retriever_for session_id files k),
     (w1, log ++ [EvVectorStore session_id])).
Proof.
  intros H. unfold get_retriever_for_session, bind, call. rewrite H.
  reflexivity.
Qed.

Lemma call_eq {A} ev (f : W -> (exn + A) * W) w log :
  call ev f (w, log) = (outcome_of (f w).1, ((f w).2, log ++ [ev])).
Proof. unfold call. destruct (f w). reflexivity. Qed.

Lemma logs_ret {A} P (a : A) : logs P (ret a : M W A).
Proof.
  intros w log. exists (Ok a), w, []. rewrite app_nil_r.
  split; [reflexivity|]. split; [exact I|constructor].
Qed.

Lemma logs_lift {A} P (o : outcome A) : terminates o -> logs P (lift o : M W A).
Proof.
  intros Ht w log. exists o, w, []. rewrite app_nil_r.
  split; [reflexivity|]. split; [exact Ht|constructor].
Qed.

Lemma logs_call {A} (P : event -> Prop) ev (f : W -> (exn + A) * W) :
  P ev -> logs P (call ev f).
Proof.
  intros HP w log. rewrite call_eq. eexists _, _, [ev].
  split; [reflexivity|]. split; [|repeat constructor; exact HP].
  destruct (f w).1; exact I.
Qed.

Lemma logs_bind {A B} P (m : M W A) (f : A -> M W B) :
  logs P m -> (forall a, logs P (f a)) -> logs P (bind m f).
Proof.
  intros Hm Hf w log. destruct (Hm w log) as (o & w1 & evs & E & Ht & HP).
  unfold bind. rewrite E. destruct o as [a|e|]; [| |contradiction].
  - destruct (Hf a w1 (log ++ evs)) as (o2 & w2 & evs2 & E2 & Ht2 & HP2).
    exists o2, w2, (evs ++ evs2). rewrite app_assoc.
    split; [exact E2|]. split; [exact Ht2|]. apply Forall_app. tauto.
  - exists (Raise e), w1, evs. split; [reflexivity|]. split; [exact I|exact HP].
Qed.

Lemma logs_try_except {A} P (m : M W A) (h : exn -> M W A) :
  logs P m -> (forall e, logs P (h e)) -> logs P (try_except m h).
Proof.
  intros Hm Hh w log. destruct (Hm w log) as (o & w1 & evs & E & Ht & HP).
  unfold try_except. rewrite E. destruct o as [a|e|]; [| |contradiction].
  - exists (Ok a), w1, evs. split; [reflexivity|]. split; [exact I|exact HP].
  - destruct (Hh e w1 (log ++ evs)) as (o2 & w2 & evs2 & E2 & Ht2 & HP2).
    exists o2, w2, (evs ++ evs2). rewrite app_assoc.
    split; [exact E2|]. split; [exact Ht2|]. apply Forall_app. tauto.
Qed.

Lemma logs_chat_get_text (P : event -> Prop) model_ messages_ max_tokens_ temperature_ :
  P (EvPost {| model := model_; messages := messages_;
               max_tokens := max_tokens_; temperature := temperature_ |}) ->
  logs P (chat_get_text svc model_ messages_ max_tokens_ temperature_).
Proof.
  intros HP w log. unfold chat_get_text.
  destruct (post svc _ w) as [[e|data] w'].
  - eexists _, _, [_]. split; [reflexivity|]. split; [exact I|].
    repeat constructor. exact HP.
  - destruct (extract_content data) as [[]|text];
      eexists _, _, [_]; (split; [reflexivity|]); (split; [exact I|]);
      repeat constructor; exact HP.
Qed.

Lemma logs_get_retriever (P : event -> Prop) session_id files k :
  P (EvVectorStore session_id) ->
  (forall r q, P (EvInvoke r q)) ->
  logs P (get_retriever_for_session svc session_id files k).
Proof.
  intros HP _. unfold get_retriever_for_session.
  apply logs_bind; [apply logs_call; exact HP|]. intros _. apply logs_ret.
Qed.

(** The suggestion step ends, and posts nothing but suggestion requests. *)
Lemma generate_suggestions_logs session_id history files :
  logs suggestion_post
    (generate_suggestions_from_retriever svc session_id history files).
Proof.
  unfold generate_suggestions_from_retriever.
  apply logs_bind; [apply logs_get_retriever; intros; exact I|].
  intros retriever. apply logs_bind; [apply logs_call; exact I|].
  intros [|d docs]; [apply logs_ret|].
  apply logs_bind.
  - destruct (is_initial history); [|apply logs_ret].
    apply logs_lift, balanced_contexts_terminates.
  - intros contexts. apply logs_bind; [|intros; apply logs_ret].
    apply logs_chat_get_text. split; reflexivity.
Qed.

Lemma followup_suggestions_logs body :
  logs suggestion_post (followup_suggestions svc body).
Proof.
  unfold followup_suggestions. apply logs_bind.
  - unfold get_session_messages. apply logs_bind; [apply logs_call; exact I|].
    intros rows. apply logs_ret.
  - intros history. apply generate_suggestions_logs.
Qed.

Lemma suggestion_step_logs body top_docs :
  logs suggestion_post (suggestion_step svc body top_docs).
Proof.
  destruct top_docs; [apply generate_suggestions_logs|apply followup_suggestions_logs].
Qed.

(** [query_docs] from the state reached once the question is stored:
    the primary part, then the best-effort part under [try]. *)
Lemma query_docs_after_question body w log w1 top_docs w2 w3 :
  open_vectorstore svc (q_session_id body) w = (inr (), w1) ->
  invoke svc (retriever_for (q_session_id body) (q_files body) TOP_K)
    (q_query body) w1 = (inr top_docs, w2) ->
  insert_message svc (user_row body) w2 = (inr (), w3) ->
  query_docs svc body (w, log)
  = match answer_step svc body top_docs (w3, log ++ query_calls body) with
    | (Ok answer, st5) =>
        let run := suggestion_step svc body top_docs st5 in
        match run.1 with
        | OutOfFuel => (OutOfFuel, run.2)
        | o => (Ok (response_of body top_docs answer o), run.2)
        end
    | (Raise e, st5) => (Raise e, st5)
    | (OutOfFuel, st5) => (OutOfFuel, st5)
    end.
Proof.
  intros H1 H2 H3. unfold query_docs.
  rewrite (bind_ok _ _ _ _ _ (get_retriever_ok _ _ _ _ _ _ H1)).
  unfold retriever_invoke. unfold bind at 1. rewrite call_eq.
  fold (retriever_for (q_session_id body) (q_files body) TOP_K).
  rewrite H2. cbn [fst snd outcome_of].
  unfold save_chat_message. simpl default. fold (user_row body).
  unfold bind at 1. rewrite call_eq. rewrite H3. cbn [fst snd outcome_of].
  rewrite <- !app_assoc. change ([EvVectorStore (q_session_id body)] ++ _)
    with (query_calls body).
  destruct top_docs as [|d docs].
  - unfold answer_step, ret at 2, suggestion_step, bind, try_except, ret.
    destruct (generate_suggestions_from_retriever _ _ _ _ _) as [[s|e|] st'];
      reflexivity.
  - unfold answer_step, suggestion_step, followup_suggestions, assistant_row.
    unfold bind, try_except, ret.
    destruct (chat_get_text svc _ _ _ _ _) as [[answer|e|] st4]; try reflexivity.
    destruct (call _ _ st4) as [[[]|e|] st5]; try reflexivity.
    cbn [fst snd].
    destruct (get_session_messages svc _ _ st5) as [[history|e|] st6];
      try reflexivity.
    destruct (generate_suggestions_from_retriever _ _ _ _ _) as [[s|e|] st'];
      reflexivity.
Qed.
End HandlerFacts.

(** ** The answer operation *)

(** The exceptions of the three first calls of [query_docs] are not
    caught. *)
Lemma query_docs_open_raises {W} (svc : Services W) (body : QueryRequest)
    (w : W) (log : list event) (e : exn) (w1 : W) :
  open_vectorstore svc (q_session_id body) w = (inl e, w1) ->
  query_docs svc body (w, log)
  = (Raise e, (w1, log ++ [EvVectorStore (q_session_id body)])).
Proof.
  intros H1. unfold query_docs, get_retriever_for_session, bind.
  rewrite call_eq, H1. reflexivity.
Qed.

Lemma query_docs_invoke_raises {W} (svc : Services W) (body : QueryRequest)
    (w : W) (log : list event) (w1 : W) (e : exn) (w2 : W) :
  open_vectorstore svc (q_session_id body) w = (inr (), w1) ->
  invoke svc (retriever_for (q_session_id body) (q_files body) TOP_K)
    (q_query body) w1 = (inl e, w2) ->
  query_docs svc body (w, log)
  = (Raise e,
     (w2, log ++ [ EvVectorStore (q_session_id body);
                   EvInvoke (retriever_for (q_session_id body) (q_files body) TOP_K)
                     (q_query body) ])).
Proof.
  intros H1 H2. unfold query_docs.
  rewrite (bind_ok _ _ _ _ _ (get_retriever_ok svc _ _ _ _ _ _ H1)).
  unfold retriever_invoke. unfold bind at 1. rewrite call_eq.
  fold (retriever_for (q_session_id body) (q_files body) TOP_K).
  rewrite H2. cbn [fst snd outcome_of]. rewrite <- app_assoc. reflexivity.
Qed.

Lemma query_docs_insert_raises {W} (svc : Services W) (body : QueryRequest)
    (w : W) (log : list event) (w1 : W) (top_docs : list Document) (w2 : W)
    (e : exn) (w3 : W) :
  open_vectorstore svc (q_session_id body) w = (inr (), w1) ->
  invoke svc (retriever_for (q_session_id body) (q_files body) TOP_K)
    (q_query body) w1 = (inr top_docs, w2) ->
  insert_message svc (user_row body) w2 = (inl e, w3) ->
  query_docs svc body (w, log) = (Raise e, (w3, log ++ query_calls body)).
Proof.
  intros H1 H2 H3. unfold query_docs.
  rewrite (bind_ok _ _ _ _ _ (get_retriever_ok svc _ _ _ _ _ _ H1)).
  unfold retriever_invoke. unfold bind at 1. rewrite call_eq.
  fold (retriever_for (q_session_id body) (q_files body) TOP_K).
  rewrite H2. cbn [fst snd outcome_of].
  unfold save_chat_message. simpl default. fold (user_row body).
  unfold bind at 1. rewrite call_eq, H3. cbn [fst snd outcome_of].
  rewrite <- !app_assoc. reflexivity.
Qed.

(** The primary part of [query_docs] ends: with the answer, or with the
    exception of the completion or of the store. *)
Lemma answer_step_terminates {W} (svc : Services W) (body : QueryRequest)
    (top_docs : list Document) (st : W * list event) :
  terminates (answer_step svc body top_docs st).1.
Proof.
  assert (H : logs (fun _ => True) (answer_step svc body top_docs)).
  { unfold answer_step. destruct top_docs as [|d docs]; [apply logs_ret|].
    apply logs_bind; [apply logs_chat_get_text; exact I|].
    intros answer. apply logs_bind; [apply logs_call; exact I|].
    intros _. apply logs_ret. }
  destruct st as [w log]. destruct (H w log) as (o & w' & evs & E & Ht & _).
  rewrite E. exact Ht.
Qed.

(** C8, as stated: an empty retrieval would be enough for the fallback
    response.  It is not: the question is saved before the retrieval is
    looked at and outside any [try], so with a store that refuses the
    insertion [query_docs] raises although nothing was retrieved. *)
Lemma query_docs_empty_retrieval_may_raise :
  ~ (forall (svc : Services (list pydict)) (body : QueryRequest)
            (w : list pydict) (log : list event) (w1 w2 : list pydict),
       open_vectorstore svc (q_session_id body) w = (inr (), w1) ->
       invoke svc (retriever_for (q_session_id body) (q_files body) TOP_K)
         (q_query body) w1 = (inr [], w2) ->
       exists suggestions st',
         query_docs svc body (w, log)
         = (Ok {| r_session_id := q_session_id body;
                  r_query := q_query body;
                  r_answer := FALLBACK_ANSWER;
                  r_source_docs := [];
                  r_suggestions := suggestions |}, st')).
Proof.
  intros H.
  destruct (H (read_only_services empty_index (fixed_backend "yes") no_json)
              example_request [] [] [] [] eq_refl eq_refl)
    as (suggestions & st' & E).
  vm_compute in E. discriminate E.
Qed.

(** C8, amended. When the retrieval of an answer request gives no passage
    and the question is then stored, [query_docs] returns the fixed
    fallback answer with no source and the suggestions of the best-effort
    step run on an empty history, none when that step raised; after its
    three first calls it makes no call but those of that step, which
    posts nothing but the suggestion request: the answer is not asked of
    the backend.  When the store refuses the question, its exception
    leaves [query_docs] and no response is returned. *)
Theorem query_docs_empty_retrieval {W} (svc : Services W) (body : QueryRequest)
    (w : W) (log : list event) (w1 w2 : W) :
  open_vectorstore svc (q_session_id body) w = (inr (), w1) ->
  invoke svc (retriever_for (q_session_id body) (q_files body) TOP_K)
    (q_query body) w1 = (inr [], w2) ->
  match insert_message svc (user_row body) w2 with
  | (inl e, w3) =>
      query_docs svc body (w, log) = (Raise e, (w3, log ++ query_calls body))
  | (inr _, w3) =>
      let run :=
        generate_suggestions_from_retriever svc (q_session_id body) (Some [])
          (q_files body) (w3, log ++ query_calls body) in
      query_docs svc body (w, log)
      = (Ok {| r_session_id := q_session_id body;
               r_query := q_query body;
               r_answer := FALLBACK_ANSWER;
               r_source_docs := [];
               r_suggestions := kept_suggestions run.1 |}, run.2)
      /\ exists w' evs,
           run.2 = (w', (log ++ query_calls body) ++ evs)
           /\ Forall suggestion_post evs
  end.
Proof.
  intros H1 H2.
  destruct (insert_message svc (user_row body) w2) as [[e|[]] w3] eqn:H3.
  - exact (query_docs_insert_raises svc body w log w1 [] w2 e w3 H1 H2 H3).
  - intros run.
    rewrite (query_docs_after_question svc body w log w1 [] w2 w3 H1 H2 H3).
    destruct (generate_suggestions_logs svc (q_session_id body) (Some [])
                (q_files body) w3 (log ++ query_calls body))
      as (o & w' & evs & E & Ht & HP).
    unfold answer_step, ret, suggestion_step. cbn [fst snd].
    subst run. rewrite E. cbn [fst snd]. split.
    + destruct o; [reflexivity|reflexivity|contradiction].
    + exists w', evs. split; [reflexivity|exact HP].
Qed.

Lemma query_docs_empty_retrieval_witness :
  query_docs (table_services probe_only_index null_choices_backend no_json)
    example_request ([], [])
  = (Ok {| r_session_id := py "s1";
           r_query := py "what are mammals";
           r_answer := FALLBACK_ANSWER;
           r_source_docs := [];
           r_suggestions := [] |},
     (generate_suggestions_from_retriever
        (table_services probe_only_index null_choices_backend no_json)
        (py "s1") (Some []) None
        ([row_of (user_row example_request)], query_calls example_request)).2).
Proof.
  exact (proj1 (query_docs_empty_retrieval
                  (table_services probe_only_index null_choices_backend no_json)
                  example_request [] [] [] [] eq_refl eq_refl)).
Defined.

(** With a store that refuses insertions the exception of
    [save_chat_message] leaves [query_docs]. *)
Example query_docs_store_failure :
  query_docs (read_only_services one_passage_index (fixed_backend "yes") no_json)
    example_request ([], [])
  = (Raise (ServiceError (py "insert failed")),
     ([], query_calls example_request)).
Proof. vm_compute. reflexivity. Qed.

(** C1, as stated: [query_docs] would return a response whatever the
    services do.  It does not: an exception of the store raised while the
    question is saved is not caught. *)
Lemma query_docs_may_raise :
  ~ (forall (svc : Services (list pydict)) (body : QueryRequest) st,
       exists resp st', query_docs svc body st = (Ok resp, st')).
Proof.
  intros H.
  destruct (H (read_only_services one_passage_index (fixed_backend "yes") no_json)
              example_request ([], [])) as (resp & st' & E).
  rewrite query_docs_store_failure in E. discriminate.
Qed.

(** C1, amended. [query_docs] runs its primary steps in order: opening
    the vector store, the retrieval, saving the question and, when
    passages were found, the completion of the answer and saving it.  An
    exception raised by one of these steps leaves [query_docs], with the
    calls made so far and no later one.  When none of them raises,
    [query_docs] returns a response: the best-effort suggestion step
    always ends, and when it raises the response carries no suggestion
    and the same answer and sources. *)
Theorem query_docs_returns {W} (svc : Services W) (body : QueryRequest)
    (w : W) (log : list event) :
  let retriever := retriever_for (q_session_id body) (q_files body) TOP_K in
  match open_vectorstore svc (q_session_id body) w with
  | (inl e, w1) =>
      query_docs svc body (w, log)
      = (Raise e, (w1, log ++ [EvVectorStore (q_session_id body)]))
  | (inr _, w1) =>
      match invoke svc retriever (q_query body) w1 with
      | (inl e, w2) =>
          query_docs svc body (w, log)
          = (Raise e, (w2, log ++ [ EvVectorStore (q_session_id body);
                                    EvInvoke retriever (q_query body) ]))
      | (inr top_docs, w2) =>
          match insert_message svc (user_row body) w2 with
          | (inl e, w3) =>
              query_docs svc body (w, log)
              = (Raise e, (w3, log ++ query_calls body))
          | (inr _, w3) =>
              match answer_step svc body top_docs (w3, log ++ query_calls body) with
              | (Raise e, st5) => query_docs svc body (w, log) = (Raise e, st5)
              | (OutOfFuel, _) => False
              | (Ok answer, st5) =>
                  let run := suggestion_step svc body top_docs st5 in
                  query_docs svc body (w, log)
                  = (Ok (response_of body top_docs answer run.1), run.2)
                  /\ terminates run.1
                  /\ (forall e, run.1 = Raise e ->
                        r_suggestions (response_of body top_docs answer run.1) = [])
              end
          end
      end
  end.
Proof.
  intros retriever.
  destruct (open_vectorstore svc (q_session_id body) w) as [[e|[]] w1] eqn:H1.
  { exact (query_docs_open_raises svc body w log e w1 H1). }
  destruct (invoke svc retriever (q_query body) w1) as [[e|top_docs] w2] eqn:H2.
  { exact (query_docs_invoke_raises svc body w log w1 e w2 H1 H2). }
  destruct (insert_message svc (user_row body) w2) as [[e|[]] w3] eqn:H3.
  { exact (query_docs_insert_raises svc body w log w1 top_docs w2 e w3 H1 H2 H3). }
  rewrite (query_docs_after_question svc body w log w1 top_docs w2 w3 H1 H2 H3).
  pose proof (answer_step_terminates svc body top_docs (w3, log ++ query_calls body))
    as Ha.
  destruct (answer_step svc body top_docs (w3, log ++ query_calls body))
    as [[answer|e|] st5]; [|reflexivity|exact Ha].
  intros run. cbn zeta. fold run.
  destruct st5 as [w5 log5].
  destruct (suggestion_step_logs svc body top_docs w5 log5)
    as (o & w' & evs & E & Ht & _).
  assert (Eo : run.1 = o) by (subst run; rewrite E; reflexivity).
  rewrite Eo. split; [|split].
  - destruct o; [reflexivity|reflexivity|contradiction].
  - exact Ht.
  - intros e ->. reflexivity.
Qed.

Lemma query_docs_returns_witness :
  (query_docs answering_services example_request ([], [])).1
  = Ok {| r_session_id := py "s1";
          r_query := py "what are mammals";
          r_answer := py "Cats are mammals.";
          r_source_docs := [py "a.pdf"];
          r_suggestions := [py "Cats are mammals."] |}.
Proof.
  pose proof (query_docs_returns answering_services example_request [] []) as H.
  hnf in H. destruct H as [E _].
  rewrite E. vm_compute. reflexivity.
Defined.

(** ** The quiz operation *)

(** C5. When the retrieval of a quiz request gives no passage,
    [generate_mcq] raises the HTTP error 404 "No documents found for MCQ
    generation"; it has then opened the vector store and queried it, and
    called nothing else: no request is posted to the backend. *)
Theorem generate_mcq_no_documents {W} (svc : Services W) (body : MCQRequest)
    (w : W) (log : list event) (w1 w2 : W) :
  open_vectorstore svc (m_session_id body) w = (inr (), w1) ->
  invoke svc (retriever_for (m_session_id body) (m_files body) TOP_K)
    MCQ_PROBE w1 = (inr [], w2) ->
  generate_mcq svc body (w, log)
  = (Raise (HTTPException 404 (Detail (py "No documents found for MCQ generation"))),
     (w2, log ++ [ EvVectorStore (m_session_id body);
                   EvInvoke (retriever_for (m_session_id body) (m_files body) TOP_K)
                     MCQ_PROBE ])).
Proof.
  intros H1 H2. unfold generate_mcq.
  rewrite (bind_ok _ _ _ _ _ (get_retriever_ok svc _ _ _ _ _ _ H1)).
  unfold retriever_invoke, bind. rewrite call_eq, H2. cbn [fst snd outcome_of].
  rewrite <- app_assoc. reflexivity.
Qed.

Lemma generate_mcq_no_documents_witness :
  generate_mcq (table_services empty_index (fixed_backend "[]") no_json)
    example_mcq_request ([], [])
  = (Raise (HTTPException 404 (Detail (py "No documents found for MCQ generation"))),
     ([], [ EvVectorStore (py "s1");
            EvInvoke (retriever_for (py "s1") None TOP_K) MCQ_PROBE ])).
Proof.
  exact (generate_mcq_no_documents
           (table_services empty_index (fixed_backend "[]") no_json)
           example_mcq_request [] [] [] [] eq_refl eq_refl).
Defined.
(** ** Parsing the quiz *)

Lemma as_str_dict_spec (fields : list (str * json)) :
  if forallb (fun kv => is_str kv.2) fields
  then as_str_dict fields
       = Some (omap (fun kv => match kv.2 with JStr s => Some (kv.1, s) | _ => None end)
                 fields)
  else as_str_dict fields = None.
Proof.
  induction fields as [|[k v] fields IH]; [reflexivity|].
  cbn [forallb as_str_dict snd fst].
  destruct v; cbn [is_str as_str andb]; try reflexivity.
  destruct (forallb _ fields).
  - rewrite IH. reflexivity.
  - rewrite IH. reflexivity.
Qed.

Lemma read_item_spec (item : json) :
  if well_typed_item item
  then read_item item = inr (item_with_defaults item)
  else exists e, read_item item = inl e /\ e <> JSONDecodeError.
Proof.
  destruct item as [| | | |items|fields]; cbn [well_typed_item];
    try (eexists; split; [reflexivity|discriminate]).
  unfold read_item, item_with_defaults, field_ok, text_field, choices_field,
    as_choices.
  destruct (assoc_get (py "question") fields) as [[| | |q| |]|];
    cbn [from_option id is_str andb as_str];
    try (eexists; split; [reflexivity|discriminate]);
    (destruct (assoc_get (py "choices") fields) as [[| | | | |kv]|];
     cbn [from_option id is_str_dict andb as_choices];
     try (eexists; split; [reflexivity|discriminate]);
     [ pose proof (as_str_dict_spec kv) as Hd;
       destruct (forallb _ kv); rewrite Hd;
       [|eexists; split; [reflexivity|discriminate]]
     | cbn [as_str_dict] ];
     destruct (assoc_get (py "correct_answer") fields) as [[| | |a| |]|];
     cbn [from_option id is_str as_str];
     try (eexists; split; [reflexivity|discriminate]); reflexivity).
Qed.

Lemma read_items_spec (items : list json) :
  if forallb well_typed_item items
  then read_items items = inr (item_with_defaults <$> items)
  else exists e, read_items items = inl e /\ e <> JSONDecodeError.
Proof.
  induction items as [|item items IH]; [reflexivity|].
  cbn [forallb read_items]. pose proof (read_item_spec item) as Hi.
  destruct (well_typed_item item); cbn [andb].
  - rewrite Hi. destruct (forallb well_typed_item items).
    + rewrite IH. reflexivity.
    + destruct IH as (e & -> & Hne). exists e. split; [reflexivity|exact Hne].
  - destruct Hi as (e & -> & Hne). exists e. split; [reflexivity|exact Hne].
Qed.

Lemma mcq_failure_other (e : exn) :
  e <> JSONDecodeError ->
  mcq_failure e = HTTPException 500 (DetailOf (py "Error generating MCQs: ") e).
Proof. destruct e; try reflexivity. intros H. contradiction. Qed.

(** An array holding one object whose question is a number: the [print]
    of the loop slices the number and the generic handler answers 500. *)
Example mcq_result_number_question :
  mcq_result (py "s1") 5 (Some (JArr [JObj [(py "question", JNum 7)]]))
  = Raise (HTTPException 500 (DetailOf (py "Error generating MCQs: ") TypeError)).
Proof. reflexivity. Qed.

(** An item without [choices] gets an empty mapping. *)
Example read_item_without_choices (q a : str) :
  read_item (JObj [(py "question", JStr q); (py "correct_answer", JStr a)])
  = inr {| question := q; choices := []; correct_answer := a |}.
Proof. reflexivity. Qed.

(** C6, as stated: an error would be surfaced exactly when the text does
    not parse or parses to something else than an array.  It is not so:
    an array of objects whose question is a number parses and is an
    array, and the error 500 is surfaced all the same. *)
Lemma mcq_error_not_only_parse_or_array :
  ~ (forall session_id count parsed,
       (exists e, mcq_result session_id count parsed = Raise e)
       <-> (parsed = None \/ exists v, parsed = Some v /\ is_array v = false)).
Proof.
  intros H.
  destruct (H (py "s1") 5 (Some (JArr [JObj [(py "question", JNum 7)]])))
    as [Hlr _].
  destruct Hlr as [E|(v & E & Hv)].
  - eexists. apply mcq_result_number_question.
  - discriminate E.
  - injection E as <-. discriminate Hv.
Qed.

(** C6, amended. After the repair, [generate_mcq] surfaces the error 500
    when the text does not parse, when it parses to something else than
    an array, and when one of the items taken, [mcqs_json[:count]], is not
    an object or holds a [question] or [correct_answer] that is not a
    string or [choices] that is not an object of strings.  Otherwise it
    returns one item per item taken, at most [count] of them when [count]
    is not negative, an absent field being read as the empty string or
    the empty mapping. *)
Theorem mcq_result_cases (session_id : str) (count : Z) (parsed : option json) :
  match parsed with
  | None =>
      mcq_result session_id count parsed
      = Raise (HTTPException 500
                 (DetailOf (py "Failed to parse MCQ response: ") JSONDecodeError))
  | Some (JArr items) =>
      if forallb well_typed_item (slice None (Some count) items)
      then
        mcq_result session_id count parsed
        = Ok {| l_session_id := session_id;
                l_query := py "Generate " ++ str_of_int count ++ py " MCQs";
                l_mcqs := item_with_defaults <$> slice None (Some count) items |}
        /\ (count < 0
            \/ Z.of_nat (length (item_with_defaults <$> slice None (Some count) items))
               <= count)
      else
        exists e,
          mcq_result session_id count parsed
          = Raise (HTTPException 500 (DetailOf (py "Error generating MCQs: ") e))
  | Some _ =>
      mcq_result session_id count parsed
      = Raise (HTTPException 500
                 (DetailOf (py "Error generating MCQs: ")
                    (ValueError (py "MCQ response is not a list"))))
  end.
Proof.
  destruct parsed as [[| | | |items|]|]; try reflexivity.
  unfold mcq_result, parse_mcqs.
  pose proof (read_items_spec (slice None (Some count) items)) as Hr.
  destruct (forallb well_typed_item _).
  - rewrite Hr. split; [reflexivity|].
    destruct (Z.lt_ge_cases count 0) as [Hneg|Hpos]; [left; exact Hneg|right].
    rewrite length_fmap. apply length_slice_prefix. lia.
  - destruct Hr as (e & -> & Hne). exists e.
    rewrite (mcq_failure_other e Hne). reflexivity.
Qed.
(** ** The count and the excerpts of a quiz *)

Lemma select_loop_length (fuel : nat) (keys : list str) (max_excerpts : Z)
    (pos : nat) (by_source : list (str * list str)) (selected sel : list str) :
  select_loop fuel keys max_excerpts pos by_source selected = Ok sel ->
  Z.of_nat (length sel) <= Z.max (Z.of_nat (length selected)) max_excerpts.
Proof.
  revert pos by_source selected.
  induction fuel as [|fuel IH]; intros pos by_source selected; simpl;
    [discriminate|].
  destruct (Z.of_nat (length selected) <? max_excerpts) eqn:Hlt; simpl.
  2: { intros [= <-]. lia. }
  destruct (bool_decide (by_source = [])); simpl.
  { intros [= <-]. lia. }
  destruct (cycle_next keys pos) as [source|]; [|discriminate].
  destruct (default [] (assoc_get source by_source)) as [|x q].
  - destruct (dict_del source by_source).
    + intros [= <-]. lia.
    + intros H. apply IH in H. exact H.
  - intros H. apply IH in H. rewrite length_app in H. simpl in H.
    apply Z.ltb_lt in Hlt. lia.
Qed.


Lemma read_items_length (items : list json) (mcqs : list MCQItem) :
  read_items items = inr mcqs -> length mcqs = length items.
Proof.
  revert mcqs. induction items as [|item items IH]; intros mcqs; simpl.
  - intros [= <-]. reflexivity.
  - destruct (read_item item); [discriminate|].
    destruct (read_items items); [discriminate|].
    intros [= <-]. simpl. rewrite (IH _ eq_refl). reflexivity.
Qed.

Lemma mcq_result_length (session_id : str) (count : Z) (parsed : option json)
    (resp : MCQListResponse) :
  0 <= count ->
  mcq_result session_id count parsed = Ok resp ->
  Z.of_nat (length (l_mcqs resp)) <= count
  /\ l_query resp = py "Generate " ++ str_of_int count ++ py " MCQs".
Proof.
  intros Hc. unfold mcq_result.
  destruct (parse_mcqs parsed count) as [e|mcqs] eqn:E; [discriminate|].
  intros [= <-]. simpl. split; [|reflexivity].
  unfold parse_mcqs in E. destruct parsed as [[| | | |items|]|]; try discriminate.
  apply read_items_length in E. rewrite E. apply length_slice_prefix. exact Hc.
Qed.


(** ** The conversation shown in the follow-up prompt *)

Lemma message_text_normalize_stored (session_id role_ message : str) :
  message_text (normalize_message (stored session_id role_ message)) = message.
Proof. destruct message; reflexivity. Qed.

Lemma role_normalize_stored (session_id role_ message : str) :
  normalize_message (stored session_id role_ message) !! "role"%string = Some role_.
Proof. reflexivity. Qed.

Lemma select_two_exchanges (index : Retriever -> str -> list Document)
    (backend : Payload -> post_outcome) (loads : str -> option json)
    (session_id q1 a1 q2 a2 : str) :
  select_messages (table_services index backend loads) session_id
    (two_exchanges session_id q1 a1 q2 a2)
  = (inr (two_exchanges session_id q1 a1 q2 a2),
     two_exchanges session_id q1 a1 q2 a2).
Proof.
  unfold table_services, two_exchanges. cbn [select_messages].
  assert (Hs : forall r m,
    opt_eqb (stored session_id r m !! "session_id"%string) session_id = true).
  { intros r m. unfold stored. rewrite lookup_insert_eq. apply str_eqb_refl. }
  rewrite !filter_cons_True by apply Hs. reflexivity.
Qed.

(** C4. With two exchanges [q1 a1 q2 a2] stored in this order, the history
    [query_docs] reads is newest first, [a2 q2 a1 q1], and the pairs
    [build_suggestion_prompt] extracts from it are the single pair
    [(q2, a1)]: the second question with the answer to the first one,
    not the turns [(q1, a1); (q2, a2)] from the oldest to the newest. *)
Theorem history_pairs_newest_first (index : Retriever -> str -> list Document)
    (backend : Payload -> post_outcome) (loads : str -> option json)
    (session_id q1 a1 q2 a2 : str) (log : list event) :
  let svc := table_services index backend loads in
  let store := two_exchanges session_id q1 a1 q2 a2 in
  exists history,
    get_session_messages svc session_id 6 (store, log)
    = (Ok history, (store, log ++ [EvSelect session_id 6]))
    /\ message_text <$> (normalize_message <$> history) = [a2; q2; a1; q1]
    /\ conversation_pairs (normalize_message <$> history) = [(q2, a1)].
Proof.
  intros svc store. exists (reverse store). split; [|split].
  - unfold get_session_messages, bind, call, ret, svc, store.
    rewrite select_two_exchanges. reflexivity.
  - unfold store, two_exchanges. cbn [reverse rev_append fmap list_fmap].
    rewrite !message_text_normalize_stored. reflexivity.
  - unfold store, two_exchanges.
    cbn [reverse rev_append fmap list_fmap conversation_pairs].
    rewrite !role_normalize_stored, !message_text_normalize_stored.
    reflexivity.
Qed.

(** ** The repair of the quiz response *)

Lemma drop_while_app_stop (p : char -> bool) (X : str) (c : char) (R : str) :
  p c = false -> drop_while p (X ++ c :: R) = drop_while p X ++ c :: R.
Proof.
  intros Hc. induction X as [|x X IH]; simpl.
  - rewrite Hc. reflexivity.
  - destruct (p x); [exact IH|reflexivity].
Qed.

Lemma drop_while_suffix (p : char -> bool) (s : str) :
  exists pre, s = pre ++ drop_while p s.
Proof.
  induction s as [|c s [pre IH]]; simpl.
  - exists []. reflexivity.
  - destruct (p c).
    + exists (c :: pre). simpl. rewrite <- IH. reflexivity.
    + exists []. reflexivity.
Qed.

Lemma lstrip_app_stop (X : str) (c : char) (R : str) :
  isspace c = false -> lstrip (X ++ c :: R) = lstrip X ++ c :: R.
Proof. apply drop_while_app_stop. Qed.

Lemma rstrip_app_stop (L : str) (c : char) (Y : str) :
  isspace c = false -> rstrip (L ++ c :: Y) = L ++ c :: rstrip Y.
Proof.
  intros Hc. unfold rstrip. rewrite rev_app_distr. simpl rev.
  rewrite <- app_assoc. simpl app.
  rewrite (drop_while_app_stop isspace (rev Y) c (rev L) Hc).
  rewrite rev_app_distr. simpl rev. rewrite rev_involutive.
  rewrite <- app_assoc. reflexivity.
Qed.



(** [strip] leaves alone what lies between two characters that are not
    white space. *)
Lemma strip_between (X : str) (a : char) (B : str) (b : char) (Y : str) :
  isspace a = false -> isspace b = false ->
  strip (X ++ a :: B ++ b :: Y) = lstrip X ++ a :: B ++ b :: rstrip Y.
Proof.
  intros Ha Hb. unfold strip. rewrite (lstrip_app_stop X a _ Ha).
  replace (lstrip X ++ a :: B ++ b :: Y) with ((lstrip X ++ a :: B) ++ b :: Y)
    by (rewrite <- app_assoc; reflexivity).
  rewrite (rstrip_app_stop _ b Y Hb). rewrite <- app_assoc. reflexivity.
Qed.

Lemma split_from_cons (cur s : str) :
  exists first rest, split_from 10%N cur s = first :: rest.
Proof.
  revert cur. induction s as [|c s IH]; intros cur; simpl.
  - eauto.
  - destruct (char_eqb c 10%N); [eauto|apply IH].
Qed.

Lemma join_split_from (cur s : str) :
  join NL (split_from 10%N cur s) = rev cur ++ s.
Proof.
  revert cur. induction s as [|c s IH]; intros cur; simpl.
  - rewrite app_nil_r. reflexivity.
  - destruct (char_eqb c 10%N) eqn:E.
    + apply char_eqb_eq in E. subst c.
      destruct (split_from_cons [] s) as (first & rest & Es).
      pose proof (IH []) as IH0. rewrite Es in IH0 |- *.
      change (join NL (rev cur :: first :: rest))
        with (rev cur ++ NL ++ join NL (first :: rest)).
      rewrite IH0. reflexivity.
    + rewrite IH. simpl. rewrite <- app_assoc. reflexivity.
Qed.

Lemma tail_split_from (cur s : str) :
  join NL (drop 1 (split_from 10%N cur s)) = after_newline s.
Proof.
  revert cur. induction s as [|c s IH]; intros cur; simpl.
  - reflexivity.
  - destruct (char_eqb c 10%N).
    + apply (join_split_from [] s).
    + apply IH.
Qed.

Lemma slice_from_one {A} (l : list A) : slice (Some 1) None l = drop 1 l.
Proof.
  unfold slice, norm_index. change (1 <? 0) with false. cbv iota.
  destruct l as [|x l]; [reflexivity|].
  rewrite Z.min_l by (simpl length; lia).
  change (Z.to_nat 1) with 1%nat. apply take_ge. rewrite length_drop.
  simpl length. lia.
Qed.

Lemma first_line_removed (s : str) :
  join NL (slice (Some 1) None (split 10%N s)) = after_newline s.
Proof. rewrite slice_from_one. apply tail_split_from. Qed.








Lemma find_sub_single (c : char) (X R : str) :
  c ∉ X -> find_sub [c] (X ++ c :: R) = Some (length X).
Proof.
  induction X as [|x X IH]; intros Hx.
  - change (find_sub [c] ([] ++ c :: R))
      with (if char_eqb c c && true then Some 0%nat
            else S <$> find_sub [c] R).
    rewrite (proj2 (char_eqb_eq c c) eq_refl). reflexivity.
  - apply not_elem_of_cons in Hx. destruct Hx as [Hc Hx].
    change (find_sub [c] ((x :: X) ++ c :: R))
      with (if char_eqb c x && true then Some 0%nat
            else S <$> find_sub [c] (X ++ c :: R)).
    destruct (char_eqb c x) eqn:E; [apply char_eqb_eq in E; congruence|].
    rewrite (IH Hx). reflexivity.
Qed.

Lemma rfind_sub_absent (c : char) (Y : str) : c ∉ Y -> rfind_sub [c] Y = None.
Proof.
  induction Y as [|y Y IH]; intros Hc; [reflexivity|].
  apply not_elem_of_cons in Hc. destruct Hc as [Hne Hc].
  change (rfind_sub [c] (y :: Y))
    with (match rfind_sub [c] Y with
          | Some i => Some (S i)
          | None => if char_eqb c y && true then Some 0%nat else None
          end).
  rewrite (IH Hc). destruct (char_eqb c y) eqn:E; [|reflexivity].
  apply char_eqb_eq in E. congruence.
Qed.

Lemma rfind_sub_single (c : char) (L Y : str) :
  c ∉ Y -> rfind_sub [c] (L ++ c :: Y) = Some (length L).
Proof.
  intros Hy. induction L as [|x L IH].
  - change (rfind_sub [c] ([] ++ c :: Y))
      with (match rfind_sub [c] Y with
            | Some i => Some (S i)
            | None => if char_eqb c c && true then Some 0%nat else None
            end).
    rewrite (rfind_sub_absent c Y Hy), (proj2 (char_eqb_eq c c) eq_refl).
    reflexivity.
  - change (rfind_sub [c] ((x :: L) ++ c :: Y))
      with (match rfind_sub [c] (L ++ c :: Y) with
            | Some i => Some (S i)
            | None => if startswith [c] ((x :: L) ++ c :: Y)
                      then Some 0%nat else None
            end).
    rewrite IH. reflexivity.
Qed.

Lemma find_bracket (X R : str) :
  91%N ∉ X -> find (py "[") (X ++ 91%N :: R) = Z.of_nat (length X).
Proof.
  intros Hx. unfold find. change (py "[") with [91%N].
  rewrite (find_sub_single 91%N X R Hx). reflexivity.
Qed.

Lemma rfind_bracket (L Y : str) :
  93%N ∉ Y -> rfind (py "]") (L ++ 93%N :: Y) = Z.of_nat (length L).
Proof.
  intros Hy. unfold rfind. change (py "]") with [93%N].
  rewrite (rfind_sub_single 93%N L Y Hy). reflexivity.
Qed.

Lemma slice_middle {A} (X M Y : list A) :
  slice (Some (Z.of_nat (length X))) (Some (Z.of_nat (length X + length M)))
    (X ++ M ++ Y) = M.
Proof.
  unfold slice, norm_index. rewrite !length_app.
  destruct (Z.of_nat (length X) <? 0) eqn:E1; [apply Z.ltb_lt in E1; lia|].
  destruct (Z.of_nat (length X + length M) <? 0) eqn:E2;
    [apply Z.ltb_lt in E2; lia|].
  rewrite !Z.min_l by lia.
  replace (Z.to_nat (Z.of_nat (length X + length M) - Z.of_nat (length X)))
    with (length M) by lia.
  rewrite Nat2Z.id, drop_app_length. apply take_app_length.
Qed.

(** The last step of the repair on a text of the form [X [ B ] Y]. *)
Lemma bracket_span (X B Y : str) :
  91%N ∉ X -> 93%N ∉ Y ->
  let s := X ++ 91%N :: B ++ 93%N :: Y in
  (if negb (find (py "[") s =? -1) && (rfind (py "]") s + 1 >? find (py "[") s)
   then slice (Some (find (py "[") s)) (Some (rfind (py "]") s + 1)) s
   else s)
  = 91%N :: B ++ [93%N].
Proof.
  intros Hx Hy s. subst s.
  rewrite (find_bracket X _ Hx).
  replace (X ++ 91%N :: B ++ 93%N :: Y) with ((X ++ 91%N :: B) ++ 93%N :: Y)
    by (rewrite <- app_assoc; reflexivity).
  rewrite (rfind_bracket _ Y Hy). rewrite length_app. simpl length.
  replace (negb (Z.of_nat (length X) =? -1)) with true
    by (symmetry; apply negb_true_iff, Z.eqb_neq; lia).
  replace (Z.of_nat (length X + S (length B)) + 1 >? Z.of_nat (length X)) with true
    by (symmetry; apply Z.gtb_lt; lia).
  simpl andb. cbv iota.
  replace (Z.of_nat (length X + S (length B)) + 1)
    with (Z.of_nat (length X + length (91%N :: B ++ [93%N])))
    by (simpl length; rewrite length_app; simpl length; lia).
  replace ((X ++ 91%N :: B) ++ 93%N :: Y) with (X ++ (91%N :: B ++ [93%N]) ++ Y)
    by (simpl; rewrite <- !app_assoc; reflexivity).
  apply slice_middle.
Qed.






(** ** More on the follow-up prompt *)

Lemma message_text_chat_entry (role_ text : str) :
  message_text (chat_entry role_ text) = text.
Proof. reflexivity. Qed.

Lemma role_chat_entry (role_ text : str) :
  chat_entry role_ text !! "role"%string = Some role_.
Proof. reflexivity. Qed.

(** X1. On a history written oldest first, each question followed by its
    answer, the pairing loop of [build_suggestion_prompt] recovers every
    turn, in order. *)
Theorem conversation_pairs_chronological (turns : list (str * str)) :
  conversation_pairs (turns_history turns) = turns.
Proof.
  induction turns as [|[q a] turns IH]; [reflexivity|].
  cbn [turns_history flat_map app fst snd conversation_pairs].
  rewrite !role_chat_entry, !message_text_chat_entry.
  change (opt_eqb (Some (py "user")) (py "user")) with true.
  change (opt_eqb (Some (py "assistant")) (py "assistant")) with true.
  cbn [andb]. fold (turns_history turns). rewrite IH. reflexivity.
Qed.

(** The pairs come from adjacent messages. *)
Lemma conversation_pairs_sound (n : nat) (history : list pydict) (q a : str) :
  (length history <= n)%nat ->
  (q, a) ∈ conversation_pairs history ->
  exists (i : nat) (m1 m2 : pydict),
    history !! i = Some m1 /\ history !! S i = Some m2
    /\ has_role (py "user") m1 = true /\ has_role (py "assistant") m2 = true
    /\ q = message_text m1 /\ a = message_text m2.
Proof.
  revert history. induction n as [|n IH]; intros history Hn Hin.
  - destruct history; [inversion Hin|simpl in Hn; lia].
  - destruct history as [|m1 [|m2 rest]]; [inversion Hin|inversion Hin|].
    cbn [conversation_pairs] in Hin.
    destruct (opt_eqb (m1 !! "role"%string) (py "user")
              && opt_eqb (m2 !! "role"%string) (py "assistant")) eqn:E.
    + apply andb_true_iff in E. destruct E as [E1 E2].
      apply elem_of_cons in Hin. destruct Hin as [[= -> ->]|Hin].
      * exists 0%nat, m1, m2. repeat split; assumption.
      * destruct (IH rest) as (i & x & y & H1 & H2 & H3); [simpl in Hn; lia|exact Hin|].
        exists (S (S i)), x, y. split; [exact H1|]. split; [exact H2|exact H3].
    + destruct (IH (m2 :: rest)) as (i & x & y & H1 & H2 & H3);
        [simpl in Hn |- *; lia|exact Hin|].
      exists (S i), x, y. split; [exact H1|]. split; [exact H2|exact H3].
Qed.

Lemma conversation_pairs_length (n : nat) (history : list pydict) :
  (length history <= n)%nat ->
  (2 * length (conversation_pairs history) <= length history)%nat.
Proof.
  revert history. induction n as [|n IH]; intros history Hn.
  - destruct history; [simpl; lia|simpl in Hn; lia].
  - destruct history as [|m1 [|m2 rest]]; [simpl; lia|simpl; lia|].
    cbn [conversation_pairs].
    destruct (opt_eqb (m1 !! "role"%string) (py "user")
              && opt_eqb (m2 !! "role"%string) (py "assistant")).
    + specialize (IH rest). simpl in Hn |- *. lia.
    + specialize (IH (m2 :: rest)). simpl in Hn, IH |- *. lia.
Qed.

(** X2. Every turn shown in the follow-up prompt is a message of role
    [user] immediately followed in the history by a message of role
    [assistant], and there are at most half as many turns as messages. *)
Theorem conversation_pairs_adjacent (history : list pydict) :
  (2 * length (conversation_pairs history) <= length history)%nat
  /\ Forall (fun turn =>
       exists (i : nat) (m1 m2 : pydict),
         history !! i = Some m1 /\ history !! S i = Some m2
         /\ has_role (py "user") m1 = true /\ has_role (py "assistant") m2 = true
         /\ turn.1 = message_text m1 /\ turn.2 = message_text m2)
       (conversation_pairs history).
Proof.
  split; [apply (conversation_pairs_length (length history)); lia|].
  apply Forall_forall. intros [q a] Hin.
  apply (conversation_pairs_sound (length history)); [lia|exact Hin].
Qed.

(** X3. An answer of at most 500 characters is shown whole; a longer one
    is cut to its first 500 characters followed by three dots, so that
    no answer takes more than 503 characters of the prompt. *)
Theorem shown_answer_bound (assistant_a : str) :
  shown_answer assistant_a
  = (if Z.of_nat (length assistant_a) <=? 500 then assistant_a
     else take 500 assistant_a ++ py "...")
  /\ (length (shown_answer assistant_a) <= 503)%nat.
Proof.
  unfold shown_answer. rewrite slice_prefix by lia.
  change (Z.to_nat 500) with 500%nat.
  destruct (Z.of_nat (length assistant_a) <=? 500) eqn:E.
  - apply Z.leb_le in E.
    replace (Z.of_nat (length assistant_a) >? 500) with false
      by (symmetry; rewrite Z.gtb_ltb; apply Z.ltb_ge; lia).
    rewrite app_nil_r, take_ge by lia. split; [reflexivity|lia].
  - apply Z.leb_gt in E.
    replace (Z.of_nat (length assistant_a) >? 500) with true
      by (symmetry; rewrite Z.gtb_ltb; apply Z.ltb_lt; lia).
    split; [reflexivity|]. rewrite length_app, length_take.
    change (length (py "...")) with 3%nat. lia.
Qed.

(** ** Dictionaries in insertion order *)

Lemma str_eqb_sym (a b : str) : str_eqb a b = str_eqb b a.
Proof.
  destruct (str_eqb a b) eqn:E, (str_eqb b a) eqn:F; try reflexivity.
  - apply str_eqb_eq in E. subst. rewrite str_eqb_refl in F. discriminate.
  - apply str_eqb_eq in F. subst. rewrite str_eqb_refl in E. discriminate.
Qed.

Lemma assoc_get_dict_set {V} (s k : str) (v : V) (d : list (str * V)) :
  assoc_get s (dict_set k v d) = if str_eqb s k then Some v else assoc_get s d.
Proof.
  induction d as [|[k' v'] d IH]; simpl.
  - destruct (str_eqb s k); reflexivity.
  - destruct (str_eqb k k') eqn:E; simpl.
    + apply str_eqb_eq in E. subst k'. destruct (str_eqb s k); reflexivity.
    + rewrite IH. destruct (str_eqb s k') eqn:F; [|reflexivity].
      apply str_eqb_eq in F. subst k'. rewrite str_eqb_sym, E. reflexivity.
Qed.

Lemma assoc_get_None {V} (k : str) (d : list (str * V)) :
  assoc_get k d = None <-> k ∉ d.*1.
Proof.
  induction d as [|[k' v'] d IH]; simpl.
  - split; [intros _; apply not_elem_of_nil|reflexivity].
  - rewrite not_elem_of_cons. destruct (str_eqb k k') eqn:E.
    + apply str_eqb_eq in E. split; [discriminate|tauto].
    + rewrite IH. split; [|tauto]. intros H. split; [|exact H].
      intros ->. rewrite str_eqb_refl in E. discriminate.
Qed.

Lemma assoc_get_is_Some {V} (k : str) (d : list (str * V)) :
  k ∈ d.*1 -> exists v, assoc_get k d = Some v.
Proof.
  intros Hin. destruct (assoc_get k d) as [v|] eqn:E; [exists v; reflexivity|].
  apply assoc_get_None in E. contradiction.
Qed.

Lemma keys_dict_set_present {V} (k : str) (v v0 : V) (d : list (str * V)) :
  assoc_get k d = Some v0 -> (dict_set k v d).*1 = d.*1.
Proof.
  induction d as [|[k' v'] d IH]; cbn [assoc_get dict_set]; [discriminate|].
  destruct (str_eqb k k') eqn:E; rewrite !fmap_cons; cbn [fst].
  - intros _. apply str_eqb_eq in E. subst. reflexivity.
  - intros H. rewrite (IH H). reflexivity.
Qed.

Lemma keys_dict_set_absent {V} (k : str) (v : V) (d : list (str * V)) :
  assoc_get k d = None -> (dict_set k v d).*1 = d.*1 ++ [k].
Proof.
  induction d as [|[k' v'] d IH]; cbn [assoc_get dict_set]; [reflexivity|].
  destruct (str_eqb k k') eqn:E; [discriminate|].
  rewrite !fmap_cons; cbn [fst]. intros H. rewrite (IH H). reflexivity.
Qed.

Lemma dict_del_absent {V} (k : str) (d : list (str * V)) :
  assoc_get k d = None -> dict_del k d = d.
Proof.
  induction d as [|[k' v'] d IH]; simpl; [reflexivity|].
  destruct (str_eqb k k'); [discriminate|]. intros H. rewrite (IH H). reflexivity.
Qed.

Lemma queued_cons (k : str) (v : list str) (d : list (str * list str)) :
  queued ((k, v) :: d) = v ++ queued d.
Proof. reflexivity. Qed.

Lemma queued_dict_set_pop (k x : str) (q : list str) (d : list (str * list str)) :
  assoc_get k d = Some (x :: q) -> queued d ≡ₚ x :: queued (dict_set k q d).
Proof.
  induction d as [|[k' v'] d IH]; simpl; [discriminate|].
  destruct (str_eqb k k') eqn:E.
  - intros [= ->]. rewrite !queued_cons. reflexivity.
  - intros H. rewrite !queued_cons, (IH H).
    symmetry. apply Permutation_middle.
Qed.

Lemma queued_dict_append (k v : str) (d : list (str * list str)) :
  queued (dict_append k v d) ≡ₚ queued d ++ [v].
Proof.
  unfold dict_append. induction d as [|[k' v'] d IH]; simpl.
  - reflexivity.
  - destruct (str_eqb k k') eqn:E; simpl.
    + rewrite !queued_cons. rewrite <- !app_assoc.
      apply Permutation_app_head, Permutation_app_comm.
    + rewrite !queued_cons, IH, app_assoc. reflexivity.
Qed.

Lemma queued_nil (d : list (str * list str)) :
  NoDup d.*1 ->
  (forall k, k ∈ d.*1 -> default [] (assoc_get k d) = []) ->
  queued d = [].
Proof.
  induction d as [|[k v] d IH]; [reflexivity|].
  rewrite fmap_cons. cbn [fst]. intros Hnd Hall.
  apply NoDup_cons in Hnd. destruct Hnd as [Hk Hnd].
  rewrite queued_cons.
  assert (Hv : v = []).
  { assert (Hin : k ∈ k :: d.*1) by (apply elem_of_cons; left; reflexivity).
    specialize (Hall k Hin). cbn [assoc_get] in Hall.
    rewrite str_eqb_refl in Hall. exact Hall. }
  rewrite Hv, IH; [reflexivity|exact Hnd|].
  intros k' Hin.
  assert (Hin' : k' ∈ k :: d.*1) by (apply elem_of_cons; right; exact Hin).
  specialize (Hall k' Hin'). cbn [assoc_get] in Hall. destruct (str_eqb k' k) eqn:E; [|exact Hall].
  apply str_eqb_eq in E. subst. contradiction.
Qed.

(** ** Grouping the passages by source *)

Section Grouping.
Context (dflt : str) (text : Document -> str).

Lemma group_lookup_acc (docs : list Document) (acc : list (str * list str)) (s : str) :
  default [] (assoc_get s
    (foldl (fun acc d => dict_append (source_of dflt d) (text d) acc) acc docs))
  = default [] (assoc_get s acc)
    ++ (text <$> filter (fun d => source_of dflt d = s) docs).
Proof.
  revert acc. induction docs as [|d docs IH]; intros acc; simpl.
  - rewrite app_nil_r. reflexivity.
  - rewrite IH. unfold dict_append at 1. rewrite assoc_get_dict_set.
    destruct (decide (source_of dflt d = s)) as [Heq|Hne].
    + rewrite filter_cons_True by exact Heq. rewrite <- Heq at 1.
      rewrite str_eqb_refl, Heq. simpl. rewrite <- app_assoc. reflexivity.
    + rewrite str_eqb_neq by congruence.
      rewrite filter_cons_False by exact Hne. reflexivity.
Qed.

Lemma group_keys_acc (docs : list Document) (acc : list (str * list str)) :
  NoDup acc.*1 ->
  let g := foldl (fun acc d => dict_append (source_of dflt d) (text d) acc) acc docs in
  NoDup g.*1
  /\ forall s, s ∈ g.*1 <-> s ∈ acc.*1 \/ s ∈ source_of dflt <$> docs.
Proof.
  revert acc. induction docs as [|d docs IH]; intros acc Hnd; simpl.
  - split; [exact Hnd|]. intros s. rewrite elem_of_nil. tauto.
  - set (acc' := dict_append (source_of dflt d) (text d) acc).
    assert (Hk : acc'.*1 = acc.*1 /\ source_of dflt d ∈ acc.*1
                 \/ acc'.*1 = acc.*1 ++ [source_of dflt d]
                    /\ source_of dflt d ∉ acc.*1).
    { unfold acc', dict_append.
      destruct (assoc_get (source_of dflt d) acc) as [v0|] eqn:E.
      - left. split; [exact (keys_dict_set_present _ _ _ _ E)|].
        destruct (decide (source_of dflt d ∈ acc.*1)) as [H|H]; [exact H|].
        apply assoc_get_None in H. congruence.
      - right. split; [exact (keys_dict_set_absent _ _ _ E)|].
        apply assoc_get_None. exact E. }
    assert (Hnd' : NoDup acc'.*1).
    { destruct Hk as [[-> _]|[-> Hout]]; [exact Hnd|].
      apply NoDup_app. split; [exact Hnd|]. split; [|apply NoDup_singleton].
      intros x Hx Hx'. apply list_elem_of_singleton in Hx'. subst. contradiction. }
    destruct (IH acc' Hnd') as [H1 H2]. split; [exact H1|].
    intros s. rewrite H2, elem_of_cons.
    destruct Hk as [[-> Hin]|[-> Hout]].
    + split; [tauto|]. intros [H|[->|H]]; tauto.
    + rewrite elem_of_app, list_elem_of_singleton. tauto.
Qed.

Lemma group_queued_acc (docs : list Document) (acc : list (str * list str)) :
  queued (foldl (fun acc d => dict_append (source_of dflt d) (text d) acc) acc docs)
  ≡ₚ queued acc ++ (text <$> docs).
Proof.
  revert acc. induction docs as [|d docs IH]; intros acc; simpl.
  - rewrite app_nil_r. reflexivity.
  - rewrite IH, queued_dict_append, <- app_assoc. reflexivity.
Qed.

(** X4. Grouping by source loses and reorders nothing within a source:
    the list kept under a source is the texts of the documents of that
    source (a document without a source counting for the default name),
    in the order of the retrieval; a name is a key exactly when some
    document has it as its source, and no key occurs twice. *)
Theorem group_by_source_spec (top_docs : list Document) :
  (forall s, default [] (assoc_get s (group_by_source dflt text top_docs))
             = text <$> filter (fun d => source_of dflt d = s) top_docs)
  /\ (forall s, s ∈ (group_by_source dflt text top_docs).*1
                <-> s ∈ source_of dflt <$> top_docs)
  /\ NoDup (group_by_source dflt text top_docs).*1.
Proof.
  unfold group_by_source. split; [|split].
  - intros s. rewrite group_lookup_acc. reflexivity.
  - intros s. destruct (group_keys_acc top_docs [] (NoDup_nil_2)) as [_ H].
    rewrite H. simpl. rewrite elem_of_nil. tauto.
  - apply (group_keys_acc top_docs []), NoDup_nil_2.
Qed.

End Grouping.

(** ** What the balancing loop selects *)

Lemma cycle_next_is_Some (keys : list str) (pos : nat) :
  keys <> [] -> exists k, cycle_next keys pos = Some k /\ k ∈ keys.
Proof.
  intros Hne. unfold cycle_next.
  assert (Hlt : (pos mod length keys < length keys)%nat).
  { apply Nat.mod_upper_bound. destruct keys; [congruence|simpl; lia]. }
  destruct (lookup_lt_is_Some_2 keys _ Hlt) as [k Hk].
  exists k. split; [exact Hk|]. apply list_elem_of_lookup. eexists. exact Hk.
Qed.

(** Every name comes up within one round of the cycle. *)
Lemma cycle_next_covers (keys : list str) (pos : nat) (k : str) :
  k ∈ keys ->
  exists i, (i < length keys)%nat /\ cycle_next keys (pos + i) = Some k.
Proof.
  intros Hin. apply list_elem_of_lookup in Hin. destruct Hin as [j Hj].
  assert (Hlt : (j < length keys)%nat) by (apply lookup_lt_is_Some; eauto).
  set (n := length keys) in *.
  exists ((j + n - pos mod n) mod n)%nat. split.
  - apply Nat.mod_upper_bound. lia.
  - unfold cycle_next. fold n.
    rewrite Nat.Div0.add_mod_idemp_r.
    rewrite <- Nat.Div0.add_mod_idemp_l.
    assert (Hp : (pos mod n < n)%nat) by (apply Nat.mod_upper_bound; lia).
    replace (pos mod n + (j + n - pos mod n))%nat with (j + 1 * n)%nat by lia.
    rewrite Nat.Div0.mod_add, Nat.mod_small by lia. exact Hj.
Qed.

Lemma sweep_spec (n : nat) (keys : list str) (st : balance_state) :
  (n <= length keys)%nat ->
  (b_queues st).*1 = keys ->
  Z.of_nat (length (b_balanced st)) < max_total_chunks ->
  exists st',
    sweep n keys st = Ok st'
    /\ (b_queues st').*1 = keys
    /\ Z.of_nat (length (b_balanced st')) <= max_total_chunks
    /\ b_balanced st' ++ queued (b_queues st')
       ≡ₚ b_balanced st ++ queued (b_queues st)
    /\ (b_added st = true -> b_added st' = true)
    /\ (b_added st' = false ->
        b_queues st' = b_queues st /\ b_balanced st' = b_balanced st
        /\ forall i, (i < n)%nat ->
             exists k, cycle_next keys (b_pos st + i) = Some k
                       /\ default [] (assoc_get k (b_queues st)) = []).
Proof.
  revert st. induction n as [|n IH]; intros st Hn Hkeys Hlen.
  - exists st. cbn [sweep]. split; [reflexivity|]. split; [exact Hkeys|].
    split; [lia|]. split; [reflexivity|]. split; [tauto|].
    intros _. split; [reflexivity|]. split; [reflexivity|]. intros i Hi. lia.
  - cbn [sweep].
    assert (Hne : keys <> []) by (destruct keys; [simpl in Hn; lia|discriminate]).
    destruct (cycle_next_is_Some keys (b_pos st) Hne) as (src & Hsrc & Hin).
    rewrite Hsrc.
    destruct (default [] (assoc_get src (b_queues st))) as [|x q] eqn:E.
    + destruct (IH {| b_pos := S (b_pos st); b_queues := b_queues st;
                      b_balanced := b_balanced st; b_added := b_added st |})
        as (st' & Hs & Hk & Hl & Hp & Ha & Hf); [lia|exact Hkeys|exact Hlen|].
      cbn [b_pos b_queues b_balanced b_added] in *.
      exists st'. split; [exact Hs|]. split; [exact Hk|]. split; [exact Hl|].
      split; [exact Hp|]. split; [exact Ha|].
      intros Hfalse. destruct (Hf Hfalse) as (Hq & Hb & Hall).
      split; [exact Hq|]. split; [exact Hb|].
      intros [|i] Hi.
      * exists src. rewrite Nat.add_0_r. split; [exact Hsrc|exact E].
      * destruct (Hall i) as (k & Hk1 & Hk2); [lia|].
        exists k. rewrite <- Nat.add_succ_comm. split; [exact Hk1|exact Hk2].
    + apply default_assoc_get_cons in E.
      pose proof (queued_dict_set_pop _ _ _ _ E) as Hperm.
      pose proof (keys_dict_set_present src q _ _ E) as Hsame.
      destruct (Z.of_nat (length (b_balanced st ++ [x])) >=? max_total_chunks) eqn:Hge.
      * eexists. split; [reflexivity|]. cbn [b_pos b_queues b_balanced b_added].
        split; [rewrite Hsame; exact Hkeys|].
        split; [rewrite length_app; simpl; lia|].
        split; [rewrite Hperm, <- app_assoc; reflexivity|].
        split; [reflexivity|]. discriminate.
      * destruct (IH {| b_pos := S (b_pos st);
                        b_queues := dict_set src q (b_queues st);
                        b_balanced := b_balanced st ++ [x]; b_added := true |})
          as (st' & Hs & Hk & Hl & Hp & Ha & Hf).
        { lia. }
        { cbn [b_queues]. rewrite Hsame. exact Hkeys. }
        { cbn [b_balanced]. rewrite Z.geb_leb in Hge. apply Z.leb_gt in Hge. lia. }
        cbn [b_pos b_queues b_balanced b_added] in *.
        exists st'. split; [exact Hs|]. split; [exact Hk|]. split; [exact Hl|].
        split.
        { rewrite Hp, Hperm, <- app_assoc. reflexivity. }
        split; [intros _; apply Ha; reflexivity|].
        intros Hfalse. rewrite (Ha eq_refl) in Hfalse. discriminate.
Qed.

Lemma balance_loop_spec (fuel : nat) (keys : list str) (st : balance_state) :
  NoDup keys ->
  (b_queues st).*1 = keys ->
  Z.of_nat (length (b_balanced st)) <= max_total_chunks ->
  (b_added st = false -> queued (b_queues st) = []) ->
  ((if b_added st then remaining (b_queues st) + 2 else 1) <= fuel)%nat ->
  exists l,
    balance_loop fuel keys st = Ok l
    /\ Z.of_nat (length l) <= max_total_chunks
    /\ l ⊆+ b_balanced st ++ queued (b_queues st)
    /\ (Z.of_nat (length l) = max_total_chunks
        \/ l ≡ₚ b_balanced st ++ queued (b_queues st)).
Proof.
  intros Hnd. revert st.
  induction fuel as [|fuel IH]; intros st Hkeys Hlen Hempty Hfuel.
  - destruct (b_added st); lia.
  - cbn [balance_loop].
    destruct (b_added st && (Z.of_nat (length (b_balanced st)) <? max_total_chunks))
      eqn:Hc.
    + apply andb_true_iff in Hc. destruct Hc as [Ha Hlt].
      apply Z.ltb_lt in Hlt. rewrite Ha in Hfuel.
      set (st0 := {| b_pos := b_pos st; b_queues := b_queues st;
                     b_balanced := b_balanced st; b_added := false |}).
      pose proof (sweep_progress (length (b_queues st)) keys st0) as Hprog.
      destruct (sweep_spec (length (b_queues st)) keys st0)
        as (st' & Hs & Hk & Hl & Hp & _ & Hf).
      { rewrite <- Hkeys, length_fmap. lia. }
      { exact Hkeys. }
      { exact Hlt. }
      rewrite Hs in Hprog |- *. cbn [b_queues b_balanced b_added b_pos st0] in *.
      destruct Hprog as [Hle Hadd].
      destruct (IH st') as (l & Hrun & Hl30 & Hsub & Hall).
      { exact Hk. }
      { exact Hl. }
      { intros Hfalse. destruct (Hf Hfalse) as (Hq & _ & Hvisited).
        rewrite Hq. apply queued_nil; [rewrite Hkeys; exact Hnd|].
        intros k Hin. rewrite Hkeys in Hin.
        destruct (cycle_next_covers keys (b_pos st) k Hin) as (i & Hi & Hci).
        destruct (Hvisited i) as (k' & Hk1 & Hk2).
        { rewrite <- Hkeys, length_fmap in Hi. exact Hi. }
        rewrite Hci in Hk1. injection Hk1 as <-. exact Hk2. }
      { destruct (b_added st') eqn:Ha'; [|lia].
        destruct (Hadd eq_refl) as [Hx|Hx]; [discriminate|lia]. }
      exists l. split; [exact Hrun|]. split; [exact Hl30|].
      rewrite <- Hp. split; [exact Hsub|exact Hall].
    + exists (b_balanced st). split; [reflexivity|]. split; [exact Hlen|].
      split; [apply submseteq_inserts_r; reflexivity|].
      apply andb_false_iff in Hc. destruct Hc as [Ha|Hge].
      * right. rewrite (Hempty Ha), app_nil_r. reflexivity.
      * left. apply Z.ltb_ge in Hge. lia.
Qed.

Lemma keys_cap_per_source (d : list (str * list str)) :
  (cap_per_source d).*1 = d.*1.
Proof.
  unfold cap_per_source. rewrite <- list_fmap_compose. reflexivity.
Qed.

Lemma queued_cap_per_source (d : list (str * list str)) :
  queued (cap_per_source d) ⊆+ queued d.
Proof.
  induction d as [|[k v] d IH]; [reflexivity|].
  unfold cap_per_source. rewrite fmap_cons. fold (cap_per_source d).
  cbn [fst snd]. rewrite !queued_cons.
  apply submseteq_app; [|exact IH].
  rewrite slice_prefix by (unfold max_chunks_per_file; lia).
  apply submseteq_take.
Qed.

(** X5. The balanced contexts of the initial suggestions are always
    computed: the loop ends without an exception, with at most thirty
    passages, all taken from the capped queues (so at most ten from any
    source); and unless thirty were taken, every passage of the capped
    queues is among them. *)
Theorem balanced_contexts_spec (top_docs : list Document) :
  exists l,
    balanced_contexts top_docs = Ok l
    /\ (length l <= 30)%nat
    /\ l ⊆+ queued (capped_queues top_docs)
    /\ (length l = 30%nat \/ l ≡ₚ queued (capped_queues top_docs)).
Proof.
  unfold balanced_contexts, round_robin. fold (capped_queues top_docs).
  destruct (balance_loop_spec (S (S (remaining (capped_queues top_docs))))
              (capped_queues top_docs).*1
              {| b_pos := O; b_queues := capped_queues top_docs;
                 b_balanced := []; b_added := true |})
    as (l & Hrun & Hlen & Hsub & Hall).
  - unfold capped_queues, group_by_source. rewrite keys_cap_per_source.
    apply (group_keys_acc (py "Unknown File") page_content top_docs []).
    apply NoDup_nil_2.
  - reflexivity.
  - simpl. unfold max_total_chunks. lia.
  - discriminate.
  - cbn [b_added b_queues]. lia.
  - exists l. cbn [b_queues b_balanced app] in *. unfold max_total_chunks in *.
    split; [exact Hrun|]. split; [lia|]. split; [exact Hsub|].
    destruct Hall as [H|H]; [left; lia|right; exact H].
Qed.

(** X6. The capped queues hold, for each source, the first ten passages
    retrieved from it, and together no more than the passages retrieved:
    the balanced contexts are passages of the retrieval, none used twice. *)
Theorem capped_queues_spec (top_docs : list Document) :
  (forall s, default [] (assoc_get s (capped_queues top_docs))
             = take 10 (page_content <$>
                 filter (fun d => source_of (py "Unknown File") d = s) top_docs))
  /\ queued (capped_queues top_docs) ⊆+ page_content <$> top_docs.
Proof.
  split.
  - intros s. unfold capped_queues.
    pose proof (group_lookup_acc (py "Unknown File") page_content top_docs [] s)
      as Hlook.
    cbn [assoc_get default from_option id app] in Hlook.
    fold (group_by_source (py "Unknown File") page_content top_docs) in Hlook.
    rewrite <- Hlook.
    generalize (group_by_source (py "Unknown File") page_content top_docs).
    intros d. induction d as [|[k v] d IH]; [reflexivity|].
    unfold cap_per_source. rewrite fmap_cons. fold (cap_per_source d).
    cbn [fst snd assoc_get]. destruct (str_eqb s k); [|exact IH].
    cbn [default from_option id]. apply slice_prefix.
    unfold max_chunks_per_file. lia.
  - unfold capped_queues. etransitivity; [apply queued_cap_per_source|].
    unfold group_by_source. rewrite group_queued_acc. reflexivity.
Qed.

(** ** The excerpts of a quiz *)

Lemma dict_del_present (k : str) (d : list (str * list str)) :
  assoc_get k d = Some [] ->
  length d = S (length (dict_del k d))
  /\ remaining (dict_del k d) = remaining d
  /\ queued (dict_del k d) = queued d
  /\ (forall s, s ∈ (dict_del k d).*1 -> s ∈ d.*1).
Proof.
  induction d as [|[k' v'] d IH]; cbn [assoc_get dict_del]; [discriminate|].
  destruct (str_eqb k k') eqn:E.
  - intros [= ->]. split; [reflexivity|]. split; [reflexivity|].
    split; [reflexivity|]. intros s Hs. rewrite fmap_cons. apply elem_of_cons.
    right. exact Hs.
  - intros H. destruct (IH H) as (H1 & H2 & H3 & H4).
    split; [simpl; lia|]. split; [rewrite !remaining_cons, H2; reflexivity|].
    split; [rewrite !queued_cons, H3; reflexivity|].
    intros s. rewrite !fmap_cons, !elem_of_cons. intros [->|Hs]; [left; reflexivity|].
    right. apply H4. exact Hs.
Qed.

Lemma default_assoc_get_nil (k : str) (d : list (str * list str)) :
  default [] (assoc_get k d) = [] ->
  assoc_get k d = Some [] \/ assoc_get k d = None.
Proof. destruct (assoc_get k d) as [[|x q]|]; simpl; [tauto|discriminate|tauto]. Qed.

Lemma head_key_in (d : list (str * list str)) :
  d <> [] -> exists k, k ∈ d.*1.
Proof.
  destruct d as [|[k v] d]; [congruence|]. intros _. exists k.
  rewrite fmap_cons. apply elem_of_cons. left. reflexivity.
Qed.

Lemma select_loop_spec (fuel : nat) (keys : list str) (max_excerpts : Z) (pos : nat)
    (by_source : list (str * list str)) (selected : list str) :
  (forall k, k ∈ by_source.*1 -> k ∈ keys) ->
  (0 < fuel)%nat ->
  (by_source <> [] ->
   exists i k, cycle_next keys (pos + i) = Some k /\ k ∈ by_source.*1
     /\ ((remaining by_source + length by_source) * length keys + i < fuel)%nat) ->
  exists l,
    select_loop fuel keys max_excerpts pos by_source selected = Ok l
    /\ l ⊆+ selected ++ queued by_source
    /\ (max_excerpts <= Z.of_nat (length l)
        \/ l ≡ₚ selected ++ queued by_source).
Proof.
  revert pos by_source selected.
  induction fuel as [|fuel IH]; intros pos by_source selected Hsub Hpos Hfuel; [lia|].
  cbn [select_loop].
  destruct ((Z.of_nat (length selected) <? max_excerpts)
            && negb (bool_decide (by_source = []))) eqn:Hc.
  2: { exists selected. split; [reflexivity|].
       split; [apply submseteq_inserts_r; reflexivity|].
       apply andb_false_iff in Hc. destruct Hc as [Hc|Hc].
       - left. apply Z.ltb_ge in Hc. exact Hc.
       - right. apply negb_false_iff, bool_decide_eq_true in Hc. subst.
         rewrite app_nil_r. reflexivity. }
  apply andb_true_iff in Hc. destruct Hc as [_ Hne].
  apply negb_true_iff, bool_decide_eq_false in Hne.
  destruct (Hfuel Hne) as (i & k & Hi & Hk & Hbound).
  assert (Hkeys : keys <> []).
  { intros ->. unfold cycle_next in Hi. simpl in Hi. discriminate. }
  destruct (cycle_next_is_Some keys pos Hkeys) as (source & Hsrc & Hin).
  rewrite Hsrc.
  assert (Hfuel' : (0 < fuel)%nat).
  { assert (1 <= length keys)%nat by (destruct keys; [congruence|simpl; lia]).
    assert (1 <= length by_source)%nat
      by (destruct by_source; [congruence|simpl; lia]).
    nia. }
  assert (Hnext : forall (d : list (str * list str)),
    d <> [] -> (forall s, s ∈ d.*1 -> s ∈ keys) ->
    (S (remaining d + length d) <= remaining by_source + length by_source)%nat ->
    exists i' k', cycle_next keys (S pos + i') = Some k' /\ k' ∈ d.*1
      /\ ((remaining d + length d) * length keys + i' < fuel)%nat).
  { intros d Hd Hdk Hmu. destruct (head_key_in d Hd) as (k' & Hk').
    destruct (cycle_next_covers keys (S pos) k' (Hdk k' Hk')) as (i' & Hi' & Hc').
    exists i', k'. split; [exact Hc'|]. split; [exact Hk'|]. nia. }
  destruct (default [] (assoc_get source by_source)) as [|x q] eqn:E.
  - apply default_assoc_get_nil in E. destruct E as [E|E].
    + destruct (dict_del_present _ _ E) as (Hl & Hr & Hq & Hks).
      destruct (dict_del source by_source) as [|kv d'] eqn:Hd.
      * exists selected. split; [reflexivity|]. rewrite <- Hq.
        split; [rewrite app_nil_r; reflexivity|]. right.
        rewrite app_nil_r. reflexivity.
      * destruct (IH (S pos) (kv :: d') selected) as (l & Hrun & H1 & H2).
        { intros s Hs. apply Hsub, Hks, Hs. }
        { exact Hfuel'. }
        { intros Hd'. apply Hnext; [exact Hd'| |lia].
          intros s Hs. apply Hsub, Hks, Hs. }
        exists l. split; [exact Hrun|]. rewrite <- Hq. split; [exact H1|exact H2].
    + rewrite (dict_del_absent _ _ E).
      destruct by_source as [|kv d'] eqn:Hd; [congruence|]. rewrite <- Hd in *.
      assert (Hi0 : i <> 0%nat).
      { intros ->. rewrite Nat.add_0_r, Hsrc in Hi. injection Hi as ->.
        apply assoc_get_None in E. contradiction. }
      destruct (IH (S pos) by_source selected) as (l & Hrun & H1 & H2).
      { exact Hsub. }
      { exact Hfuel'. }
      { intros _. exists (i - 1)%nat, k.
        replace (S pos + (i - 1))%nat with (pos + i)%nat by lia.
        split; [exact Hi|]. split; [exact Hk|]. lia. }
      exists l. split; [exact Hrun|]. split; [exact H1|exact H2].
  - apply default_assoc_get_cons in E.
    pose proof (queued_dict_set_pop _ _ _ _ E) as Hperm.
    pose proof (keys_dict_set_present source q _ _ E) as Hsame.
    pose proof (remaining_dict_set _ _ _ _ E) as Hrem.
    assert (Hlen : length (dict_set source q by_source) = length by_source).
    { rewrite <- (length_fmap fst), Hsame, length_fmap. reflexivity. }
    destruct (IH (S pos) (dict_set source q by_source) (selected ++ [x]))
      as (l & Hrun & H1 & H2).
    { rewrite Hsame. exact Hsub. }
    { exact Hfuel'. }
    { intros Hd'. apply Hnext; [exact Hd'|rewrite Hsame; exact Hsub|lia]. }
    exists l. split; [exact Hrun|].
    assert (Heq : (selected ++ [x]) ++ queued (dict_set source q by_source)
                  ≡ₚ selected ++ queued by_source).
    { rewrite Hperm, <- app_assoc. reflexivity. }
    rewrite <- Heq. split; [exact H1|exact H2].
Qed.

(** X7. The excerpts of a quiz are always selected: the loop over the
    cycle of sources ends without an exception, although the cycle keeps
    naming the sources already deleted.  The selection holds no more than
    [max_excerpts] excerpts, each taken once from the queues; it holds
    exactly [max_excerpts] of them (none for a negative bound), or else
    every excerpt of the queues. *)
Theorem select_excerpts_spec (max_excerpts : Z) (by_source : list (str * list str)) :
  exists l,
    select_excerpts max_excerpts by_source = Ok l
    /\ l ⊆+ queued by_source
    /\ (Z.of_nat (length l) = Z.max 0 max_excerpts \/ l ≡ₚ queued by_source).
Proof.
  unfold select_excerpts.
  destruct (select_loop_spec (select_fuel by_source) by_source.*1 max_excerpts O
              by_source []) as (l & Hrun & Hsub & Hall).
  - tauto.
  - unfold select_fuel. lia.
  - intros Hne. destruct (head_key_in by_source Hne) as (k & Hk).
    destruct (cycle_next_covers by_source.*1 O k Hk) as (i & Hi & Hc).
    exists i, k. split; [exact Hc|]. split; [exact Hk|].
    unfold select_fuel. rewrite length_fmap in Hi |- *. nia.
  - exists l. split; [exact Hrun|]. split; [exact Hsub|].
    pose proof (select_loop_length _ _ _ _ _ _ _ Hrun) as Hle. simpl in Hle.
    destruct Hall as [H|H]; [left; lia|right; exact H].
Qed.

(** ** The completion call *)

(** X8. [chat_get_text] posts exactly one request.  A transport failure
    is not raised: it becomes the text "Error: Could not get response
    from Groq. ..." that the caller receives as the completion.  The
    call raises only when the decoded body is an object whose [choices]
    is null, a boolean or a number, and then raises [TypeError]; every
    other body gives a text. *)
Theorem chat_get_text_cases {W} (svc : Services W) (model_ : str)
    (messages_ : list ChatMessage) (max_tokens_ : Z) (temperature_ : Q)
    (w : W) (log : list event) :
  let payload := {| model := model_; messages := messages_;
                    max_tokens := max_tokens_; temperature := temperature_ |} in
  let run := chat_get_text svc model_ messages_ max_tokens_ temperature_ (w, log) in
  run.2 = ((post svc payload w).2, log ++ [EvPost payload])
  /\ match (post svc payload w).1 with
     | PostFails e => run.1 = Ok (transport_error_text e)
     | PostJson data =>
         if choices_not_subscriptable data then run.1 = Raise TypeError
         else exists text, run.1 = Ok text
     end.
Proof.
  intros payload run. subst run. unfold chat_get_text. fold payload.
  destruct (post svc payload w) as [[e|data] w']; cbn [fst snd].
  - split; reflexivity.
  - destruct data as [| | | | |fields];
      try (split; [reflexivity|eexists; reflexivity]).
    unfold choices_not_subscriptable, extract_content.
    destruct (assoc_get (py "choices") fields) as [choices|]; cbn [default from_option id].
    2: { split; [reflexivity|eexists; reflexivity]. }
    destruct choices as [| | |[|c s]|[|x xs]|]; try (split; reflexivity);
      try (split; [reflexivity|eexists; reflexivity]).
    destruct x as [| | | | |choice];
      try (split; [reflexivity|eexists; reflexivity]).
    destruct (default (JObj []) (assoc_get (py "message") choice))
      as [| | | | |message]; try (split; [reflexivity|eexists; reflexivity]).
    destruct (default (JStr []) (assoc_get (py "content") message));
      split; try reflexivity; eexists; reflexivity.
Qed.

Lemma extract_content_exn (data : json) (e : exn) :
  extract_content data = inl e ->
  e = TypeError \/ e = KeyError \/ e = IndexError \/ e = AttributeError.
Proof.
  unfold extract_content. destruct data as [| | | | |fields];
    try (intros [= <-]; tauto).
  destruct (default (JArr [JObj []]) (assoc_get (py "choices") fields))
    as [| | |[|c s]|[|x xs]|]; try (intros [= <-]; tauto).
  destruct x as [| | | | |choice]; try (intros [= <-]; tauto).
  destruct (default (JObj []) (assoc_get (py "message") choice))
    as [| | | | |message]; try (intros [= <-]; tauto).
  destruct (default (JStr []) (assoc_get (py "content") message));
    try (intros [= <-]; tauto); discriminate.
Qed.

Lemma chat_get_text_run {W} (svc : Services W) (model_ : str)
    (messages_ : list ChatMessage) (max_tokens_ : Z) (temperature_ : Q)
    (w : W) (log : list event) :
  exists o w',
    chat_get_text svc model_ messages_ max_tokens_ temperature_ (w, log)
    = (o, (w', log ++ [EvPost {| model := model_; messages := messages_;
                                 max_tokens := max_tokens_;
                                 temperature := temperature_ |}]))
    /\ match o with
       | Ok _ => True
       | Raise e => e = TypeError
       | OutOfFuel => False
       end.
Proof.
  unfold chat_get_text. destruct (post svc _ w) as [[e|data] w'].
  - eexists _, _. split; [reflexivity|exact I].
  - destruct (extract_content data) as [e|text] eqn:E.
    + apply extract_content_exn in E.
      destruct E as [ -> | [ -> | [ -> | -> ] ] ]; eexists _, _;
        (split; [reflexivity|]); try exact I; reflexivity.
    + eexists _, _. split; [reflexivity|exact I].
Qed.

(** ** The suggestion step *)

Lemma parse_suggestions_bound (resp : str) :
  (length (parse_suggestions resp) <= 3)%nat
  /\ Forall (fun s => s <> []) (parse_suggestions resp).
Proof.
  unfold parse_suggestions. rewrite collect_suggestions_spec. simpl.
  rewrite slice_prefix by lia. split.
  - rewrite length_take. lia.
  - apply Forall_take, Forall_forall. intros x Hx.
    apply list_elem_of_filter in Hx. tauto.
Qed.





(** ** The quiz operation, from the retrieval to the result *)

Lemma select_excerpts_ok (max_excerpts : Z) (by_source : list (str * list str)) :
  exists l, select_excerpts max_excerpts by_source = Ok l.
Proof.
  unfold select_excerpts.
  destruct (select_loop_spec (select_fuel by_source) by_source.*1 max_excerpts O
              by_source []) as (l & Hrun & _).
  - tauto.
  - unfold select_fuel. lia.
  - intros Hne. destruct (head_key_in by_source Hne) as (k & Hk).
    destruct (cycle_next_covers by_source.*1 O k Hk) as (i & Hi & Hc).
    exists i, k. split; [exact Hc|]. split; [exact Hk|].
    unfold select_fuel. rewrite length_fmap in Hi |- *. nia.
  - exists l. exact Hrun.
Qed.

Lemma combine_excerpts_length (selected_content : list str) :
  Z.of_nat (length (combine_excerpts selected_content)) <= MAX_CONTEXT.
Proof.
  unfold combine_excerpts.
  destruct (Z.of_nat (length (join (NL ++ NL) selected_content)) >? MAX_CONTEXT) eqn:E.
  - apply length_slice_prefix. unfold MAX_CONTEXT. lia.
  - rewrite Z.gtb_ltb in E. apply Z.ltb_ge in E. exact E.
Qed.

(** X10. The context of a quiz prompt is bounded: an excerpt is the
    first 600 characters of its passage, and the combined context is the
    excerpts joined by blank lines, cut to its first 5000 characters
    when it is longer. *)
Theorem quiz_context_bounds (d : Document) (selected_content : list str) :
  excerpt d = take 600 (page_content d)
  /\ (length (excerpt d) <= 600)%nat
  /\ combine_excerpts selected_content
     = take 5000 (join (NL ++ NL) selected_content)
  /\ (length (combine_excerpts selected_content) <= 5000)%nat.
Proof.
  assert (He : excerpt d = take 600 (page_content d)).
  { unfold excerpt. rewrite slice_prefix by lia. reflexivity. }
  split; [exact He|]. split; [rewrite He, length_take; lia|].
  split.
  - unfold combine_excerpts, MAX_CONTEXT.
    destruct (Z.of_nat (length (join (NL ++ NL) selected_content)) >? 5000) eqn:E.
    + rewrite slice_prefix by lia. reflexivity.
    + rewrite Z.gtb_ltb in E. apply Z.ltb_ge in E. rewrite take_ge by lia.
      reflexivity.
  - pose proof (combine_excerpts_length selected_content) as H.
    unfold MAX_CONTEXT in H. lia.
Qed.

Lemma mcq_failure_500 (e : exn) :
  exists detail, mcq_failure e = HTTPException 500 detail.
Proof. destruct e; eexists; reflexivity. Qed.

(** X11. A quiz request whose retrieval gives passages always ends, and
    calls the services three times: the vector store, the retrieval with
    the fixed probe, and one request to the backend, with 4096 tokens
    and a prompt whose single context holds at most 5000 characters;
    nothing is written to the store.  It returns a quiz for the session
    of the request, of at most as many items as were asked for, or
    raises the HTTP error 500, or the [TypeError] of a reply whose
    [choices] cannot be read. *)
Theorem generate_mcq_outcomes {W} (svc : Services W) (body : MCQRequest)
    (w : W) (log : list event) (w1 w2 : W) (d : Document) (docs : list Document) :
  open_vectorstore svc (m_session_id body) w = (inr (), w1) ->
  invoke svc (retriever_for (m_session_id body) (m_files body) TOP_K)
    MCQ_PROBE w1 = (inr (d :: docs), w2) ->
  exists o w3 p,
    generate_mcq svc body (w, log) = (o, (w3, log ++ quiz_calls body ++ [EvPost p]))
    /\ max_tokens p = 4096
    /\ (exists context,
          messages p
          = build_mcq_generation_prompt [context] (mcq_count (m_num_questions body))
          /\ (length context <= 5000)%nat)
    /\ match o with
       | Ok resp =>
           l_session_id resp = m_session_id body
           /\ (0 <= mcq_count (m_num_questions body) ->
               Z.of_nat (length (l_mcqs resp)) <= mcq_count (m_num_questions body))
       | Raise e => e = TypeError \/ exists detail, e = HTTPException 500 detail
       | OutOfFuel => False
       end.
Proof.
  intros H1 H2.
  assert (E0 : forall k : list Document -> M W MCQListResponse,
    bind (bind (call (EvVectorStore (m_session_id body))
                  (open_vectorstore svc (m_session_id body)))
            (fun _ => ret (retriever_for (m_session_id body) (m_files body) TOP_K)))
      (fun retriever => bind (retriever_invoke svc retriever MCQ_PROBE) k) (w, log)
    = k (d :: docs) (w2, log ++ quiz_calls body)).
  { intros k. unfold bind, retriever_invoke, ret. rewrite !call_eq, H1.
    cbn [fst snd outcome_of]. rewrite !call_eq, H2. cbn [fst snd outcome_of].
    rewrite <- app_assoc. reflexivity. }
  unfold generate_mcq, get_retriever_for_session.
  fold (retriever_for (m_session_id body) (m_files body) TOP_K).
  rewrite E0.
  destruct (select_excerpts_ok (mcq_count (m_num_questions body) * 2)
              (group_by_source (py "unknown") excerpt (d :: docs))) as (sel & Hsel).
  rewrite Hsel. unfold bind at 1, lift at 1.
  match goal with
  | |- context [chat_get_text svc ?m ?ms ?mt ?t] =>
      destruct (chat_get_text_run svc m ms mt t w2 (log ++ quiz_calls body))
        as (o & w3 & E & Ho)
  end.
  unfold bind. rewrite E. rewrite <- app_assoc.
  assert (Hctx : (length (combine_excerpts sel) <= 5000)%nat).
  { pose proof (combine_excerpts_length sel) as H. unfold MAX_CONTEXT in H. lia. }
  destruct o as [resp|e|]; [| |contradiction].
  - unfold lift.
    destruct (mcq_result (m_session_id body) (mcq_count (m_num_questions body))
                (json_loads svc (repair resp))) as [r|e|] eqn:Hr.
    + eexists _, _, _. split; [reflexivity|]. split; [reflexivity|].
      split; [eexists; split; [reflexivity|exact Hctx]|].
      split.
      * unfold mcq_result in Hr. destruct (parse_mcqs _ _); [discriminate|].
        injection Hr as <-. reflexivity.
      * intros Hc. apply (mcq_result_length _ _ _ _ Hc Hr).
    + eexists _, _, _. split; [reflexivity|]. split; [reflexivity|].
      split; [eexists; split; [reflexivity|exact Hctx]|].
      right. unfold mcq_result in Hr. destruct (parse_mcqs _ _) as [e'|]; [|discriminate].
      injection Hr as <-. apply mcq_failure_500.
    + unfold mcq_result in Hr. destruct (parse_mcqs _ _); discriminate.
  - eexists _, _, _. split; [reflexivity|]. split; [reflexivity|].
    split; [eexists; split; [reflexivity|exact Hctx]|]. left. exact Ho.
Qed.

Lemma generate_mcq_outcomes_witness :
  exists o w3 p,
    generate_mcq (table_services one_passage_index (fixed_backend "[]") no_json)
      example_mcq_request ([], [])
    = (o, (w3, [] ++ quiz_calls example_mcq_request ++ [EvPost p]))
    /\ max_tokens p = 4096
    /\ (exists context,
          messages p = build_mcq_generation_prompt [context] 3
          /\ (length context <= 5000)%nat)
    /\ match o with
       | Ok resp =>
           l_session_id resp = py "s1"
           /\ (0 <= 3 -> Z.of_nat (length (l_mcqs resp)) <= 3)
       | Raise e => e = TypeError \/ exists detail, e = HTTPException 500 detail
       | OutOfFuel => False
       end.
Proof.
  exact (generate_mcq_outcomes
           (table_services one_passage_index (fixed_backend "[]") no_json)
           example_mcq_request [] [] [] []
           (passage "a.pdf" "cats are mammals") [] eq_refl eq_refl).
Defined.

(** ** The answer operation: failures and the shape of the response *)

(** X12. When the retrieval of an answer request raises, [query_docs]
    raises the same exception, having called the vector store and the
    retrieval only: the question is not stored and nothing is posted. *)
Theorem query_docs_retrieval_failure {W} (svc : Services W) (body : QueryRequest)
    (w : W) (log : list event) (w1 w2 : W) (e : exn) :
  open_vectorstore svc (q_session_id body) w = (inr (), w1) ->
  invoke svc (retriever_for (q_session_id body) (q_files body) TOP_K)
    (q_query body) w1 = (inl e, w2) ->
  query_docs svc body (w, log)
  = (Raise e,
     (w2, log ++ [ EvVectorStore (q_session_id body);
                   EvInvoke (retriever_for (q_session_id body) (q_files body) TOP_K)
                     (q_query body) ])).
Proof.
  intros H1 H2. unfold query_docs.
  rewrite (bind_ok _ _ _ _ _ (get_retriever_ok svc _ _ _ _ _ _ H1)).
  unfold retriever_invoke. unfold bind at 1. rewrite call_eq.
  fold (retriever_for (q_session_id body) (q_files body) TOP_K).
  rewrite H2. cbn [fst snd outcome_of]. rewrite <- app_assoc. reflexivity.
Qed.

Lemma query_docs_retrieval_failure_witness :
  query_docs unreachable_index_services example_request ([], [])
  = (Raise (ServiceError (py "index unreachable")),
     ([], [] ++ [ EvVectorStore (py "s1");
                  EvInvoke (retriever_for (py "s1") None TOP_K)
                    (py "what are mammals") ])).
Proof.
  exact (query_docs_retrieval_failure unreachable_index_services example_request
           [] [] [] [] (ServiceError (py "index unreachable")) eq_refl eq_refl).
Defined.

(** X13. When passages were retrieved, the question is stored and the
    backend cannot be reached for the answer, the transport failure is
    not raised: the text "Error: Could not get response from Groq. ..."
    is what [query_docs] hands to the store as the message of the
    assistant, with the sources.  If the store accepts it, it is returned
    as the answer of the response; if the store refuses it, the exception
    of the store leaves [query_docs]. *)
Theorem query_docs_transport_failure {W} (svc : Services W) (body : QueryRequest)
    (w : W) (log : list event) (w1 w2 w3 w4 : W)
    (d : Document) (docs : list Document) (e : str) :
  let top_docs := d :: docs in
  let answer := transport_error_text e in
  let calls :=
    query_calls body
    ++ [ EvPost (answer_payload body top_docs);
         EvInsert (assistant_row body answer top_docs) ] in
  open_vectorstore svc (q_session_id body) w = (inr (), w1) ->
  invoke svc (retriever_for (q_session_id body) (q_files body) TOP_K)
    (q_query body) w1 = (inr top_docs, w2) ->
  insert_message svc (user_row body) w2 = (inr (), w3) ->
  post svc (answer_payload body top_docs) w3 = (PostFails e, w4) ->
  match insert_message svc (assistant_row body answer top_docs) w4 with
  | (inl refused, w5) =>
      query_docs svc body (w, log) = (Raise refused, (w5, log ++ calls))
  | (inr _, w5) =>
      exists o w' evs,
        query_docs svc body (w, log)
        = (Ok (response_of body top_docs answer o), (w', (log ++ calls) ++ evs))
        /\ Forall suggestion_post evs
  end.
Proof.
  intros top_docs answer calls H1 H2 H3 H4.
  rewrite (query_docs_after_question svc body w log w1 top_docs w2 w3 H1 H2 H3).
  assert (Ea : answer_step svc body top_docs (w3, log ++ query_calls body)
               = match insert_message svc (assistant_row body answer top_docs) w4 with
                 | (inl refused, w5) => (Raise refused, (w5, log ++ calls))
                 | (inr _, w5) => (Ok answer, (w5, log ++ calls))
                 end).
  { unfold answer_step, top_docs. unfold bind at 1. unfold chat_get_text.
    fold top_docs. fold (answer_payload body top_docs). rewrite H4.
    fold (transport_error_text e). fold answer.
    unfold bind, ret. rewrite call_eq.
    destruct (insert_message svc (assistant_row body answer top_docs) w4)
      as [[refused|[]] w5]; cbn [fst snd outcome_of]; subst calls;
      rewrite <- !app_assoc; reflexivity. }
  rewrite Ea.
  destruct (insert_message svc (assistant_row body answer top_docs) w4)
    as [[refused|[]] w5]; [reflexivity|].
  destruct (suggestion_step_logs svc body top_docs w5 (log ++ calls))
    as (o & w' & evs & E & Ht & HP).
  cbn zeta. rewrite E. cbn [fst snd].
  exists o, w', evs. split; [|exact HP].
  destruct o; [reflexivity|reflexivity|contradiction].
Qed.

Lemma query_docs_transport_failure_witness :
  exists o w' evs,
    query_docs (table_services one_passage_index unreachable_backend no_json)
      example_request ([], [])
    = (Ok (response_of example_request [passage "a.pdf" "cats are mammals"]
             (transport_error_text (py "timed out")) o),
       (w', ([] ++ query_calls example_request
             ++ [ EvPost (answer_payload example_request
                            [passage "a.pdf" "cats are mammals"]);
                  EvInsert (assistant_row example_request
                              (transport_error_text (py "timed out"))
                              [passage "a.pdf" "cats are mammals"]) ]) ++ evs))
    /\ Forall suggestion_post evs.
Proof.
  exact (query_docs_transport_failure
           (table_services one_passage_index unreachable_backend no_json)
           example_request [] [] [] []
           [row_of (user_row example_request)]
           [row_of (user_row example_request)]
           (passage "a.pdf" "cats are mammals") [] (py "timed out")
           eq_refl eq_refl eq_refl eq_refl).
Defined.

Lemma generate_suggestions_ok_bound {W} (svc : Services W) (session_id : str)
    (history : option (list pydict)) (files : option (list str))
    (st st' : W * list event) (l : list str) :
  generate_suggestions_from_retriever svc session_id history files st = (Ok l, st') ->
  (length l <= 3)%nat /\ Forall (fun s => s <> []) l.
Proof.
  unfold generate_suggestions_from_retriever, bind, ret.
  destruct (get_retriever_for_session _ _ _ _ st) as [[r|e|] st1]; try discriminate.
  destruct (retriever_invoke svc r _ st1) as [[top_docs|e|] st2]; try discriminate.
  destruct top_docs as [|d docs].
  - intros [= <- _]. split; [simpl; lia|constructor].
  - destruct (is_initial history).
    + unfold lift. destruct (balanced_contexts (d :: docs)) as [contexts|e|];
        try discriminate.
      destruct (chat_get_text _ _ _ _ _ st2) as [[resp|e|] st4]; try discriminate.
      intros [= <- _]. apply parse_suggestions_bound.
    + destruct (chat_get_text _ _ _ _ _ st2) as [[resp|e|] st4]; try discriminate.
      intros [= <- _]. apply parse_suggestions_bound.
Qed.

Lemma remove_dups_nil {A} `{EqDecision A} (l : list A) :
  remove_dups l = [] -> l = [].
Proof.
  intros H. destruct l as [|x l]; [reflexivity|].
  assert (Hin : x ∈ remove_dups (x :: l))
    by (apply elem_of_remove_dups, elem_of_cons; left; reflexivity).
  rewrite H in Hin. inversion Hin.
Qed.

(** X14. Every response [query_docs] returns repeats the session and the
    question of the request, names each source once, and carries at most
    three suggestions, none of them empty; a response that names no
    source carries the fixed fallback answer. *)
Theorem query_docs_response_shape {W} (svc : Services W) (body : QueryRequest)
    (st st' : W * list event) (resp : QueryResponse) :
  query_docs svc body st = (Ok resp, st') ->
  r_session_id resp = q_session_id body
  /\ r_query resp = q_query body
  /\ NoDup (r_source_docs resp)
  /\ (r_source_docs resp = [] -> r_answer resp = FALLBACK_ANSWER)
  /\ (length (r_suggestions resp) <= 3)%nat
  /\ Forall (fun s => s <> []) (r_suggestions resp).
Proof.
  unfold query_docs. unfold bind at 1.
  destruct (get_retriever_for_session _ _ _ _ st) as [[r|e|] st1]; try discriminate.
  unfold bind at 1.
  destruct (retriever_invoke svc r _ st1) as [[top_docs|e|] st2]; try discriminate.
  unfold bind at 1.
  destruct (save_chat_message _ _ _ _ _ st2) as [[[]|e|] st3]; try discriminate.
  destruct top_docs as [|d docs].
  - unfold bind, try_except, ret.
    destruct (generate_suggestions_from_retriever _ _ _ _ st3)
      as [[l|e|] st4] eqn:E; try discriminate.
    + intros [= <- _]. cbn. apply generate_suggestions_ok_bound in E.
      repeat split; try tauto. constructor.
    + intros [= <- _]. cbn. repeat split; try lia; constructor.
  - assert (Hnd : NoDup (list_of_set (source_of (py "Unknown File") <$> d :: docs)))
      by apply NoDup_remove_dups.
    assert (Hne : list_of_set (source_of (py "Unknown File") <$> d :: docs) <> []).
    { intros H. apply remove_dups_nil in H. discriminate. }
    revert Hnd Hne.
    generalize (list_of_set (source_of (py "Unknown File") <$> d :: docs)).
    intros srcs Hnd Hne.
    unfold bind at 1.
    destruct (chat_get_text _ _ _ _ _ st3) as [[answer|e|] st4]; try discriminate.
    unfold bind at 1.
    destruct (save_chat_message _ _ _ _ _ st4) as [[[]|e|] st5]; try discriminate.
    unfold bind at 1, try_except, ret.
    destruct (bind (get_session_messages _ _ _) _ st5) as [[l|e|] st6] eqn:E;
      try discriminate.
    + intros [= <- _]. cbn [r_session_id r_query r_source_docs r_answer r_suggestions].
      split; [reflexivity|]. split; [reflexivity|].
      split; [exact Hnd|]. split; [intros H; contradiction|].
      unfold bind in E.
      destruct (get_session_messages _ _ _ st5) as [[h|e|] st7]; try discriminate.
      apply generate_suggestions_ok_bound in E. exact E.
    + intros [= <- _]. cbn [r_session_id r_query r_source_docs r_answer r_suggestions].
      split; [reflexivity|]. split; [reflexivity|].
      split; [exact Hnd|]. split; [intros H; contradiction|].
      split; [simpl; lia|constructor].
Qed.

Lemma query_docs_response_shape_witness :
  let resp := {| r_session_id := py "s1";
                 r_query := py "what are mammals";
                 r_answer := py "Cats are mammals.";
                 r_source_docs := [py "a.pdf"];
                 r_suggestions := [py "Cats are mammals."] |} in
  r_session_id resp = q_session_id example_request
  /\ r_query resp = q_query example_request
  /\ NoDup (r_source_docs resp)
  /\ (r_source_docs resp = [] -> r_answer resp = FALLBACK_ANSWER)
  /\ (length (r_suggestions resp) <= 3)%nat
  /\ Forall (fun s => s <> []) (r_suggestions resp).
Proof.
  intros resp.
  apply (query_docs_response_shape answering_services example_request ([], [])
           (query_docs answering_services example_request ([], [])).2 resp).
  vm_compute. reflexivity.
Defined.

(** ** More on the repair of a quiz response *)

Lemma occurs_in_refl (s : str) : occurs_in s s.
Proof. exists [], []. rewrite app_nil_r. reflexivity. Qed.

Lemma occurs_in_trans (a b c : str) : occurs_in a b -> occurs_in b c -> occurs_in a c.
Proof.
  intros (p1 & s1 & ->) (p2 & s2 & ->). exists (p2 ++ p1), (s1 ++ s2).
  rewrite <- !app_assoc. reflexivity.
Qed.

Lemma occurs_in_take (n : nat) (s : str) : occurs_in (take n s) s.
Proof. exists [], (drop n s). simpl. symmetry. apply take_drop. Qed.

Lemma occurs_in_drop (n : nat) (s : str) : occurs_in (drop n s) s.
Proof. exists (take n s), []. rewrite app_nil_r. symmetry. apply take_drop. Qed.

Lemma occurs_in_slice (lo hi : option Z) (s : str) : occurs_in (slice lo hi s) s.
Proof.
  unfold slice. eapply occurs_in_trans; [apply occurs_in_take|apply occurs_in_drop].
Qed.

Lemma occurs_in_lstrip (s : str) : occurs_in (lstrip s) s.
Proof.
  destruct (drop_while_suffix isspace s) as [pre E]. exists pre, [].
  rewrite app_nil_r. exact E.
Qed.

Lemma occurs_in_rstrip (s : str) : occurs_in (rstrip s) s.
Proof.
  destruct (drop_while_suffix isspace (rev s)) as [pre E]. unfold rstrip.
  exists [], (rev pre). simpl. rewrite <- rev_app_distr, <- E, rev_involutive.
  reflexivity.
Qed.

Lemma occurs_in_strip (s : str) : occurs_in (strip s) s.
Proof.
  unfold strip. eapply occurs_in_trans; [apply occurs_in_rstrip|apply occurs_in_lstrip].
Qed.

Lemma occurs_in_after_newline (s : str) : occurs_in (after_newline s) s.
Proof.
  induction s as [|c s IH]; [apply occurs_in_refl|]. simpl.
  destruct (char_eqb c 10%N).
  - exists [c], []. rewrite app_nil_r. reflexivity.
  - eapply occurs_in_trans; [exact IH|]. exists [c], []. rewrite app_nil_r.
    reflexivity.
Qed.

Lemma occurs_in_rsplit1_head (sep s : str) : occurs_in (rsplit1_head sep s) s.
Proof.
  unfold rsplit1_head. destruct (rfind_sub sep s);
    [apply occurs_in_take|apply occurs_in_refl].
Qed.

(** X15. The repair only removes text: whatever the response, the
    repaired text occurs in it as a run of consecutive characters. *)
Theorem repair_occurs_in (resp : str) : occurs_in (repair resp) resp.
Proof.
  unfold repair.
  set (r1 := strip resp).
  set (r2 := if startswith FENCE r1
             then join NL (slice (Some 1) None (split 10%N r1)) else r1).
  set (r3 := if endswith FENCE r2 then rsplit1_head FENCE r2 else r2).
  set (r4 := strip r3).
  assert (H1 : occurs_in r1 resp) by apply occurs_in_strip.
  assert (H2 : occurs_in r2 r1).
  { subst r2. destruct (startswith FENCE r1); [|apply occurs_in_refl].
    rewrite first_line_removed. apply occurs_in_after_newline. }
  assert (H3 : occurs_in r3 r2).
  { subst r3. destruct (endswith FENCE r2);
      [apply occurs_in_rsplit1_head|apply occurs_in_refl]. }
  assert (H4 : occurs_in r4 r3) by apply occurs_in_strip.
  assert (H : occurs_in r4 resp).
  { eapply occurs_in_trans; [exact H4|]. eapply occurs_in_trans; [exact H3|].
    eapply occurs_in_trans; [exact H2|exact H1]. }
  destruct (negb (find (py "[") r4 =? -1) && (rfind (py "]") r4 + 1 >? find (py "[") r4)).
  - eapply occurs_in_trans; [apply occurs_in_slice|exact H].
  - exact H.
Qed.

Lemma lstrip_spaces (X : str) : Forall (fun c => isspace c = true) X -> lstrip X = [].
Proof.
  induction 1 as [|c X Hc _ IH]; [reflexivity|]. unfold lstrip in *. simpl.
  rewrite Hc. exact IH.
Qed.

Lemma rstrip_spaces (Y : str) : Forall (fun c => isspace c = true) Y -> rstrip Y = [].
Proof.
  intros H. unfold rstrip. fold (lstrip (rev Y)). rewrite lstrip_spaces; [reflexivity|].
  apply Forall_forall. intros c Hc. rewrite Forall_forall in H. apply H.
  apply list_elem_of_In. apply list_elem_of_In, in_rev in Hc. exact Hc.
Qed.

(** X16. A response that is a bracketed array, with nothing around it
    but white space, is repaired to that array: without a fence nothing
    is cut but the white space. *)
Theorem repair_bare_array (before body after : str) :
  Forall (fun c => isspace c = true) before ->
  Forall (fun c => isspace c = true) after ->
  repair (before ++ 91%N :: body ++ 93%N :: after) = 91%N :: body ++ [93%N].
Proof.
  intros Hb Ha. unfold repair.
  rewrite (strip_between before 91%N body 93%N after eq_refl eq_refl).
  rewrite (lstrip_spaces _ Hb), (rstrip_spaces _ Ha). cbn [app].
  change (startswith FENCE (91%N :: body ++ [93%N])) with false. cbv iota.
  assert (He : endswith FENCE (91%N :: body ++ [93%N]) = false).
  { unfold endswith. change (91%N :: body ++ [93%N]) with ([91%N] ++ body ++ [93%N]).
    rewrite !rev_app_distr. reflexivity. }
  rewrite He.
  change (strip (91%N :: body ++ [93%N]))
    with (strip ([] ++ 91%N :: body ++ 93%N :: [])).
  rewrite (strip_between [] 91%N body 93%N [] eq_refl eq_refl).
  apply (bracket_span [] body []); apply not_elem_of_nil.
Qed.

Lemma repair_bare_array_witness :
  repair (py "  " ++ 91%N :: py "{}" ++ 93%N :: NL) = 91%N :: py "{}" ++ [93%N].
Proof.
  apply (repair_bare_array (py "  ") (py "{}") NL).
  - repeat constructor.
  - repeat constructor.
Defined.

(** ** The validation of an uploaded file and the extraction of its text *)

Lemma rsplit1_last_after (stem e : str) :
  46%N ∉ e -> rsplit1_last (py ".") (stem ++ 46%N :: e) = e.
Proof.
  intros He. unfold rsplit1_last. change (py ".") with [46%N].
  rewrite (rfind_sub_single 46%N stem e He). simpl length.
  rewrite Nat.add_1_r. change (stem ++ 46%N :: e) with (stem ++ [46%N] ++ e).
  rewrite app_assoc.
  replace (S (length stem)) with (length (stem ++ [46%N]))
    by (rewrite length_app; simpl; lia).
  apply drop_app_length.
Qed.

Lemma rsplit1_last_no_dot (s : str) : 46%N ∉ s -> rsplit1_last (py ".") s = s.
Proof.
  intros Hs. unfold rsplit1_last. change (py ".") with [46%N].
  rewrite (rfind_sub_absent 46%N s Hs). reflexivity.
Qed.

Lemma allowed_ext_cases (e : str) :
  existsb (str_eqb (py "." ++ e)) ALLOWED_EXT
  = str_eqb e (py "pdf") || str_eqb e (py "docx") || str_eqb e (py "txt").
Proof.
  unfold ALLOWED_EXT. cbn [existsb].
  change (py "." ++ e) with (46%N :: e).
  change (py ".pdf") with (46%N :: py "pdf").
  change (py ".docx") with (46%N :: py "docx").
  change (py ".txt") with (46%N :: py "txt").
  cbn [str_eqb]. change (char_eqb 46 46) with true. cbn [andb].
  rewrite orb_false_r, orb_assoc. reflexivity.
Qed.

Section FileFacts.
Context (lower : str -> str) (format_mb : nat -> str).
Context (extract_txt extract_pdf extract_docx : list Byte.byte -> exn + str).

(** X17. A file that passes [validate_file] holds at most 20 MiB and is
    handed to one of the three extractors: the extraction never fails
    on it for an unsupported type, since both functions read the
    extension in the same way. *)
Theorem validated_file_has_extractor (filename : str) (file_bytes : list Byte.byte) :
  (validate_file lower format_mb filename file_bytes).1 = true ->
  Z.of_nat (length file_bytes) <= 20 * 1024 * 1024
  /\ extract_text_by_extension lower extract_txt extract_pdf extract_docx
       filename file_bytes
     ∈ [extract_txt file_bytes; extract_pdf file_bytes; extract_docx file_bytes].
Proof.
  unfold validate_file, extract_text_by_extension.
  rewrite allowed_ext_cases.
  set (ext := rsplit1_last (py ".") (lower filename)).
  destruct (str_eqb ext (py "txt")) eqn:Et.
  - rewrite orb_true_r. cbn [negb].
    destruct (Z.of_nat (length file_bytes) >? MAX_FILE_SIZE_MB * (1024 * 1024)) eqn:Es;
      [discriminate|].
    intros _. rewrite Z.gtb_ltb in Es. apply Z.ltb_ge in Es.
    unfold MAX_FILE_SIZE_MB in Es. split; [lia|]. apply elem_of_cons. left. reflexivity.
  - rewrite orb_false_r.
    destruct (str_eqb ext (py "pdf")) eqn:Ep.
    + cbn [orb negb].
      destruct (Z.of_nat (length file_bytes) >? MAX_FILE_SIZE_MB * (1024 * 1024)) eqn:Es;
        [discriminate|].
      intros _. rewrite Z.gtb_ltb in Es. apply Z.ltb_ge in Es.
      unfold MAX_FILE_SIZE_MB in Es. split; [lia|].
      apply elem_of_cons. right. apply elem_of_cons. left. reflexivity.
    + cbn [orb]. destruct (str_eqb ext (py "docx")) eqn:Ed; [|discriminate].
      cbn [negb].
      destruct (Z.of_nat (length file_bytes) >? MAX_FILE_SIZE_MB * (1024 * 1024)) eqn:Es;
        [discriminate|].
      intros _. rewrite Z.gtb_ltb in Es. apply Z.ltb_ge in Es.
      unfold MAX_FILE_SIZE_MB in Es. split; [lia|].
      apply elem_of_cons. right. apply elem_of_cons. right.
      apply elem_of_cons. left. reflexivity.
Qed.

(** X18. The type of a file is read from what follows the last dot of
    its lower-cased name, and from the whole name when it has no dot:
    the file passes exactly when this is [pdf], [docx] or [txt] and the
    file holds at most 20 MiB, and a wrong type is reported whatever
    the size. *)
Theorem validate_file_verdict (filename stem e : str) (file_bytes : list Byte.byte) :
  46%N ∉ e ->
  lower filename = stem ++ 46%N :: e \/ lower filename = e ->
  validate_file lower format_mb filename file_bytes
  = if negb (str_eqb e (py "pdf") || str_eqb e (py "docx") || str_eqb e (py "txt"))
    then (false, py "File type not allowed.")
    else if Z.of_nat (length file_bytes) <=? 20 * 1024 * 1024
         then (true, [])
         else (false, py "File too large (" ++ format_mb (length file_bytes)
                      ++ py " MB).").
Proof.
  intros He Hname. unfold validate_file.
  assert (Hext : rsplit1_last (py ".") (lower filename) = e).
  { destruct Hname as [-> | ->];
      [apply rsplit1_last_after|apply rsplit1_last_no_dot]; exact He. }
  rewrite Hext, allowed_ext_cases.
  destruct (negb _); [reflexivity|].
  unfold MAX_FILE_SIZE_MB. rewrite Z.gtb_ltb.
  change (20 * (1024 * 1024)) with (20 * 1024 * 1024).
  destruct (Z.of_nat (length file_bytes) <=? 20 * 1024 * 1024) eqn:E.
  - apply Z.leb_le in E. rewrite (proj2 (Z.ltb_ge _ _)) by lia. reflexivity.
  - apply Z.leb_gt in E. rewrite (proj2 (Z.ltb_lt _ _)) by lia. reflexivity.
Qed.

End FileFacts.

Lemma validated_file_has_extractor_witness :
  Z.of_nat (length ([] : list Byte.byte)) <= 20 * 1024 * 1024
  /\ extract_text_by_extension ascii_lower (fun _ => inr (py "text"))
       failing_extractor failing_extractor (py "Notes.TXT") []
     ∈ [inr (py "text"); failing_extractor []; failing_extractor []].
Proof.
  apply (validated_file_has_extractor ascii_lower (fun _ => py "0.00")
           (fun _ => inr (py "text")) failing_extractor failing_extractor
           (py "Notes.TXT") []).
  vm_compute. reflexivity.
Defined.

Lemma validate_file_verdict_witness :
  validate_file ascii_lower (fun _ => py "0.00") (py "PDF") [] = (true, []).
Proof.
  apply (validate_file_verdict ascii_lower (fun _ => py "0.00")
           (py "PDF") [] (py "pdf") []).
  - not_in_literal.
  - right. vm_compute. reflexivity.
Defined.

(** ** The ingestion *)


Lemma perform_eq {W A} (f : W -> (exn + A) * W) (w : W) (log : list event) :
  perform f (w, log) = (outcome_of (f w).1, ((f w).2, log)).
Proof. unfold perform. destruct (f w). reflexivity. Qed.

Lemma try_perform_run {W} (f : W -> (exn + ()) * W) (w : W) (log : list event) :
  try_except (perform f) (fun _ => ret ()) (w, log) = (Ok (), ((f w).2, log)).
Proof.
  unfold try_except. rewrite perform_eq.
  destruct (f w) as [[e|[]] w']; reflexivity.
Qed.

Section IngestFacts.
Context {W : Type} (isvc : IngestServices W).

Lemma ingest_file_run (session_id filename text : str) (w : W) (log : list event) :
  exists entry w',
    ingest_file isvc session_id filename text (w, log) = (Ok entry, (w', log))
    /\ entry_fits (split_text isvc text) entry.
Proof.
  unfold ingest_file, try_except, bind, lift, entry_fits.
  destruct (split_text isvc text) as [e|chunks]; cbn [outcome_of].
  - eexists _, _. split; reflexivity.
  - destruct chunks as [|c chunks].
    + eexists _, _. split; reflexivity.
    + change (Z.of_nat (length (c :: chunks)) =? 0) with false. cbv iota.
      cbv beta. rewrite perform_eq.
      destruct (add_texts isvc session_id (c :: chunks) _ w) as [[e|[]] w'];
        cbn [fst snd outcome_of]; eexists _, _.
      * split; [reflexivity|]. right. eexists. reflexivity.
      * split; [reflexivity|]. left. reflexivity.
Qed.



End IngestFacts.


(** ** The upload *)

Section UploadFacts.
Context {W : Type} (usvc : UploadServices W).

Lemma upload_file_rejected (session_id : str) (f : UploadFile)
    (results : list UploadResponse) (to_ingest : list (str * str))
    (st : W * list event) :
  accepted usvc f = false ->
  exists res,
    upload_file usvc session_id f results to_ingest st
    = (Ok (results ++ [res], to_ingest), st)
    /\ recorded usvc f res.
Proof.
  intros Ha. unfold recorded. rewrite Ha. unfold accepted in Ha. unfold upload_file.
  destruct (validate_file _ _ _ _) as [ok msg]. cbn [fst] in Ha.
  destruct ok; cbn [negb andb] in Ha |- *.
  - destruct (extract_text_by_extension _ _ _ _ _ _) as [e|text]; [|discriminate].
    eexists. split; [reflexivity|]. split; reflexivity.
  - eexists. split; [reflexivity|]. split; reflexivity.
Qed.

Lemma upload_file_accepted (session_id : str) (f : UploadFile)
    (results : list UploadResponse) (to_ingest : list (str * str))
    (w : W) (log : list event) :
  accepted usvc f = true ->
  exists text o w',
    upload_file usvc session_id f results to_ingest (w, log) = (o, (w', log))
    /\ match o with
       | Ok state =>
           exists res,
             state = (results ++ [res], dict_set (uf_filename f) text to_ingest)
             /\ recorded usvc f res
       | Raise e =>
           exists w0,
             insert_note usvc session_id (py "system")
               (py "Uploaded " ++ uf_filename f) [(py "status", py "accepted")] w
             = (inl e, w0)
             \/ insert_session_file usvc session_id (uf_filename f) w0 = (inl e, w')
       | OutOfFuel => False
       end.
Proof.
  intros Ha. unfold recorded. rewrite Ha. unfold accepted in Ha. unfold upload_file.
  destruct (validate_file _ _ _ _) as [ok msg]. cbn [fst] in Ha.
  destruct ok; cbn [negb andb] in Ha |- *; [|discriminate].
  destruct (extract_text_by_extension _ _ _ _ _ _) as [e|text]; [discriminate|].
  exists text. unfold bind. rewrite perform_eq.
  destruct (insert_note usvc _ _ _ _ w) as [[e|[]] w0] eqn:En; cbn [fst snd outcome_of].
  - eexists _, _. split; [reflexivity|]. exists w0. left. reflexivity.
  - rewrite perform_eq.
    destruct (insert_session_file usvc _ _ w0) as [[e|[]] w1] eqn:Ef;
      cbn [fst snd outcome_of]; eexists _, _; (split; [reflexivity|]).
    + exists w0. right. exact Ef.
    + eexists. split; [reflexivity|]. split; reflexivity.
Qed.

Lemma upload_loop_ok (session_id : str) (files : list UploadFile)
    (results : list UploadResponse) (to_ingest : list (str * str))
    (st st' : W * list event) (results' : list UploadResponse)
    (to_ingest' : list (str * str)) :
  upload_loop usvc session_id files results to_ingest st
  = (Ok (results', to_ingest'), st') ->
  exists added,
    results' = results ++ added /\ Forall2 (recorded usvc) files added.
Proof.
  revert results to_ingest st.
  induction files as [|f files IH]; intros results to_ingest st; cbn [upload_loop].
  - intros [= <- _ _]. exists []. rewrite app_nil_r. split; [reflexivity|constructor].
  - unfold bind. destruct (accepted usvc f) eqn:Ha.
    + destruct st as [w log].
      destruct (upload_file_accepted session_id f results to_ingest w log Ha)
        as (text & o & w' & E & Ho).
      rewrite E. destruct o as [state|e|]; [|discriminate|contradiction].
      destruct Ho as (res & -> & Hres). cbn [fst snd]. intros H.
      apply IH in H. destruct H as (added & -> & Hadd).
      exists (res :: added). rewrite <- app_assoc. split; [reflexivity|].
      constructor; assumption.
    + destruct (upload_file_rejected session_id f results to_ingest st Ha)
        as (res & E & Hres).
      rewrite E. cbn [fst snd]. intros H.
      apply IH in H. destruct H as (added & -> & Hadd).
      exists (res :: added). rewrite <- app_assoc. split; [reflexivity|].
      constructor; assumption.
Qed.

Lemma upload_loop_rejected (session_id : str) (files : list UploadFile)
    (results : list UploadResponse) (to_ingest : list (str * str))
    (st : W * list event) :
  Forall (fun f => accepted usvc f = false) files ->
  exists added,
    upload_loop usvc session_id files results to_ingest st
    = (Ok (results ++ added, to_ingest), st)
    /\ Forall2 (recorded usvc) files added.
Proof.
  intros Hall. revert results.
  induction Hall as [|f files Hf _ IH]; intros results; cbn [upload_loop].
  - exists []. rewrite app_nil_r. split; [reflexivity|constructor].
  - destruct (upload_file_rejected session_id f results to_ingest st Hf)
      as (res & E & Hres).
    unfold bind. rewrite E. cbn [fst snd].
    destruct (IH (results ++ [res])) as (added & E' & Hadd).
    exists (res :: added). rewrite E', <- app_assoc.
    split; [reflexivity|]. constructor; assumption.
Qed.

Lemma upload_loop_run (session_id : str) (files : list UploadFile)
    (results : list UploadResponse) (to_ingest : list (str * str))
    (w : W) (log : list event) :
  (forall role_ message extra w0,
     (insert_note usvc session_id role_ message extra w0).1 = inr ()) ->
  (forall filename w0, (insert_session_file usvc session_id filename w0).1 = inr ()) ->
  exists state w',
    upload_loop usvc session_id files results to_ingest (w, log)
    = (Ok state, (w', log)).
Proof.
  intros Hn Hf. revert results to_ingest w.
  induction files as [|f files IH]; intros results to_ingest w; cbn [upload_loop].
  - eexists _, _. reflexivity.
  - unfold bind. destruct (accepted usvc f) eqn:Ha.
    + destruct (upload_file_accepted session_id f results to_ingest w log Ha)
        as (text & o & w' & E & Ho).
      rewrite E. destruct o as [state|e|]; [apply IH| |contradiction].
      destruct Ho as (w0 & [H|H]).
      * specialize (Hn (py "system") (py "Uploaded " ++ uf_filename f)
                      [(py "status", py "accepted")] w).
        rewrite H in Hn. discriminate.
      * specialize (Hf (uf_filename f) w0). rewrite H in Hf. discriminate.
    + destruct (upload_file_rejected session_id f results to_ingest (w, log) Ha)
        as (res & E & _).
      rewrite E. apply IH.
Qed.

(** X20. Whenever [upload_files] returns, its result names the session
    and holds one entry per uploaded file, in the order of the upload
    and under the name of the file: accepted when the file passed the
    validation and its text was extracted, rejected otherwise; and at
    most three suggestions. *)
Theorem upload_files_results (session_id : str) (files : list UploadFile)
    (st st' : W * list event) (result : FileUploadResult) :
  upload_files usvc session_id files st = (Ok result, st') ->
  f_session_id result = session_id
  /\ Forall2 (recorded usvc) files (f_results result)
  /\ (length (f_suggestions result) <= 3)%nat.
Proof.
  unfold upload_files. unfold bind at 1.
  destruct (perform (session_by_id usvc session_id) st) as [[session|e|] st1];
    try discriminate.
  destruct (no_session session); [discriminate|].
  unfold bind at 1.
  destruct (upload_loop usvc session_id files [] [] st1)
    as [[[results to_ingest]|e|] st2] eqn:El; try discriminate.
  apply upload_loop_ok in El. destruct El as (added & -> & Hrec).
  cbn [fst snd app]. unfold bind, ret.
  destruct to_ingest as [|kv to_ingest].
  - intros [= <- _]. cbn. split; [reflexivity|]. split; [exact Hrec|lia].
  - unfold try_except.
    destruct (ingest_documents _ _ _ st2) as [[summary|e|] st3].
    + destruct (generate_suggestions_from_retriever _ _ _ _ st3)
        as [[l|e|] st4] eqn:Es; try discriminate.
      * intros [= <- _]. cbn. split; [reflexivity|]. split; [exact Hrec|].
        apply generate_suggestions_ok_bound in Es. tauto.
      * intros [= <- _]. cbn. split; [reflexivity|]. split; [exact Hrec|lia].
    + intros [= <- _]. cbn. split; [reflexivity|]. split; [exact Hrec|lia].
    + discriminate.
Qed.

(** X21. When no uploaded file is accepted, [upload_files] returns the
    rejections and no suggestion, and calls nothing after the lookup of
    the session: nothing is stored, ingested or asked of the backend. *)
Theorem upload_files_all_rejected (session_id : str) (files : list UploadFile)
    (w w1 : W) (log : list event) (session : pydict) :
  session_by_id usvc session_id w = (inr session, w1) ->
  no_session session = false ->
  Forall (fun f => accepted usvc f = false) files ->
  exists results,
    upload_files usvc session_id files (w, log)
    = (Ok {| f_session_id := session_id; f_results := results;
             f_suggestions := [] |}, (w1, log))
    /\ Forall2 (recorded usvc) files results.
Proof.
  intros Hs Hn Hall. unfold upload_files. unfold bind at 1.
  rewrite perform_eq, Hs. cbn [fst snd outcome_of]. rewrite Hn.
  destruct (upload_loop_rejected session_id files [] [] (w1, log) Hall)
    as (added & E & Hrec).
  unfold bind at 1. rewrite E. cbn [fst snd app]. unfold bind, ret.
  exists added. split; [reflexivity|exact Hrec].
Qed.

(** X22. The lookup of the session comes first in [upload_files] and in
    [delete_file], outside any [try]: when it raises, as the query for a
    single row does for a session without a row, both handlers raise the
    same exception and do nothing else; when it returns an empty row,
    both raise the HTTP error 404, again with nothing else done. *)
Theorem session_lookup_failure (session_id filename : str) (files : list UploadFile)
    (w : W) (log : list event) :
  match session_by_id usvc session_id w with
  | (inl e, w1) =>
      upload_files usvc session_id files (w, log) = (Raise e, (w1, log))
      /\ delete_file usvc session_id filename (w, log) = (Raise e, (w1, log))
  | (inr session, w1) =>
      session = ∅ ->
      upload_files usvc session_id files (w, log)
      = (Raise (session_not_found session_id), (w1, log))
      /\ delete_file usvc session_id filename (w, log)
         = (Raise (session_not_found session_id), (w1, log))
  end.
Proof.
  destruct (session_by_id usvc session_id w) as [[e|session] w1] eqn:Hs.
  - split.
    + unfold upload_files. unfold bind at 1.
      rewrite perform_eq, Hs. reflexivity.
    + unfold delete_file. unfold bind at 1.
      rewrite perform_eq, Hs. reflexivity.
  - intros ->. split.
    + unfold upload_files. unfold bind at 1.
      rewrite perform_eq, Hs. reflexivity.
    + unfold delete_file. unfold bind at 1.
      rewrite perform_eq, Hs. reflexivity.
Qed.

Lemma ingest_files_ends (session_id : str) (docs : list (str * str))
    (summary : list (str * ingest_entry)) (w : W) (log : list event) :
  exists summary' w',
    ingest_files (ingest_services usvc) session_id docs summary (w, log)
    = (Ok summary', (w', log)).
Proof.
  revert summary w. induction docs as [|[filename text] docs IH]; intros summary w.
  - eexists _, _. reflexivity.
  - cbn [ingest_files]. unfold bind.
    destruct (ingest_file_run (ingest_services usvc) session_id filename text w log)
      as (entry & w1 & E & _).
    rewrite E. apply IH.
Qed.

Lemma ingest_documents_ends (session_id : str) (docs : list (str * str))
    (w : W) (log : list event) :
  exists o w',
    ingest_documents (ingest_services usvc) session_id docs (w, log)
    = (o, (w', log))
    /\ terminates o.
Proof.
  unfold ingest_documents. unfold bind at 1. rewrite perform_eq.
  destruct (open_ingest_store _ session_id w) as [[e|[]] w1];
    cbn [fst snd outcome_of].
  - eexists _, _. split; [reflexivity|exact I].
  - unfold bind at 1. rewrite try_perform_run.
    destruct (ingest_files_ends session_id docs []
                (ensure_source_index (ingest_services usvc) session_id w1).2 log)
      as (summary & w3 & E3).
    unfold bind at 1. rewrite E3. unfold bind. rewrite try_perform_run.
    eexists _, _. split; [reflexivity|exact I].
Qed.

(** X23. The ingestion and the suggestions cannot fail an upload: when
    the session is found and the two insertions in the store do not
    raise, [upload_files] returns a result, whatever the vector store,
    the splitter and the backend do. *)
Theorem upload_files_returns (session_id : str) (files : list UploadFile)
    (w w1 : W) (log : list event) (session : pydict) :
  session_by_id usvc session_id w = (inr session, w1) ->
  no_session session = false ->
  (forall role_ message extra w0,
     (insert_note usvc session_id role_ message extra w0).1 = inr ()) ->
  (forall filename w0, (insert_session_file usvc session_id filename w0).1 = inr ()) ->
  exists result st',
    upload_files usvc session_id files (w, log) = (Ok result, st').
Proof.
  intros Hs Hn Hnote Hfile. unfold upload_files. unfold bind at 1.
  rewrite perform_eq, Hs. cbn [fst snd outcome_of]. rewrite Hn.
  destruct (upload_loop_run session_id files [] [] w1 log Hnote Hfile)
    as ([results to_ingest] & w2 & E).
  unfold bind at 1. rewrite E. cbn [fst snd]. unfold bind at 1.
  destruct to_ingest as [|kv to_ingest].
  - eexists _, _. reflexivity.
  - unfold try_except, bind at 1.
    destruct (ingest_documents_ends session_id (kv :: to_ingest) w2 log)
      as (o & w3 & Ei & Ht).
    rewrite Ei. destruct o as [summary|e|]; [| |contradiction].
    + destruct (generate_suggestions_logs (qa_services usvc) session_id None None
                  w3 log) as (o & w4 & evs & Es & Hts & _).
      rewrite Es. destruct o as [l|e|]; [| |contradiction];
        eexists _, _; reflexivity.
    + eexists _, _. reflexivity.
Qed.

End UploadFacts.

Lemma upload_files_results_witness :
  exists result,
    (upload_files example_upload_services (py "s1") example_upload ((), [])).1
    = Ok result
    /\ f_session_id result = py "s1"
    /\ Forall2 (recorded example_upload_services) example_upload (f_results result)
    /\ (length (f_suggestions result) <= 3)%nat.
Proof.
  eexists. split; [vm_compute; reflexivity|].
  apply (upload_files_results example_upload_services (py "s1") example_upload
           ((), [])
           (upload_files example_upload_services (py "s1") example_upload ((), [])).2).
  vm_compute. reflexivity.
Defined.

Lemma upload_files_all_rejected_witness :
  exists results,
    upload_files example_upload_services (py "s1") (drop 1 example_upload) ((), [])
    = (Ok {| f_session_id := py "s1"; f_results := results;
             f_suggestions := [] |}, ((), []))
    /\ Forall2 (recorded example_upload_services) (drop 1 example_upload) results.
Proof.
  apply (upload_files_all_rejected example_upload_services (py "s1")
           (drop 1 example_upload) () () []
           ({[ "id"%string := py "s1" ]} : pydict)).
  - reflexivity.
  - vm_compute. reflexivity.
  - repeat constructor.
Defined.

Lemma session_lookup_failure_witness :
  upload_files example_upload_services (py "s2") example_upload ((), [])
  = (Raise (ServiceError (py "no row for the session")), ((), []))
  /\ delete_file example_upload_services (py "s2") (py "scan.pdf") ((), [])
     = (Raise (ServiceError (py "no row for the session")), ((), [])).
Proof.
  exact (session_lookup_failure example_upload_services (py "s2") (py "scan.pdf")
           example_upload () []).
Defined.

Lemma upload_files_returns_witness :
  exists result st',
    upload_files example_upload_services (py "s1") example_upload ((), [])
    = (Ok result, st').
Proof.
  apply (upload_files_returns example_upload_services (py "s1") example_upload
           () () [] ({[ "id"%string := py "s1" ]} : pydict)).
  - reflexivity.
  - vm_compute. reflexivity.
  - reflexivity.
  - reflexivity.
Defined.

(** ** A quiz request for a negative number of questions *)

(** X24. A negative [num_questions] is not refused: the count is the
    number itself, no excerpt is selected, and the request posted to the
    backend asks for that number of questions on an empty context,
    although passages were retrieved. *)
Theorem generate_mcq_negative_count {W} (svc : Services W) (body : MCQRequest)
    (w : W) (log : list event) (w1 w2 : W) (d : Document) (docs : list Document) :
  m_num_questions body < 0 ->
  open_vectorstore svc (m_session_id body) w = (inr (), w1) ->
  invoke svc (retriever_for (m_session_id body) (m_files body) TOP_K)
    MCQ_PROBE w1 = (inr (d :: docs), w2) ->
  exists o w3,
    generate_mcq svc body (w, log)
    = (o, (w3, log ++ quiz_calls body
               ++ [EvPost {| model := GROQ_RAG_MODEL;
                             messages :=
                               build_mcq_generation_prompt [[]] (m_num_questions body);
                             max_tokens := 4096;
                             temperature := (5 # 10)%Q |}])).
Proof.
  intros Hneg H1 H2.
  assert (Hc : mcq_count (m_num_questions body) = m_num_questions body).
  { unfold mcq_count. destruct (m_num_questions body =? 0) eqn:E; [|reflexivity].
    apply Z.eqb_eq in E. lia. }
  assert (E0 : forall k : list Document -> M W MCQListResponse,
    bind (bind (call (EvVectorStore (m_session_id body))
                  (open_vectorstore svc (m_session_id body)))
            (fun _ => ret (retriever_for (m_session_id body) (m_files body) TOP_K)))
      (fun retriever => bind (retriever_invoke svc retriever MCQ_PROBE) k) (w, log)
    = k (d :: docs) (w2, log ++ quiz_calls body)).
  { intros k. unfold bind, retriever_invoke, ret. rewrite !call_eq, H1.
    cbn [fst snd outcome_of]. rewrite !call_eq, H2. cbn [fst snd outcome_of].
    rewrite <- app_assoc. reflexivity. }
  unfold generate_mcq, get_retriever_for_session.
  fold (retriever_for (m_session_id body) (m_files body) TOP_K).
  rewrite E0, Hc.
  assert (Hsel : select_excerpts (m_num_questions body * 2)
                   (group_by_source (py "unknown") excerpt (d :: docs)) = Ok []).
  { unfold select_excerpts, select_fuel. cbn [select_loop length].
    replace (Z.of_nat 0 <? m_num_questions body * 2) with false
      by (symmetry; apply Z.ltb_ge; lia).
    reflexivity. }
  rewrite Hsel. unfold bind at 1, lift at 1.
  change (combine_excerpts []) with ([] : str).
  match goal with
  | |- context [chat_get_text svc ?m ?ms ?mt ?t] =>
      destruct (chat_get_text_run svc m ms mt t w2 (log ++ quiz_calls body))
        as (o & w3 & E & Ho)
  end.
  unfold bind. rewrite E. rewrite <- app_assoc.
  destruct o as [resp|e|]; [| |contradiction].
  - unfold lift. eexists _, _. reflexivity.
  - eexists _, _. reflexivity.
Qed.

Lemma generate_mcq_negative_count_witness :
  exists o w3,
    generate_mcq (table_services one_passage_index (fixed_backend "[]") no_json)
      {| m_session_id := py "s1"; m_num_questions := -2; m_files := None |} ([], [])
    = (o, (w3, [] ++ [ EvVectorStore (py "s1");
                       EvInvoke (retriever_for (py "s1") None TOP_K) MCQ_PROBE ]
               ++ [EvPost {| model := GROQ_RAG_MODEL;
                             messages := build_mcq_generation_prompt [[]] (-2);
                             max_tokens := 4096;
                             temperature := (5 # 10)%Q |}])).
Proof.
  apply (generate_mcq_negative_count
           (table_services one_passage_index (fixed_backend "[]") no_json)
           {| m_session_id := py "s1"; m_num_questions := -2; m_files := None |}
           [] [] [] [] (passage "a.pdf" "cats are mammals") []).
  - reflexivity.
  - reflexivity.
  - reflexivity.
Defined.

(** ** The follow-up prompt on a history listed newest first *)

Lemma reverse_turns_history (turns : list (str * str)) :
  reverse (turns_history turns)
  = flat_map (fun turn => [chat_entry (py "assistant") turn.2;
                           chat_entry (py "user") turn.1]) (reverse turns).
Proof.
  induction turns as [|turn turns IH]; [reflexivity|].
  change (turns_history (turn :: turns))
    with ([chat_entry (py "user") turn.1; chat_entry (py "assistant") turn.2]
          ++ turns_history turns).
  rewrite reverse_app, IH.
  replace (reverse (turn :: turns)) with (reverse turns ++ [turn])
    by (symmetry; apply reverse_cons).
  rewrite flat_map_app. reflexivity.
Qed.

Lemma conversation_pairs_step (msg next_msg : pydict) (rest : list pydict) :
  conversation_pairs (msg :: next_msg :: rest)
  = if has_role (py "user") msg && has_role (py "assistant") next_msg
    then (message_text msg, message_text next_msg) :: conversation_pairs rest
    else conversation_pairs (next_msg :: rest).
Proof. reflexivity. Qed.

Lemma conversation_pairs_from_question (q : str) (turns : list (str * str)) :
  conversation_pairs
    (chat_entry (py "user") q
     :: flat_map (fun turn => [chat_entry (py "assistant") turn.2;
                               chat_entry (py "user") turn.1]) turns)
  = match turns with
    | before :: _ => (q, before.2) :: shifted_pairs turns
    | [] => []
    end.
Proof.
  revert q. induction turns as [|before turns IH]; intros q; [reflexivity|].
  cbn [flat_map app]. rewrite conversation_pairs_step.
  change (has_role (py "user") (chat_entry (py "user") q)) with true.
  change (has_role (py "assistant") (chat_entry (py "assistant") before.2)) with true.
  cbn [andb]. rewrite !message_text_chat_entry, IH. destruct turns; reflexivity.
Qed.

(** X25. On a history listed newest first, as [get_session_messages]
    returns it, the pairing loop of [build_suggestion_prompt] pairs each
    question with the answer given to the question before it; the oldest
    question and the newest answer are in no pair, so [n] turns give
    [n - 1] pairs. *)
Theorem conversation_pairs_newest_first (turns : list (str * str)) :
  conversation_pairs (reverse (turns_history turns)) = shifted_pairs (reverse turns)
  /\ length (conversation_pairs (reverse (turns_history turns)))
     = (length turns - 1)%nat.
Proof.
  assert (E : conversation_pairs (reverse (turns_history turns))
              = shifted_pairs (reverse turns)).
  { rewrite reverse_turns_history.
    destruct (reverse turns) as [|turn rest]; [reflexivity|].
    cbn [flat_map app]. rewrite conversation_pairs_step.
    change (has_role (py "user") (chat_entry (py "assistant") turn.2)) with false.
    cbn [andb]. rewrite conversation_pairs_from_question.
    destruct rest; reflexivity. }
  split; [exact E|]. rewrite E, <- (length_reverse turns).
  generalize (reverse turns). intros l.
  induction l as [|turn [|before rest] IH]; [reflexivity|reflexivity|].
  change (shifted_pairs (turn :: before :: rest))
    with ((turn.1, before.2) :: shifted_pairs (before :: rest)).
  cbn [length] in *. rewrite IH. lia.
Qed.

(** ** The default count of a quiz *)



